(** * GraphStorm dataloading: a shallow embedding and its properties

    The development follows three source files of the repository:

    - [python/graphstorm/dataloading/dataloading.py]: the feature
      reconstruction sampler, the edge, link-prediction and node dataloaders
      and the per-edge-type balanced loader [AllEtypeDistEdgeDataLoader];
    - [tests/end2end-tests/data_gen/remove_test_mask.py];
    - [graphstorm-processing/tests/test_converter.py], the tests of the
      configuration converter.

    Part I holds the definitions, one module per Python class or file, with
    the names of the source.  Part II holds the lemmas and theorems. *)

From stdpp Require Import gmap strings list fin_maps.
From Stdlib Require Import ZArith QArith.Qcanon Lia.

Local Open Scope Z_scope.

Set Warnings "-clear-no-such-hyp".

(** * Part I: definitions *)

(** ** Python primitives *)

(** The exceptions the modelled code can raise.  A failed [assert] raises
    [AssertionError]; the message is the literal text of the source, without
    its formatted arguments. *)
Inductive exn : Type :=
| AssertionError (msg : string)
| ValueError (msg : string)
| ZeroDivisionError
| KeyError
| IndexError
| RuntimeError
| StopIteration.

(** A computation either raises or returns. *)
Abbreviation result := (sum exn).

#[global] Instance result_ret : MRet result := λ A x, inr x.
#[global] Instance result_bind : MBind result :=
  λ A B k m, match m with inl e => inl e | inr a => k a end.
#[global] Instance result_fmap : FMap result :=
  λ A B f m, match m with inl e => inl e | inr a => inr (f a) end.

Definition raise {A} (e : exn) : result A := inl e.

(** [assert cond, msg] *)
Definition assert (cond : bool) (msg : string) : result unit :=
  if cond then mret tt else raise (AssertionError msg).

(** [for x in l: body x], stopping at the first exception. *)
Fixpoint for_each {A} (body : A → result unit) (l : list A) : result unit :=
  match l with
  | [] => mret tt
  | x :: l' => body x ≫= λ _, for_each body l'
  end.

(** A loop that threads an accumulator and stops at the first exception. *)
Fixpoint foldlM {A B} (f : B → A → result B) (b : B) (l : list A) : result B :=
  match l with
  | [] => mret b
  | x :: l' => f b x ≫= λ b', foldlM f b' l'
  end.

(** [a // b] and [a % b] on Python integers. *)
Definition py_floordiv (a b : Z) : result Z :=
  if b =? 0 then raise ZeroDivisionError else mret (a / b).
Definition py_mod (a b : Z) : result Z :=
  if b =? 0 then raise ZeroDivisionError else mret (a `mod` b).

(** [t[idx]] for a 1-D tensor [t] and a list of positions [idx]. *)
Fixpoint tensor_index {A} (t : list A) (idx : list nat) : result (list A) :=
  match idx with
  | [] => mret []
  | i :: idx' =>
      match t !! i with
      | Some x => (x ::.) <$> tensor_index t idx'
      | None => raise IndexError
      end
  end.

(** [t.item()]: the value of a tensor with one element. *)
Definition item {A} (t : list A) : result A :=
  match t with
  | [x] => mret x
  | _ => raise RuntimeError
  end.

(** [[f x for x in l]], stopping at the first exception. *)
Fixpoint traverse {A B} (f : A → result B) (l : list A) : result (list B) :=
  match l with
  | [] => mret []
  | x :: l' => y ← f x; ys ← traverse f l'; mret (y :: ys)
  end.

(** [needle in s] on Python strings: [needle] occurs somewhere in [s]. *)
Fixpoint str_contains (needle s : string) : bool :=
  String.prefix needle s ||
  match s with
  | EmptyString => false
  | String _ s' => str_contains needle s'
  end.

(** [math.ceil(a / b)] for a positive divisor.  Python divides the two
    integers into a double and rounds that up; the double is the exact
    quotient correctly rounded, and rounding it up gives the exact ceiling as
    long as [a] stays below 2^53, which edge counts and batch sizes do.  The
    model is the exact ceiling. *)
Definition ceil_div (a b : Z) : Z := - ((- a) / b).

(** [l[start:stop]] on a list or a 1-D tensor, with Python's treatment of
    negative and out-of-range bounds. *)
Definition py_slice {A} (l : list A) (start stop : Z) : list A :=
  let n := Z.of_nat (length l) in
  let norm i := if i <? 0 then Z.max (i + n) 0 else Z.min i n in
  take (Z.to_nat (norm stop - norm start)) (drop (Z.to_nat (norm start)) l).

(** [len(x)] as a Python integer. *)
Abbreviation len l := (Z.of_nat (length l)).

(** *** Dictionaries

    A Python [dict] keeps its keys in insertion order, and several loops of
    the source depend on that order, so a dict that is iterated is a list of
    key-value pairs without repeated keys.  Dicts that are only read and
    written by key are [gmap]s. *)
Abbreviation dict K V := (list (K * V)).

Definition dict_keys {K V} (d : dict K V) : list K := d.*1.

(** [d[k]], raising [KeyError] for a missing key. *)
Fixpoint dict_get `{EqDecision K} {V} (d : dict K V) (k : K) : result V :=
  match d with
  | [] => raise KeyError
  | (k', v) :: d' => if decide (k' = k) then mret v else dict_get d' k
  end.

(** [d[k] = v]: an existing key keeps its place. *)
Fixpoint dict_set `{EqDecision K} {V} (d : dict K V) (k : K) (v : V) : dict K V :=
  match d with
  | [] => [(k, v)]
  | (k', v') :: d' =>
      if decide (k' = k) then (k', v) :: d' else (k', v') :: dict_set d' k v
  end.

(** [m[k]] on a [gmap]. *)
Definition gmap_get `{Countable K} {V} (m : gmap K V) (k : K) : result V :=
  match m !! k with Some v => mret v | None => raise KeyError end.

(** ** The graph and the DGL collaborator *)

(** Node types are names; a canonical edge type is the triple
    (source node type, relation name, destination node type). *)
Abbreviation ntype := string.
Abbreviation etype := (string * string * string)%type.

(** A 1-D tensor of node or edge IDs. *)
Abbreviation ids := (list Z).

(** The input nodes of a minibatch: node IDs per node type. *)
Abbreviation node_ids := (gmap ntype ids).

(** What the loaders read of the distributed graph [g]:
    [g.canonical_etypes], [g.ntypes] and the names of the per-edge-type data
    fields [g.edges[etype].data]. *)
Record DistGraph : Type := {
  canonical_etypes : list etype;
  ntypes : list ntype;
  edges_data : etype → list string;
}.

(** A GraphStorm dataset: [dataset.g] and [dataset.has_node_feats]. *)
Record GSgnnData : Type := {
  g : DistGraph;
  has_node_feats : ntype → bool;
}.

(** The sampling primitives of DGL, which the repository calls and does not
    define. *)
Class DGL : Type := {
  DGLGraph : Type;
  DGLBlock : Type;
  (** [g.sample_neighbors(seeds, fanout)] *)
  sample_neighbors : DistGraph → node_ids → gmap etype Z → DGLGraph;
  (** [dgl.to_block(subg, seeds)] *)
  to_block : DGLGraph → node_ids → DGLBlock;
  (** [{ntype: block.srcnodes[ntype].data[dgl.NID] for ntype in block.srctypes}] *)
  srcnodes_NID : DGLBlock → node_ids;
}.

(** The random draws of torch, threaded through a generator state. *)
Class TorchRandom (R : Type) : Type := {
  (** [th.randint(high, (1,))] for a positive [high] *)
  th_randint : nat → R → nat * R;
  (** [th.randperm(n)] *)
  th_randperm : nat → R → list nat * R;
}.

(** The fanout of one GNN layer: an integer for all edge types, or a dict
    with an integer per edge type. *)
Inductive layer_fanout : Type :=
| FanoutInt (n : Z)
| FanoutDict (m : gmap etype Z).

(** [dgl.dataloading.MultiLayerNeighborSampler(fanout, mask=...)] and
    GraphStorm's [FastMultiLayerNeighborSampler(fanout, mask=...)]. *)
Inductive neighbor_sampler : Type :=
| MultiLayerNeighborSampler (fanout : list layer_fanout) (mask : option string)
| FastMultiLayerNeighborSampler (fanout : list layer_fanout) (mask : option string).

(** The negative samplers, each with the number of negative edges. *)
Inductive negative_sampler : Type :=
| Uniform (k : Z)
| JointUniform (k : Z)
| LocalUniform (k : Z)
| JointLocalUniform (k : Z)
| GlobalUniform (k : Z).

(** The arguments [dgl.dataloading.DistEdgeDataLoader] and
    [dgl.dataloading.DistNodeDataLoader] are constructed with.  The
    constructors are DGL's: a loader of DGL is modelled by the arguments it
    was given, and what DGL does with them, which includes refusing some,
    is not modelled. *)
Record DistEdgeDataLoader : Type := {
  de_g : DistGraph;
  de_eids : dict etype ids;
  de_graph_sampler : neighbor_sampler;
  de_batch_size : Z;
  de_negative_sampler : option negative_sampler;
  de_shuffle : bool;
  de_drop_last : bool;
  de_num_workers : Z;
  de_exclude : option string;
  de_reverse_etypes : option (gmap etype etype);
}.

Record DistNodeDataLoader : Type := {
  dn_g : DistGraph;
  dn_nids : dict ntype ids;
  dn_graph_sampler : neighbor_sampler;
  dn_batch_size : Z;
  dn_shuffle : bool;
  dn_num_workers : Z;
}.

(** ** python/graphstorm/dataloading/utils.py *)

Module utils.

(** Modelled from the spec: [trim_data] of [graphstorm.dataloading.utils]
    is imported by dataloading.py and is not among the sources.  The spec
    says that target ID lists are trimmed to a length evenly divisible by
    the number of distributed workers; the model keeps the longest such
    prefix. *)
Definition trim_data (num_workers : nat) (nids : ids) : ids :=
  take (length nids - length nids `mod` num_workers)%nat nids.

(** Modelled from the spec: [modify_fanout_for_target_etype] of
    [graphstorm.dataloading.utils] is imported by dataloading.py and is
    not among the sources.  The spec says that the neighbor sampler is
    instructed to mask the edge types of the target closure out at every
    fanout hop; the model gives, for every hop, a dict over the edge types
    of the graph with fanout 0 for the edge types in [target_etypes] and
    the fanout of the hop for the others. *)
Definition modify_fanout_for_target_etype
    (g : DistGraph) (fanout : list layer_fanout) (target_etypes : list etype)
    : list layer_fanout :=
  (λ fan,
     FanoutDict
       (foldl
          (λ edge_fanout_dic etype,
             if bool_decide (etype ∈ target_etypes)
             then <[etype := 0]> edge_fanout_dic
             else
               match fan with
               | FanoutInt n => <[etype := n]> edge_fanout_dic
               | FanoutDict m =>
                   match m !! etype with
                   | Some n => <[etype := n]> edge_fanout_dic
                   | None => edge_fanout_dic
                   end
               end)
          ∅ (canonical_etypes g)))
  <$> fanout.

End utils.

(** ** _ReconstructedNeighborSampler *)

Module _ReconstructedNeighborSampler.

Record t : Type := {
  _g : DistGraph;
  _subg_etypes : list etype;
  _fanout : gmap etype Z;
}.

(** The two nested loops of [__init__]: the edge types that end in a
    requested node type and start at a node type with features, in the
    order the loops append them, and the set of requested node types that
    have one. *)
Definition collect_etypes (dataset : GSgnnData) (etypes : list etype)
    (constructed_embed_ntypes : list ntype) : list etype * gset ntype :=
  foldl
    (λ acc dst_ntype,
       foldl
         (λ '(subg_etypes, target_ntypes) (etype : etype),
            if bool_decide (etype.2 = dst_ntype) && has_node_feats dataset etype.1.1
            then (subg_etypes ++ [etype], {[dst_ntype]} ∪ target_ntypes)
            else (subg_etypes, target_ntypes))
         acc etypes)
    ([], ∅) constructed_embed_ntypes.

Definition __init__ (dataset : GSgnnData)
    (constructed_embed_ntypes : list ntype) (fanout : Z) : result t :=
  assert ((0 <? fanout) || (fanout =? -1))
    "Constructing features requires to sample neighbors or -1 if we use all neighbors.";;
  let etypes := canonical_etypes (g dataset) in
  let '(subg_etypes, target_ntypes) :=
    collect_etypes dataset etypes constructed_embed_ntypes in
  let remain_ntypes : gset ntype :=
    list_to_set constructed_embed_ntypes ∖ target_ntypes in
  assert (bool_decide (size remain_ntypes = 0%nat))
    "The features of some node types cannot be constructed: {remain_ntypes}";;
  let fanout_dict :=
    foldl
      (λ (d : gmap etype Z) etype,
         <[etype := if bool_decide (etype ∈ subg_etypes) then fanout else 0]> d)
      ∅ etypes in
  assert (bool_decide (0 < length subg_etypes)%nat)
    "The sampled edge types is empty.";;
  mret {| _g := g dataset; _subg_etypes := subg_etypes; _fanout := fanout_dict |}.

Definition sample `{DGL} (self : t) (seeds : node_ids) : DGLBlock * node_ids :=
  let subg := sample_neighbors (_g self) seeds (_fanout self) in
  let block := to_block subg seeds in
  let input_nodes := srcnodes_NID block in
  (block, input_nodes).

End _ReconstructedNeighborSampler.

(** ** AllEtypeDistEdgeDataLoader *)

Module AllEtypeDistEdgeDataLoader.

(** The fields of the loader that its own methods read and write.
    [dataset], [batch_size], [shuffle], [drop_last], [recv_idxs] and
    [num_pending] are set by the constructor of DGL's [DistDataLoader]
    from [eids] and the keyword arguments. *)
Record t : Type := {
  dataset : dict etype ids;
  batch_size : Z;
  shuffle : bool;
  drop_last : bool;
  device : string;
  data_idx : dict etype (list nat);
  bs_per_type : gmap etype Z;
  expected_idxs : Z;
  current_pos : gmap etype Z;
  recv_idxs : Z;
  num_pending : Z;
}.

Definition set_current_pos (self : t) (v : gmap etype Z) : t :=
  {| dataset := dataset self; batch_size := batch_size self;
     shuffle := shuffle self; drop_last := drop_last self;
     device := device self; data_idx := data_idx self;
     bs_per_type := bs_per_type self; expected_idxs := expected_idxs self;
     current_pos := v;
     recv_idxs := recv_idxs self; num_pending := num_pending self |}.

(** [math.ceil(a / b)] *)
Definition ceil_truediv (a b : Z) : result Z :=
  if b =? 0 then raise ZeroDivisionError else mret (ceil_div a b).

(** [{etype: 0 for etype, _ in data_idx.items()}] *)
Definition zero_pos {V} (data_idx : dict etype V) : gmap etype Z :=
  foldl (λ m '(etype, _), <[etype := 0]> m) ∅ data_idx.

Definition _reinit_dataset (self : t) : result t :=
  let batch_size := batch_size self in
  let '(data_idx, total_edges) :=
    foldl
      (λ '(data_idx, total_edges) '(key, val),
         (dict_set data_idx key (seq 0 (length val)), total_edges + len val))
      ([], 0) (dataset self) in
  '(max_expected_idxs, bs_per_type) ←
    foldlM
      (λ '(max_expected_idxs, bs_per_type) '(etype, idxs),
         bs ← ceil_truediv (batch_size * len idxs) total_edges;
         let bs_per_type := <[etype := bs]> bs_per_type in
         exp_idxs ← py_floordiv (len idxs) bs;
         r ← py_mod (len idxs) bs;
         let exp_idxs :=
           if negb (drop_last self) && negb (r =? 0)
           then exp_idxs + 1 else exp_idxs in
         mret (Z.max max_expected_idxs exp_idxs, bs_per_type))
      (0, ∅) data_idx;
  mret {| dataset := dataset self; batch_size := batch_size;
          shuffle := shuffle self; drop_last := drop_last self;
          device := device self; data_idx := data_idx;
          bs_per_type := bs_per_type; expected_idxs := max_expected_idxs;
          current_pos := zero_pos data_idx;
          recv_idxs := recv_idxs self; num_pending := num_pending self |}.

(** The constructor, for the keyword arguments [batch_size], [shuffle] and
    [drop_last]; the collator and the sampler it wraps belong to DGL.  The
    calls of [EdgeCollator] and of the constructor of [DistDataLoader]
    (lines 655 to 659), which run after the assertion and before
    [_reinit_dataset], are DGL's and are not modelled: the model goes on as
    if they returned. *)
Definition __init__ (eids : dict etype ids) (device : option string)
    (batch_size : Z) (shuffle drop_last : bool) : result t :=
  let device := default "cpu" device in
  assert (String.eqb device "cpu")
    "Only cpu is supported in the case of a DistGraph.";;
  self ← _reinit_dataset
    {| dataset := eids; batch_size := batch_size; shuffle := shuffle;
       drop_last := drop_last; device := device; data_idx := [];
       bs_per_type := ∅; expected_idxs := 0; current_pos := ∅;
       recv_idxs := 0; num_pending := 0 |};
  mret self.

(** [{etype: th.randperm(len(idxs)) for etype, idxs in data_idx.items()}]:
    the keys and their order are those of [data_idx]. *)
Fixpoint randperm_all `{TorchRandom R}
    (data_idx : dict etype (list nat)) (rng : R) : dict etype (list nat) * R :=
  match data_idx with
  | [] => ([], rng)
  | (etype, idxs) :: rest =>
      let '(perm, rng) := th_randperm (length idxs) rng in
      let '(rest, rng) := randperm_all rest rng in
      ((etype, perm) :: rest, rng)
  end.

Definition __iter__ `{TorchRandom R} (self : t) (rng : R) : t * R :=
  let '(data_idx, rng) :=
    if shuffle self then randperm_all (data_idx self) rng
    else (data_idx self, rng) in
  ({| dataset := dataset self; batch_size := batch_size self;
      shuffle := shuffle self; drop_last := drop_last self;
      device := device self; data_idx := data_idx;
      bs_per_type := bs_per_type self; expected_idxs := expected_idxs self;
      current_pos := zero_pos data_idx;
      recv_idxs := 0; num_pending := 0 |}, rng).

(** The positive edges of one edge type for the next iteration; [None]
    when the type has nothing more to give in this epoch. *)
Definition _next_data_etype (self : t) (etype : etype)
    : result (option ids * t) :=
  pos ← gmap_get (current_pos self) etype;
  eids ← dict_get (dataset self) etype;
  if pos =? len eids then mret (None, self) else
  bs ← gmap_get (bs_per_type self) etype;
  end_pos ←
    (if len eids <? pos + bs
     then if drop_last self then mret None else mret (Some (len eids))
     else mret (Some (pos + bs)));
  match end_pos with
  | None => mret (None, self)
  | Some end_pos =>
      idxs ← dict_get (data_idx self) etype;
      let idx := py_slice idxs pos end_pos in
      ret ← tensor_index eids idx;
      mret (Some ret, set_current_pos self (<[etype := end_pos]> (current_pos self)))
  end.

(** One randomly selected edge of an edge type, as a tensor of one ID. *)
Definition _rand_gen `{TorchRandom R} (self : t) (etype : etype) (rng : R)
    : result (ids * R) :=
  eids ← dict_get (dataset self) etype;
  if bool_decide (length eids = 0%nat) then raise RuntimeError else
  let '(i, rng) := th_randint (length eids) rng in
  ret ← tensor_index eids [i];
  mret (ret, rng).

(** The first loop of [_next_data]: one call of [_next_data_etype] per
    edge type, in the order of the dataset. *)
Definition collect_next (self : t)
    : result (bool * list (etype * option ids) * t) :=
  foldlM
    (λ '(end_, ret, self) '(etype, _),
       '(next_data, self) ← _next_data_etype self etype;
       mret (bool_decide (next_data = None) && end_,
             ret ++ [(etype, next_data)], self))
    (true, [], self) (dataset self).

(** The second loop of [_next_data]: the flat list of (edge type, edge ID)
    pairs, with one random edge for every type that gave [None]. *)
Definition flatten_ret `{TorchRandom R} (self : t)
    (ret : list (etype * option ids)) (rng : R)
    : result (list (etype * Z) * R) :=
  foldlM
    (λ '(new_ret, rng) (rel_t : etype * option ids),
       match rel_t.2 with
       | None =>
           '(one, rng) ← _rand_gen self rel_t.1 rng;
           eid ← item one;
           mret (new_ret ++ [(rel_t.1, eid)], rng)
       | Some eids =>
           mret (new_ret ++ ((λ data, (rel_t.1, data)) <$> eids), rng)
       end)
    ([], rng) ret.

(** The positive edges of the next iteration, [None] at the end of the
    epoch. *)
Definition _next_data `{TorchRandom R} (self : t) (rng : R)
    : result (option (list (etype * Z)) * t * R) :=
  '(end_, ret, self) ← collect_next self;
  if end_ : bool then mret (None, self, rng)
  else
    '(new_ret, rng) ← flatten_ret self ret rng;
    mret (Some new_ret, self, rng).

End AllEtypeDistEdgeDataLoader.

(** ** The construction steps the dataloaders share *)

(** [for etype in target_idx: assert etype in dataset.g.canonical_etypes] *)
Definition check_etypes (dataset : GSgnnData) {V} (target_idx : dict etype V)
    : result unit :=
  for_each
    (λ etype,
       assert (bool_decide (etype ∈ canonical_etypes (g dataset)))
         "edge type {} does not exist in the graph")
    (dict_keys target_idx).

(** [_ReconstructedNeighborSampler(...) if len(construct_feat_ntype) > 0 else None],
    after [None] has been replaced by the empty list. *)
Definition make_construct_feat_sampler (dataset : GSgnnData)
    (construct_feat_ntype : option (list ntype)) (construct_feat_fanout : Z)
    : result (option _ReconstructedNeighborSampler.t) :=
  let construct_feat_ntype := default [] construct_feat_ntype in
  if bool_decide (0 < length construct_feat_ntype)%nat
  then Some <$> _ReconstructedNeighborSampler.__init__
                  dataset construct_feat_ntype construct_feat_fanout
  else mret None.

(** [for key in target_idxs: target_idxs[key] = trim_data(target_idxs[key], device)]:
    the dict the caller passed is updated in place. *)
Definition trim_all `{EqDecision K} (num_workers : nat) (target_idxs : dict K ids)
    : result (dict K ids) :=
  foldlM
    (λ target_idxs key,
       nids ← dict_get target_idxs key;
       mret (dict_set target_idxs key (utils.trim_data num_workers nids)))
    target_idxs (dict_keys target_idxs).

(** The sampler of the link-prediction loaders: with the mask when the mask
    is given and some edge type of the graph has a data field of that name. *)
Definition has_mask (g : DistGraph) (edge_mask_for_gnn_embeddings : option string)
    : option string :=
  match edge_mask_for_gnn_embeddings with
  | Some mask =>
      if existsb (λ etype, bool_decide (mask ∈ edges_data g etype))
           (canonical_etypes g)
      then Some mask else None
  | None => None
  end.

(** The step [__next__] of every loader ends with: the reconstruction block
    goes in front of the blocks and the input nodes become those of the
    reconstruction sample. *)
Definition add_construct_feat `{DGL}
    (sampler : option _ReconstructedNeighborSampler.t)
    (input_nodes : node_ids) (blocks : list DGLBlock)
    : node_ids * list DGLBlock :=
  match sampler with
  | Some sampler =>
      if bool_decide (0 < length blocks)%nat then
        let '(block, input_nodes) :=
          _ReconstructedNeighborSampler.sample sampler input_nodes in
        (input_nodes, block :: blocks)
      else (input_nodes, blocks)
  | None => (input_nodes, blocks)
  end.

(** ** GSgnnEdgeDataLoader *)

Module GSgnnEdgeDataLoader.

(** [_target_eidx] is the dict the caller passed: the loader and the
    caller share it. *)
Record t : Type := {
  _data : GSgnnData;
  _target_eidx : dict etype ids;
  _fanout : list layer_fanout;
  _device : string;
  _construct_feat_sampler : option _ReconstructedNeighborSampler.t;
  dataloader : DistEdgeDataLoader;
}.

(** The loop [for e in target_etypes: ...] of [__init__].  It runs over the
    list it appends to, so it also visits the edge types it has appended;
    [i] is the position of the iterator.  [fuel] bounds the number of
    iterations; the result is [None] when it is used up. *)
Fixpoint target_etypes_loop (fuel : nat) (reverse_edge_types_map : gmap etype etype)
    (i : nat) (target_etypes : list etype) : option (list etype) :=
  match fuel with
  | O => None
  | S fuel =>
      match target_etypes !! i with
      | None => Some target_etypes
      | Some e =>
          match reverse_edge_types_map !! e with
          | Some r =>
              if bool_decide (r ∉ target_etypes)
              then target_etypes_loop fuel reverse_edge_types_map (S i)
                     (target_etypes ++ [r])
              else target_etypes_loop fuel reverse_edge_types_map (S i)
                     target_etypes
          | None =>
              target_etypes_loop fuel reverse_edge_types_map (S i) target_etypes
          end
      end
  end.

(** [target_etypes] after the loop.  The loop ends within
    [length keys + size map + 1] iterations (lemma
    [target_etypes_loop_terminates]). *)
Definition extend_target_etypes (reverse_edge_types_map : gmap etype etype)
    (keys : list etype) : list etype :=
  default keys
    (target_etypes_loop (length keys + size reverse_edge_types_map + 1)
       reverse_edge_types_map 0 keys).

Definition _prepare_dataloader (g : DistGraph) (target_idxs : dict etype ids)
    (fanout : list layer_fanout) (batch_size : Z)
    (exclude_training_targets : bool)
    (reverse_edge_types_map : option (gmap etype etype))
    (train_task : bool) : DistEdgeDataLoader :=
  let sampler := MultiLayerNeighborSampler fanout None in
  let exclude_val :=
    if exclude_training_targets then Some "reverse_types" else None in
  {| de_g := g; de_eids := target_idxs; de_graph_sampler := sampler;
     de_batch_size := batch_size; de_negative_sampler := None;
     de_shuffle := train_task; de_drop_last := false; de_num_workers := 0;
     de_exclude := exclude_val;
     de_reverse_etypes :=
       if exclude_training_targets then reverse_edge_types_map else None |}.

Definition __init__ (dataset : GSgnnData) (target_idx : dict etype ids)
    (fanout : list layer_fanout) (batch_size : Z) (device : string)
    (train_task : bool) (reverse_edge_types_map : option (gmap etype etype))
    (remove_target_edge_type exclude_training_targets : bool)
    (construct_feat_ntype : option (list ntype)) (construct_feat_fanout : Z)
    : result t :=
  edge_fanout_lis ←
    (if remove_target_edge_type then
       match reverse_edge_types_map with
       | None =>
           raise (AssertionError
             "To remove target etype, the reversed etype should be provided.")
       | Some reverse_map =>
           let target_etypes :=
             extend_target_etypes reverse_map (dict_keys target_idx) in
           mret (utils.modify_fanout_for_target_etype
                   (g dataset) fanout target_etypes)
       end
     else mret fanout);
  check_etypes dataset target_idx;;
  sampler ← make_construct_feat_sampler
              dataset construct_feat_ntype construct_feat_fanout;
  mret {| _data := dataset; _target_eidx := target_idx; _fanout := fanout;
          _device := device; _construct_feat_sampler := sampler;
          dataloader :=
            _prepare_dataloader (g dataset) target_idx edge_fanout_lis
              batch_size exclude_training_targets reverse_edge_types_map
              train_task |}.

(** [self.dataloader.__iter__()] restarts DGL's loader; the object itself
    is returned as it is. *)
Definition __iter__ (self : t) : t := self.

(** [inner] is what [self.dataloader.__next__()] gives: a minibatch or an
    exception, [StopIteration] at the end of the epoch. *)
Definition __next__ `{DGL} (self : t)
    (inner : result (node_ids * DGLGraph * list DGLBlock))
    : result (node_ids * DGLGraph * list DGLBlock) :=
  '(input_nodes, batch_graph, blocks) ← inner;
  let '(input_nodes, blocks) :=
    add_construct_feat (_construct_feat_sampler self) input_nodes blocks in
  mret (input_nodes, batch_graph, blocks).

End GSgnnEdgeDataLoader.

(** ** GSgnnLinkPredictionDataLoader and its subclasses *)

Module GSgnnLinkPredictionDataLoader.

(** The class and its subclasses.  The subclasses override
    [_prepare_negative_sampler], [_prepare_dataloader] or both, and
    inherit the rest. *)
Inductive cls : Type :=
| GSgnnLinkPredictionDataLoader
| GSgnnLPJointNegDataLoader
| GSgnnLPLocalUniformNegDataLoader
| GSgnnLPLocalJointNegDataLoader
| FastGSgnnLinkPredictionDataLoader
| FastGSgnnLPJointNegDataLoader
| FastGSgnnLPLocalUniformNegDataLoader
| FastGSgnnLPLocalJointNegDataLoader
| GSgnnAllEtypeLinkPredictionDataLoader
| GSgnnAllEtypeLPJointNegDataLoader.

(** The loader [_prepare_dataloader] builds: one of DGL, or the per-edge-type
    balanced loader with the sampler and the arguments it hands on to DGL's
    collator. *)
Inductive loader : Type :=
| DistEdge (l : DistEdgeDataLoader)
| AllEtype (args : DistEdgeDataLoader) (l : AllEtypeDistEdgeDataLoader.t).

Record t : Type := {
  class : cls;
  _dataset : GSgnnData;
  _target_idx : dict etype ids;
  _fanout : list layer_fanout;
  _device : string;
  _construct_feat_sampler : option _ReconstructedNeighborSampler.t;
  dataloader : loader;
}.

Definition _prepare_negative_sampler (c : cls) (num_negative_edges : Z)
    : negative_sampler :=
  match c with
  | GSgnnLinkPredictionDataLoader
  | FastGSgnnLinkPredictionDataLoader
  | GSgnnAllEtypeLinkPredictionDataLoader => Uniform num_negative_edges
  | GSgnnLPJointNegDataLoader
  | FastGSgnnLPJointNegDataLoader
  | GSgnnAllEtypeLPJointNegDataLoader => JointUniform num_negative_edges
  | GSgnnLPLocalUniformNegDataLoader
  | FastGSgnnLPLocalUniformNegDataLoader => LocalUniform num_negative_edges
  | GSgnnLPLocalJointNegDataLoader
  | FastGSgnnLPLocalJointNegDataLoader => JointLocalUniform num_negative_edges
  end.

(** Which of the three definitions of [_prepare_dataloader] a class has. *)
Inductive prepare_kind : Type := Plain | Fast | Balanced.

Definition prepare_of (c : cls) : prepare_kind :=
  match c with
  | GSgnnLinkPredictionDataLoader
  | GSgnnLPJointNegDataLoader
  | GSgnnLPLocalUniformNegDataLoader
  | GSgnnLPLocalJointNegDataLoader => Plain
  | FastGSgnnLinkPredictionDataLoader
  | FastGSgnnLPJointNegDataLoader
  | FastGSgnnLPLocalUniformNegDataLoader
  | FastGSgnnLPLocalJointNegDataLoader => Fast
  | GSgnnAllEtypeLinkPredictionDataLoader
  | GSgnnAllEtypeLPJointNegDataLoader => Balanced
  end.

(** [_prepare_dataloader] gives the loader and the target dict as the
    call leaves it.  [num_workers] is the number of distributed workers
    the run has. *)
Definition _prepare_dataloader (num_workers : nat) (c : cls) (g : DistGraph)
    (target_idxs : dict etype ids) (fanout : list layer_fanout)
    (num_negative_edges batch_size : Z) (device : string) (train_task : bool)
    (exclude_training_targets : bool)
    (reverse_edge_types_map : option (gmap etype etype))
    (edge_mask_for_gnn_embeddings : option string)
    : result (loader * dict etype ids) :=
  let sampler :=
    match has_mask g edge_mask_for_gnn_embeddings, prepare_of c with
    | Some mask, Fast => FastMultiLayerNeighborSampler fanout (Some mask)
    | Some mask, _ => MultiLayerNeighborSampler fanout (Some mask)
    | None, _ => MultiLayerNeighborSampler fanout None
    end in
  let negative_sampler := _prepare_negative_sampler c num_negative_edges in
  target_idxs ←
    (if train_task then trim_all num_workers target_idxs else mret target_idxs);
  let exclude :=
    if exclude_training_targets then Some "reverse_types" else None in
  let reverse_etypes :=
    if exclude_training_targets then reverse_edge_types_map else None in
  let args :=
    {| de_g := g; de_eids := target_idxs; de_graph_sampler := sampler;
       de_batch_size := batch_size;
       de_negative_sampler := Some negative_sampler;
       de_shuffle := train_task; de_drop_last := false; de_num_workers := 0;
       de_exclude := exclude; de_reverse_etypes := reverse_etypes |} in
  match prepare_of c with
  | Plain | Fast => mret (DistEdge args, target_idxs)
  | Balanced =>
      l ← AllEtypeDistEdgeDataLoader.__init__
            target_idxs None batch_size train_task false;
      mret (AllEtype args l, target_idxs)
  end.

Definition __init__ (num_workers : nat) (c : cls) (dataset : GSgnnData)
    (target_idx : dict etype ids) (fanout : list layer_fanout)
    (batch_size num_negative_edges : Z) (device : string) (train_task : bool)
    (reverse_edge_types_map : option (gmap etype etype))
    (exclude_training_targets : bool)
    (edge_mask_for_gnn_embeddings : option string)
    (construct_feat_ntype : option (list ntype)) (construct_feat_fanout : Z)
    : result t :=
  check_etypes dataset target_idx;;
  sampler ← make_construct_feat_sampler
              dataset construct_feat_ntype construct_feat_fanout;
  '(dataloader, target_idx) ←
    _prepare_dataloader num_workers c (g dataset) target_idx fanout
      num_negative_edges batch_size device train_task
      exclude_training_targets reverse_edge_types_map
      edge_mask_for_gnn_embeddings;
  mret {| class := c; _dataset := dataset; _target_idx := target_idx;
          _fanout := fanout; _device := device;
          _construct_feat_sampler := sampler; dataloader := dataloader |}.

Definition __iter__ (self : t) : t := self.

Definition __next__ `{DGL} (self : t)
    (inner : result (node_ids * DGLGraph * DGLGraph * list DGLBlock))
    : result (node_ids * DGLGraph * DGLGraph * list DGLBlock) :=
  '(input_nodes, pos_graph, neg_graph, blocks) ← inner;
  let '(input_nodes, blocks) :=
    add_construct_feat (_construct_feat_sampler self) input_nodes blocks in
  mret (input_nodes, pos_graph, neg_graph, blocks).

End GSgnnLinkPredictionDataLoader.

(** ** GSgnnLinkPredictionTestDataLoader and its subclass *)

(** The two calls outside the repository that the test loader makes for
    every batch: [g.find_edges(eids, etype=etype)] of DGL, which gives the
    end points of the edges, and [gen_neg_pairs(g, pos_pairs)] of
    GraphStorm's negative samplers. *)
Class EdgePairs : Type := {
  PosNegTuple : Type;
  find_edges : DistGraph → ids → etype → ids * ids;
  gen_neg_pairs :
    negative_sampler → DistGraph → dict etype (ids * ids) → PosNegTuple;
}.

Module GSgnnLinkPredictionTestDataLoader.

Inductive cls : Type :=
| GSgnnLinkPredictionTestDataLoader
| GSgnnLinkPredictionJointTestDataLoader.

Record t : Type := {
  class : cls;
  _data : GSgnnData;
  _fanout : option (list layer_fanout);
  _batch_size : Z;
  _target_idx : dict etype ids;
  _neg_sample_type : string;
  _negative_sampler : negative_sampler;
  _current_pos : gmap etype Z;
  remaining_etypes : list etype;
}.

Definition _prepare_negative_sampler (c : cls) (num_negative_edges : Z)
    : string * negative_sampler :=
  match c with
  | GSgnnLinkPredictionTestDataLoader =>
      ("uniform"%string, GlobalUniform num_negative_edges)
  | GSgnnLinkPredictionJointTestDataLoader =>
      ("joint"%string, JointUniform num_negative_edges)
  end.

Definition _reinit_dataset (self : t) : t :=
  {| class := class self; _data := _data self; _fanout := _fanout self;
     _batch_size := _batch_size self; _target_idx := _target_idx self;
     _neg_sample_type := _neg_sample_type self;
     _negative_sampler := _negative_sampler self;
     _current_pos :=
       foldl (λ m '(etype, _), <[etype := 0]> m) ∅ (_target_idx self);
     remaining_etypes := dict_keys (_target_idx self) |}.

Definition __init__ (c : cls) (dataset : GSgnnData)
    (target_idx : dict etype ids) (batch_size num_negative_edges : Z)
    (fanout : option (list layer_fanout)) : result t :=
  check_etypes dataset target_idx;;
  let '(neg_sample_type, negative_sampler) :=
    _prepare_negative_sampler c num_negative_edges in
  mret (_reinit_dataset
          {| class := c; _data := dataset; _fanout := fanout;
             _batch_size := batch_size; _target_idx := target_idx;
             _neg_sample_type := neg_sample_type;
             _negative_sampler := negative_sampler;
             _current_pos := ∅; remaining_etypes := [] |}).

Definition __iter__ (self : t) : t := _reinit_dataset self.

Definition set_progress (self : t) (current_pos : gmap etype Z)
    (remaining : list etype) : t :=
  {| class := class self; _data := _data self; _fanout := _fanout self;
     _batch_size := _batch_size self; _target_idx := _target_idx self;
     _neg_sample_type := _neg_sample_type self;
     _negative_sampler := _negative_sampler self;
     _current_pos := current_pos; remaining_etypes := remaining |}.

Definition _next_data `{EdgePairs} (self : t) (etype : etype)
    : result (PosNegTuple * bool * t) :=
  let g := g (_data self) in
  current_pos ← gmap_get (_current_pos self) etype;
  target ← dict_get (_target_idx self) etype;
  let end_of_etype := len target <=? current_pos + _batch_size self in
  let pos_eids :=
    if end_of_etype then py_slice target current_pos (len target)
    else py_slice target current_pos (current_pos + _batch_size self) in
  let pos_pairs := find_edges g pos_eids etype in
  let pos_neg_tuple :=
    gen_neg_pairs (_negative_sampler self) g [(etype, pos_pairs)] in
  current_pos ← gmap_get (_current_pos self) etype;
  mret (pos_neg_tuple, end_of_etype,
        set_progress self
          (<[etype := current_pos + _batch_size self]> (_current_pos self))
          (remaining_etypes self)).

Definition __next__ `{EdgePairs} (self : t)
    : result (PosNegTuple * string * t) :=
  match remaining_etypes self with
  | [] => raise StopIteration
  | curr_etype :: _ =>
      '(cur_iter, end_of_etype, self) ← _next_data self curr_etype;
      let self :=
        if end_of_etype : bool
        then set_progress self (_current_pos self)
               (drop 1 (remaining_etypes self))
        else self in
      mret (cur_iter, _neg_sample_type self, self)
  end.

(** [for batch in loader: ...] after [__iter__]: [__next__] is called until
    it raises [StopIteration]; the batches are collected in order.  [fuel]
    bounds the number of calls; the result is [None] when it is used up. *)
Fixpoint batches_of `{EdgePairs} (fuel : nat) (self : t)
    : option (result (list (PosNegTuple * string))) :=
  match fuel with
  | O => None
  | S fuel =>
      match __next__ self with
      | inl StopIteration => Some (inr [])
      | inl e => Some (inl e)
      | inr (batch, neg_sample_type, self) =>
          fmap (M := result) ((batch, neg_sample_type) ::.) <$> batches_of fuel self
      end
  end.

End GSgnnLinkPredictionTestDataLoader.

(** ** GSgnnNodeDataLoader *)

Module GSgnnNodeDataLoader.

Record t : Type := {
  _data : GSgnnData;
  _target_idx : dict ntype ids;
  _fanout : list layer_fanout;
  _construct_feat_sampler : option _ReconstructedNeighborSampler.t;
  dataloader : DistNodeDataLoader;
}.

Definition _prepare_dataloader (num_workers : nat) (g : DistGraph)
    (target_idx : dict ntype ids) (fanout : list layer_fanout)
    (batch_size : Z) (train_task : bool) (device : string)
    : result (DistNodeDataLoader * dict ntype ids) :=
  target_idx ←
    (if train_task then trim_all num_workers target_idx else mret target_idx);
  let sampler := MultiLayerNeighborSampler fanout None in
  mret ({| dn_g := g; dn_nids := target_idx; dn_graph_sampler := sampler;
           dn_batch_size := batch_size; dn_shuffle := train_task;
           dn_num_workers := 0 |}, target_idx).

Definition __init__ (num_workers : nat) (dataset : GSgnnData)
    (target_idx : dict ntype ids) (fanout : list layer_fanout)
    (batch_size : Z) (device : string) (train_task : bool)
    (construct_feat_ntype : option (list ntype)) (construct_feat_fanout : Z)
    : result t :=
  sampler ← make_construct_feat_sampler
              dataset construct_feat_ntype construct_feat_fanout;
  for_each
    (λ ntype,
       assert (bool_decide (ntype ∈ ntypes (g dataset)))
         "node type {} does not exist in the graph")
    (dict_keys target_idx);;
  '(dataloader, target_idx) ←
    _prepare_dataloader num_workers (g dataset) target_idx fanout batch_size
      train_task device;
  mret {| _data := dataset; _target_idx := target_idx; _fanout := fanout;
          _construct_feat_sampler := sampler; dataloader := dataloader |}.

(** [self.dataloader = iter(self.dataloader)]: DGL's loader returns itself. *)
Definition __iter__ (self : t) : t := self.

Definition __next__ `{DGL} (self : t)
    (inner : result (node_ids * node_ids * list DGLBlock))
    : result (node_ids * node_ids * list DGLBlock) :=
  '(input_nodes, seeds, blocks) ← inner;
  let '(input_nodes, blocks) :=
    add_construct_feat (_construct_feat_sampler self) input_nodes blocks in
  mret (input_nodes, seeds, blocks).

End GSgnnNodeDataLoader.

(** ** GSgnnNodeSemiSupDataLoader *)

Module GSgnnNodeSemiSupDataLoader.

(** The node loader it extends, with the loader for the unlabeled nodes and
    the dict of unlabeled nodes as the construction leaves it. *)
Record t : Type := {
  base : GSgnnNodeDataLoader.t;
  unlabeled_dataloader : DistNodeDataLoader;
  unlabeled_idx : dict ntype ids;
}.

Definition __init__ (num_workers : nat) (dataset : GSgnnData)
    (target_idx unlabeled_idx : dict ntype ids) (fanout : list layer_fanout)
    (batch_size : Z) (device : string) (train_task : bool) : result t :=
  base ← GSgnnNodeDataLoader.__init__ num_workers dataset target_idx fanout
           (batch_size / 2) device train_task None 5;
  '(unlabeled_dataloader, unlabeled_idx) ←
    GSgnnNodeDataLoader._prepare_dataloader num_workers (g dataset)
      unlabeled_idx fanout (batch_size / 2) train_task device;
  mret {| base := base; unlabeled_dataloader := unlabeled_dataloader;
          unlabeled_idx := unlabeled_idx |}.

(** [inner] and [inner_unlabeled] are what the two loaders of DGL give. *)
Definition __next__ `{DGL} (self : t)
    (inner inner_unlabeled : result (node_ids * node_ids * list DGLBlock))
    : result ((node_ids * node_ids * list DGLBlock) *
              (node_ids * node_ids * list DGLBlock)) :=
  labeled ← inner;
  unlabeled ← inner_unlabeled;
  mret (labeled, unlabeled).

End GSgnnNodeSemiSupDataLoader.

(** ** GConstructConfigConverter *)

Module GConstructConfigConverter.

(** The input schema, as the spec and the tests give it.  [files] is one
    path or a list of paths; a feature may name a transform; a label
    carries the three percentages of its split. *)
Inductive files_decl : Type :=
| OneFile (path : string)
| FileList (paths : list string).

Record feature_decl : Type := {
  feature_col : list string;
  feature_name : string;
  transform : option string;
}.

Record label_decl : Type := {
  label_col : string;
  task_type : string;
  split_pct : Qc * Qc * Qc;
}.

Record node_decl : Type := {
  nd_node_type : string;
  nd_format_name : string;
  nd_format_separator : option string;
  nd_files : files_decl;
  nd_node_id_col : string;
  nd_features : option (list feature_decl);
  nd_labels : option (list label_decl);
}.

Record edge_decl : Type := {
  ed_relation : string * string * string;
  ed_format_name : string;
  ed_format_separator : option string;
  ed_files : files_decl;
  ed_source_id_col : string;
  ed_dest_id_col : string;
  ed_features : option (list feature_decl);
  ed_labels : option (list label_decl);
}.

(** The normalized records. *)
Record feature_config : Type := {
  fc_column : string;
  fc_transform : string;
  fc_name : string;
}.

Record label_config : Type := {
  lc_column : string;
  lc_type : string;
  lc_split_rate : Qc * Qc * Qc;
}.

Record NodeConfig : Type := {
  node_type : string;
  nc_file_format : string;
  nc_files : list string;
  nc_separator : option string;
  column : string;
  nc_features : option (list feature_config);
  nc_labels : option (list label_config);
}.

Record EdgeConfig : Type := {
  source_col : string;
  source_type : string;
  dest_col : string;
  dest_type : string;
  ec_file_format : string;
  ec_files : list string;
  ec_separator : option string;
  relation : string;
  ec_features : option (list feature_config);
  ec_labels : option (list label_config);
}.

Definition has_wildcard (path : string) : bool :=
  str_contains "*" path || str_contains "?" path.

(** Modelled from the spec: the converter class lives in
    [graphstorm_processing/config/config_conversion.py], which is not among
    the sources; only its tests are.  The spec says that a file path with a
    wildcard character is rejected with ValueError.  [files] becomes a
    list of paths. *)
Definition convert_files (files : files_decl) : result (list string) :=
  let paths := match files with OneFile p => [p] | FileList ps => ps end in
  for_each
    (λ path,
       if has_wildcard path
       then raise (ValueError "wildcards in file names are not supported")
       else mret tt)
    paths;;
  mret paths.

(** Modelled from the spec: see [convert_files].  The spec says that a
    feature transform other than the pass-through transform is rejected
    with ValueError; the tests name the pass-through transform [no-op] and
    show that a feature without a transform gets it.  The column of the
    normalized feature is the first entry of [feature_col]. *)
Definition convert_feature (feat : feature_decl) : result feature_config :=
  let config :=
    {| fc_column := hd ""%string (feature_col feat); fc_transform := "no-op";
       fc_name := feature_name feat |} in
  match transform feat with
  | None => mret config
  | Some name =>
      if String.eqb name "no-op" then mret config
      else raise (ValueError "unsupported feature transform")
  end.

Definition convert_features (feats : option (list feature_decl))
    : result (option (list feature_config)) :=
  match feats with
  | None => mret None
  | Some feats => Some <$> traverse convert_feature feats
  end.

(** Modelled from the spec: see [convert_files].  The split of a label
    is taken one-to-one from its three percentages. *)
Definition convert_label (label : label_decl) : label_config :=
  {| lc_column := label_col label; lc_type := task_type label;
     lc_split_rate := split_pct label |}.

(** Modelled from the spec: see [convert_files]. *)
Definition convert_node (n : node_decl) : result NodeConfig :=
  files ← convert_files (nd_files n);
  features ← convert_features (nd_features n);
  mret {| node_type := nd_node_type n; nc_file_format := nd_format_name n;
          nc_files := files; nc_separator := nd_format_separator n;
          column := nd_node_id_col n; nc_features := features;
          nc_labels := fmap (M := list) convert_label <$> nd_labels n |}.

(** Modelled from the spec: see [convert_files]. *)
Definition convert_nodes (nodes_entries : list node_decl)
    : result (list NodeConfig) :=
  traverse convert_node nodes_entries.

(** Modelled from the spec: see [convert_files]. *)
Definition convert_edge (e : edge_decl) : result EdgeConfig :=
  files ← convert_files (ed_files e);
  features ← convert_features (ed_features e);
  let '(src, rel, dst) := ed_relation e in
  mret {| source_col := ed_source_id_col e; source_type := src;
          dest_col := ed_dest_id_col e; dest_type := dst;
          ec_file_format := ed_format_name e; ec_files := files;
          ec_separator := ed_format_separator e; relation := rel;
          ec_features := features;
          ec_labels := fmap (M := list) convert_label <$> ed_labels e |}.

(** Modelled from the spec: see [convert_files]. *)
Definition convert_edges (edges_entries : list edge_decl)
    : result (list EdgeConfig) :=
  traverse convert_edge edges_entries.

End GConstructConfigConverter.

(** ** tests/end2end-tests/data_gen/remove_test_mask.py *)

Module RemoveTestMask.

(** A tensor bundle is a dict from feature names to tensors; the tensors
    are opaque here. *)
Definition remove_test_mask {T} (data : gmap string T) : gmap string T :=
  map_fold
    (λ name val new_data,
       if negb (str_contains "test_mask" name)
       then <[name := val]> new_data
       else new_data)
    ∅ data.

End RemoveTestMask.

(** ** Instances for the examples

    A deterministic generator and a DGL whose blocks record what was asked
    of them; the closed examples of Part II run on these. *)

Definition counter_random : TorchRandom nat :=
  {| th_randint high r := ((r `mod` high)%nat, S r);
     th_randperm n r := (rotate r (seq 0 n), S r) |}.

Definition recording_dgl : DGL :=
  {| DGLGraph := node_ids * gmap etype Z;
     DGLBlock := node_ids * gmap etype Z;
     sample_neighbors _ seeds fanout := (seeds, fanout);
     to_block subg _ := subg;
     srcnodes_NID block := block.1 |}.

(** A graph of users and items in which only users have stored features,
    and loaders over it. *)
Definition example_graph : DistGraph :=
  {| canonical_etypes := [("user", "buys", "item"); ("item", "bought-by", "user")];
     ntypes := ["user"; "item"];
     edges_data := λ _, ["train_mask"] |}%string.

Definition example_dataset : GSgnnData :=
  {| g := example_graph; has_node_feats nt := String.eqb nt "user" |}.

Definition example_sampler : _ReconstructedNeighborSampler.t :=
  {| _ReconstructedNeighborSampler._g := example_graph;
     _ReconstructedNeighborSampler._subg_etypes := [("user", "buys", "item")];
     _ReconstructedNeighborSampler._fanout :=
       {[ ("user", "buys", "item") := 5; ("item", "bought-by", "user") := 0 ]} |}%string.

Definition example_target_idx : dict etype ids :=
  [(("user", "buys", "item"), [0; 1; 2])]%string.

Definition example_edge_args : DistEdgeDataLoader :=
  {| de_g := example_graph; de_eids := example_target_idx;
     de_graph_sampler := MultiLayerNeighborSampler [FanoutInt 10] None;
     de_batch_size := 2; de_negative_sampler := None; de_shuffle := true;
     de_drop_last := false; de_num_workers := 0; de_exclude := None;
     de_reverse_etypes := None |}.

Definition example_edge_loader : GSgnnEdgeDataLoader.t :=
  {| GSgnnEdgeDataLoader._data := example_dataset;
     GSgnnEdgeDataLoader._target_eidx := example_target_idx;
     GSgnnEdgeDataLoader._fanout := [FanoutInt 10];
     GSgnnEdgeDataLoader._device := "cpu";
     GSgnnEdgeDataLoader._construct_feat_sampler := Some example_sampler;
     GSgnnEdgeDataLoader.dataloader := example_edge_args |}.

Definition example_lp_loader : GSgnnLinkPredictionDataLoader.t :=
  {| GSgnnLinkPredictionDataLoader.class :=
       GSgnnLinkPredictionDataLoader.GSgnnLinkPredictionDataLoader;
     GSgnnLinkPredictionDataLoader._dataset := example_dataset;
     GSgnnLinkPredictionDataLoader._target_idx := example_target_idx;
     GSgnnLinkPredictionDataLoader._fanout := [FanoutInt 10];
     GSgnnLinkPredictionDataLoader._device := "cpu";
     GSgnnLinkPredictionDataLoader._construct_feat_sampler := Some example_sampler;
     GSgnnLinkPredictionDataLoader.dataloader :=
       GSgnnLinkPredictionDataLoader.DistEdge example_edge_args |}.

Definition example_node_loader : GSgnnNodeDataLoader.t :=
  {| GSgnnNodeDataLoader._data := example_dataset;
     GSgnnNodeDataLoader._target_idx := [("item", [0; 1; 2])]%string;
     GSgnnNodeDataLoader._fanout := [FanoutInt 10];
     GSgnnNodeDataLoader._construct_feat_sampler := Some example_sampler;
     GSgnnNodeDataLoader.dataloader :=
       {| dn_g := example_graph; dn_nids := [("item", [0; 1; 2])]%string;
          dn_graph_sampler := MultiLayerNeighborSampler [FanoutInt 10] None;
          dn_batch_size := 2; dn_shuffle := true; dn_num_workers := 0 |} |}.


Definition chain_map : gmap etype etype :=
  {[ ("user", "buys", "item") := ("item", "bought-by", "user");
     ("item", "bought-by", "user") := ("user", "returns", "item") ]}%string.

(** The node declaration of the converter's tests, with the file path and
    the features as arguments. *)
Definition node_dict (files : string)
    (features : option (list GConstructConfigConverter.feature_decl))
    : GConstructConfigConverter.node_decl :=
  {| GConstructConfigConverter.nd_node_type := "author";
     GConstructConfigConverter.nd_format_name := "parquet";
     GConstructConfigConverter.nd_format_separator := Some ","%string;
     GConstructConfigConverter.nd_files := GConstructConfigConverter.OneFile files;
     GConstructConfigConverter.nd_node_id_col := "node_id";
     GConstructConfigConverter.nd_features := features;
     GConstructConfigConverter.nd_labels := None |}.

(** Two edge types with four and one target edges. *)
Definition example_eids : dict etype ids :=
  [(("user", "buys", "item"), [10; 11; 12; 13]);
   (("item", "bought-by", "user"), [20])]%string.

(** The loader over [example_eids] with batch size 2 as its constructor
    leaves it, and after its first and its second minibatch. *)
Definition buys : etype := ("user", "buys", "item")%string.
Definition bought_by : etype := ("item", "bought-by", "user")%string.

Definition run_start (drop : bool) : AllEtypeDistEdgeDataLoader.t :=
  {| AllEtypeDistEdgeDataLoader.dataset := example_eids;
     AllEtypeDistEdgeDataLoader.batch_size := 2;
     AllEtypeDistEdgeDataLoader.shuffle := false;
     AllEtypeDistEdgeDataLoader.drop_last := drop;
     AllEtypeDistEdgeDataLoader.device := "cpu";
     AllEtypeDistEdgeDataLoader.data_idx :=
       [(buys, [0; 1; 2; 3]%nat); (bought_by, [0%nat])];
     AllEtypeDistEdgeDataLoader.bs_per_type := {[ buys := 2; bought_by := 1 ]};
     AllEtypeDistEdgeDataLoader.expected_idxs := 2;
     AllEtypeDistEdgeDataLoader.current_pos := {[ buys := 0; bought_by := 0 ]};
     AllEtypeDistEdgeDataLoader.recv_idxs := 0;
     AllEtypeDistEdgeDataLoader.num_pending := 0 |}.

Definition run_first (drop : bool) : AllEtypeDistEdgeDataLoader.t :=
  AllEtypeDistEdgeDataLoader.set_current_pos (run_start drop)
    {[ buys := 2; bought_by := 1 ]}.

Definition run_second (drop : bool) : AllEtypeDistEdgeDataLoader.t :=
  AllEtypeDistEdgeDataLoader.set_current_pos (run_start drop)
    {[ buys := 4; bought_by := 1 ]}.

(** Edge pairs that record the edge IDs and the sampler they were made
    of, and the test loader over [example_eids] with a given batch size, as
    its constructor leaves it. *)
Definition recording_pairs : EdgePairs :=
  {| PosNegTuple := negative_sampler * dict etype (ids * ids);
     find_edges _ eids _ := (eids, eids);
     gen_neg_pairs sampler _ pos_pairs := (sampler, pos_pairs) |}.

Definition example_test_loader (batch_size : Z)
    : GSgnnLinkPredictionTestDataLoader.t :=
  {| GSgnnLinkPredictionTestDataLoader.class :=
       GSgnnLinkPredictionTestDataLoader.GSgnnLinkPredictionTestDataLoader;
     GSgnnLinkPredictionTestDataLoader._data := example_dataset;
     GSgnnLinkPredictionTestDataLoader._fanout := None;
     GSgnnLinkPredictionTestDataLoader._batch_size := batch_size;
     GSgnnLinkPredictionTestDataLoader._target_idx := example_eids;
     GSgnnLinkPredictionTestDataLoader._neg_sample_type := "uniform";
     GSgnnLinkPredictionTestDataLoader._negative_sampler := GlobalUniform 1;
     GSgnnLinkPredictionTestDataLoader._current_pos :=
       {[ buys := 0; bought_by := 0 ]};
     GSgnnLinkPredictionTestDataLoader.remaining_etypes := [buys; bought_by] |}.

(** A node loader without feature reconstruction, and a target in which
    one edge type has no target edge. *)
Definition plain_node_loader : GSgnnNodeDataLoader.t :=
  {| GSgnnNodeDataLoader._data := example_dataset;
     GSgnnNodeDataLoader._target_idx := [("item", [0; 1; 2])]%string;
     GSgnnNodeDataLoader._fanout := [FanoutInt 10];
     GSgnnNodeDataLoader._construct_feat_sampler := None;
     GSgnnNodeDataLoader.dataloader :=
       {| dn_g := example_graph; dn_nids := [("item", [0; 1; 2])]%string;
          dn_graph_sampler := MultiLayerNeighborSampler [FanoutInt 10] None;
          dn_batch_size := 2; dn_shuffle := false; dn_num_workers := 0 |} |}.

Definition sparse_eids : dict etype ids :=
  [(buys, [10; 11]); (bought_by, [])].

(** * Part II: properties *)

(** Reduces the binds, returns and assertions of the result monad. *)
(** Closes an equation between closed terms by evaluating its left side. *)
Ltac by_evaluation :=
  lazymatch goal with |- _ = ?r => vm_cast_no_check (@eq_refl _ r) end.

Tactic Notation "result_simpl" :=
  cbn [assert raise mbind mret fmap result_bind result_ret result_fmap].
Tactic Notation "result_simpl" "in" hyp(H) :=
  cbn [assert raise mbind mret fmap result_bind result_ret result_fmap] in H.
Tactic Notation "result_simpl" "in" "*" :=
  cbn [assert raise mbind mret fmap result_bind result_ret result_fmap] in *.

Lemma prefix_app (p s : string) :
  String.prefix p s = true ↔ ∃ post, s = (p +:+ post)%string.
Proof.
  revert s. induction p as [|a p IH]; intros s; simpl.
  - destruct s; simpl; split; eauto.
  - destruct s as [|b s]; simpl.
    + split; [done | intros [post Hp]; discriminate].
    + destruct (Ascii.ascii_dec a b) as [->|Hne].
      * rewrite IH. split.
        -- intros [post ->]. by exists post.
        -- intros [post Hp]. exists post. by injection Hp.
      * split; [done|]. intros [post Hp]. injection Hp as Hab _. done.
Qed.

Lemma str_contains_spec (needle s : string) :
  str_contains needle s = true ↔
  ∃ pre post, s = (pre +:+ needle +:+ post)%string.
Proof.
  induction s as [|c s IH]; cbn [str_contains].
  - rewrite orb_false_r, prefix_app. split.
    + intros [post ->]. by exists EmptyString, post.
    + intros (pre & post & Hs). destruct pre; [by exists post|discriminate].
  - rewrite orb_true_iff, prefix_app, IH. split.
    + intros [[post Hs]|(pre & post & ->)].
      * by exists EmptyString, post.
      * by exists (String c pre), post.
    + intros (pre & post & Hs). destruct pre as [|c' pre]; simpl in Hs.
      * left. by exists post.
      * right. injection Hs as -> ->. by exists pre, post.
Qed.

Section remove_test_mask.
Import RemoveTestMask.
Context {T : Type}.
Implicit Types (data : gmap string T) (name : string).

Lemma remove_test_mask_lookup data name :
  remove_test_mask data !! name =
  if str_contains "test_mask" name then None else data !! name.
Proof.
  unfold remove_test_mask.
  induction data as [|k v m Hk Hfold IH] using map_first_key_ind.
  - rewrite map_fold_empty, !lookup_empty. by destruct (str_contains _ _).
  - rewrite map_fold_insert_first_key by done.
    destruct (decide (k = name)) as [->|Hne].
    + destruct (str_contains "test_mask" name) eqn:Hc; simpl;
        [done | by rewrite !lookup_insert_eq].
    + rewrite (lookup_insert_ne m) by done.
      destruct (str_contains "test_mask" k); simpl;
        [|rewrite lookup_insert_ne by done]; apply IH.
Qed.

(** C10: [remove_test_mask] keeps exactly the entries whose name does not
    contain the text [test_mask] anywhere, each with its original value;
    the [train_mask] and [val_mask] entries are kept, and every name with
    [test_mask] somewhere inside it, not only at its end, is removed. *)
Theorem C10_remove_test_mask data :
  (∀ name,
     remove_test_mask data !! name =
     if str_contains "test_mask" name then None else data !! name) ∧
  (∀ name, str_contains "test_mask" name = true ↔
           ∃ pre post, name = (pre +:+ "test_mask" +:+ post)%string) ∧
  remove_test_mask data !! "train_mask" = data !! "train_mask" ∧
  remove_test_mask data !! "val_mask" = data !! "val_mask" ∧
  (∀ pre post,
     remove_test_mask data !! (pre +:+ "test_mask" +:+ post)%string = None).
Proof.
  split_and!.
  - apply remove_test_mask_lookup.
  - intros name. apply str_contains_spec.
  - by rewrite remove_test_mask_lookup.
  - by rewrite remove_test_mask_lookup.
  - intros pre post. rewrite remove_test_mask_lookup.
    destruct (str_contains _ _) eqn:Hc; [done|].
    assert (str_contains "test_mask" (pre +:+ "test_mask" +:+ post) = true)
      as Ht by (apply str_contains_spec; eauto).
    congruence.
Qed.
End remove_test_mask.

(** ** Construction fails on an edge type the graph does not have *)

Section check_etypes.
Context (dataset : GSgnnData) {V : Type}.
Implicit Types (target_idx : dict etype V).

Lemma check_etypes_ok target_idx :
  check_etypes dataset target_idx = inr tt ↔
  ∀ etype, etype ∈ dict_keys target_idx → etype ∈ canonical_etypes (g dataset).
Proof.
  unfold check_etypes.
  induction (dict_keys target_idx) as [|e keys IH]; simpl.
  - split; [intros _ ? []%elem_of_nil | done].
  - unfold assert at 1. case_bool_decide as He; simpl.
    + rewrite IH. split.
      * intros Hall e' [->|Hin]%elem_of_cons; auto.
      * intros Hall e' Hin. apply Hall. by right.
    + split; [done|]. intros Hall. destruct He. apply Hall. left.
Qed.

Lemma check_etypes_fail target_idx etype :
  etype ∈ dict_keys target_idx →
  etype ∉ canonical_etypes (g dataset) →
  check_etypes dataset target_idx =
    inl (AssertionError "edge type {} does not exist in the graph").
Proof.
  unfold check_etypes.
  induction (dict_keys target_idx) as [|e keys IH]; simpl.
  - by intros ?%elem_of_nil.
  - intros Hin Hnot. unfold assert at 1. case_bool_decide as He; simpl; [|done].
    apply IH; [|done]. apply elem_of_cons in Hin as [->|Hin]; done.
Qed.
End check_etypes.

(** C8: when the target index has an edge type that is not among the
    canonical edge types of the graph, the constructors of the edge loader,
    of every link-prediction loader and of the link-prediction test loaders
    fail, so that no loader exists to give a minibatch.  The failure is the
    failed assertion [edge type {} does not exist in the graph], the error
    the spec calls GraphTypeError; the edge loader asked to remove the target
    edge type without a reverse map fails on the assertion before it.  The
    check runs over every key: it passes only when every key is an edge
    type of the graph. *)
Theorem C8_absent_etype_fails_construction
    (dataset : GSgnnData) (target_idx : dict etype ids) (etype : etype) :
  etype ∈ dict_keys target_idx →
  etype ∉ canonical_etypes (g dataset) →
  let absent := AssertionError "edge type {} does not exist in the graph" in
  (∀ fanout batch_size device train_task reverse_map remove exclude cf_ntype cf_fanout,
     GSgnnEdgeDataLoader.__init__ dataset target_idx fanout batch_size device
       train_task reverse_map remove exclude cf_ntype cf_fanout =
     inl (if remove && bool_decide (reverse_map = None)
          then AssertionError
                 "To remove target etype, the reversed etype should be provided."
          else absent)) ∧
  (∀ num_workers c fanout batch_size k device train_task reverse_map exclude
     mask cf_ntype cf_fanout,
     GSgnnLinkPredictionDataLoader.__init__ num_workers c dataset target_idx
       fanout batch_size k device train_task reverse_map exclude mask
       cf_ntype cf_fanout = inl absent) ∧
  (∀ c batch_size k fanout,
     GSgnnLinkPredictionTestDataLoader.__init__ c dataset target_idx
       batch_size k fanout = inl absent) ∧
  (check_etypes dataset target_idx = inr tt ↔
   ∀ e, e ∈ dict_keys target_idx → e ∈ canonical_etypes (g dataset)).
Proof.
  intros Hin Hnot absent.
  pose proof (check_etypes_fail dataset target_idx etype Hin Hnot) as Hfail.
  split_and!.
  - intros. unfold GSgnnEdgeDataLoader.__init__.
    destruct remove, reverse_map as [rev|]; simpl; by rewrite ?Hfail.
  - intros. unfold GSgnnLinkPredictionDataLoader.__init__. by rewrite Hfail.
  - intros. unfold GSgnnLinkPredictionTestDataLoader.__init__. by rewrite Hfail.
  - apply check_etypes_ok.
Qed.

Lemma C8_witness :
  let dataset :=
    {| g := {| canonical_etypes := [("user", "buys", "item")];
               ntypes := ["user"; "item"]; edges_data := λ _, [] |};
       has_node_feats := λ _, true |} in
  let target_idx : dict etype ids := [(("user", "rates", "item"), [0; 1; 2])] in
  GSgnnLinkPredictionTestDataLoader.__init__
    GSgnnLinkPredictionTestDataLoader.GSgnnLinkPredictionTestDataLoader
    dataset target_idx 2 1 None =
  inl (AssertionError "edge type {} does not exist in the graph").
Proof.
  intros dataset target_idx.
  refine (proj1 (proj2 (proj2
    (C8_absent_etype_fails_construction dataset target_idx
       ("user", "rates", "item") _ _))) _ _ _ _).
  - apply (bool_decide_unpack _). by vm_compute.
  - apply (bool_decide_unpack _). by vm_compute.
Defined.

(** ** The feature-reconstruction hop of [__next__] *)

Section add_construct_feat.
Context `{DGL}.
Import _ReconstructedNeighborSampler.

Lemma add_construct_feat_cons sampler input_nodes block blocks :
  add_construct_feat (Some sampler) input_nodes (block :: blocks) =
  ((sample sampler input_nodes).2,
   (sample sampler input_nodes).1 :: block :: blocks).
Proof. done. Qed.

Lemma add_construct_feat_nil sampler input_nodes :
  add_construct_feat sampler input_nodes [] = (input_nodes, []).
Proof. by destruct sampler. Qed.

(** C6: in the edge, link-prediction and node loaders with a
    feature-reconstruction sampler, a batch of [__next__] that has at least
    one block comes back with the reconstruction block at position 0,
    the original blocks after it, and the input nodes of the reconstruction
    sample in place of its own; a batch without blocks comes back as it
    is. *)
Theorem C6_next_prepends_reconstruction_block
    (sampler : _ReconstructedNeighborSampler.t)
    (edge : GSgnnEdgeDataLoader.t) (lp : GSgnnLinkPredictionDataLoader.t)
    (node : GSgnnNodeDataLoader.t) :
  GSgnnEdgeDataLoader._construct_feat_sampler edge = Some sampler →
  GSgnnLinkPredictionDataLoader._construct_feat_sampler lp = Some sampler →
  GSgnnNodeDataLoader._construct_feat_sampler node = Some sampler →
  ∀ (input_nodes seeds : node_ids) (graph neg_graph : DGLGraph)
    (block : DGLBlock) (blocks : list DGLBlock),
    let new_block := (sample sampler input_nodes).1 in
    let new_input_nodes := (sample sampler input_nodes).2 in
    GSgnnEdgeDataLoader.__next__ edge
      (inr (input_nodes, graph, block :: blocks)) =
      inr (new_input_nodes, graph, new_block :: block :: blocks) ∧
    GSgnnEdgeDataLoader.__next__ edge (inr (input_nodes, graph, [])) =
      inr (input_nodes, graph, []) ∧
    GSgnnLinkPredictionDataLoader.__next__ lp
      (inr (input_nodes, graph, neg_graph, block :: blocks)) =
      inr (new_input_nodes, graph, neg_graph, new_block :: block :: blocks) ∧
    GSgnnLinkPredictionDataLoader.__next__ lp
      (inr (input_nodes, graph, neg_graph, [])) =
      inr (input_nodes, graph, neg_graph, []) ∧
    GSgnnNodeDataLoader.__next__ node
      (inr (input_nodes, seeds, block :: blocks)) =
      inr (new_input_nodes, seeds, new_block :: block :: blocks) ∧
    GSgnnNodeDataLoader.__next__ node (inr (input_nodes, seeds, [])) =
      inr (input_nodes, seeds, []).
Proof.
  intros Hedge Hlp Hnode input_nodes seeds graph neg_graph block blocks.
  unfold GSgnnEdgeDataLoader.__next__, GSgnnLinkPredictionDataLoader.__next__,
    GSgnnNodeDataLoader.__next__.
  rewrite Hedge, Hlp, Hnode. cbn [mbind result_bind].
  rewrite !add_construct_feat_cons, !add_construct_feat_nil. done.
Qed.
End add_construct_feat.

Lemma C6_witness :
  let input_nodes : node_ids := {[ "item"%string := [7; 8] ]} in
  let block : DGLBlock (DGL := recording_dgl) := (input_nodes, ∅) in
  GSgnnEdgeDataLoader.__next__ (H := recording_dgl) example_edge_loader
    (inr (input_nodes, (input_nodes, ∅), [block])) =
  inr (input_nodes, (input_nodes, ∅),
       [(input_nodes, _ReconstructedNeighborSampler._fanout example_sampler); block]).
Proof.
  intros input_nodes block.
  exact (proj1 (C6_next_prepends_reconstruction_block (H := recording_dgl)
    example_sampler example_edge_loader example_lp_loader example_node_loader
    eq_refl eq_refl eq_refl input_nodes input_nodes (input_nodes, ∅)
    (input_nodes, ∅) block [])).
Defined.

(** ** The feature-reconstruction sampler *)

(** A node type can be reconstructed when some edge type of the graph ends
    in it and starts at a node type with stored features. *)
Definition reconstructible (dataset : GSgnnData) (nt : ntype) : Prop :=
  ∃ et : etype, et ∈ canonical_etypes (g dataset) ∧ et.2 = nt ∧
                has_node_feats dataset et.1.1 = true.

(** The feature-bearing incoming edge types of the requested node types. *)
Definition feature_bearing (dataset : GSgnnData) (requested : list ntype)
    (et : etype) : Prop :=
  et ∈ canonical_etypes (g dataset) ∧ et.2 ∈ requested ∧
  has_node_feats dataset et.1.1 = true.

Section reconstructed_neighbor_sampler.
Import _ReconstructedNeighborSampler.
Context (dataset : GSgnnData).
Implicit Types (et : etype) (nt dst : ntype) (etypes : list etype).

Local Abbreviation inner dst :=
  (λ '(subg_etypes, target_ntypes) (etype : etype),
     if bool_decide (etype.2 = dst) && has_node_feats dataset etype.1.1
     then (subg_etypes ++ [etype], {[dst]} ∪ target_ntypes)
     else (subg_etypes, target_ntypes)).

Lemma collect_inner_spec dst etypes (subg : list etype) (tn : gset ntype) :
  let r := foldl (inner dst) (subg, tn) etypes in
  (∀ et, et ∈ r.1 ↔
     et ∈ subg ∨ (et ∈ etypes ∧ et.2 = dst ∧ has_node_feats dataset et.1.1 = true)) ∧
  (∀ nt, nt ∈ r.2 ↔
     nt ∈ tn ∨ (nt = dst ∧ ∃ et, et ∈ etypes ∧ et.2 = dst ∧
                                 has_node_feats dataset et.1.1 = true)).
Proof.
  revert subg tn. induction etypes as [|e etypes IH]; intros subg tn; simpl.
  - split; intros x; [|]; split; try tauto.
    + intros [?|[[]%elem_of_nil _]]; done.
    + intros [?|[_ (? & []%elem_of_nil & _)]]; done.
  - destruct (bool_decide (e.2 = dst) && has_node_feats dataset e.1.1) eqn:Hc.
    + apply andb_true_iff in Hc as [Hd%bool_decide_eq_true Hf].
      destruct (IH (subg ++ [e]) ({[dst]} ∪ tn)) as [IH1 IH2]. split.
      * intros et. rewrite IH1, elem_of_app, list_elem_of_singleton, elem_of_cons.
        naive_solver.
      * intros nt. rewrite IH2, elem_of_union, elem_of_singleton.
        setoid_rewrite elem_of_cons. naive_solver.
    + apply andb_false_iff in Hc.
      destruct (IH subg tn) as [IH1 IH2]. split.
      * intros et. rewrite IH1, elem_of_cons. split; [naive_solver|].
        intros [?|[[->|?] [Hd Hf]]]; [tauto| |tauto].
        destruct Hc as [Hc%bool_decide_eq_false|Hc]; [done|congruence].
      * intros nt. rewrite IH2. setoid_rewrite elem_of_cons.
        split; [naive_solver|].
        intros [?|[-> (et & [->|?] & Hd & Hf)]]; [tauto| |naive_solver].
        destruct Hc as [Hc%bool_decide_eq_false|Hc]; [done|congruence].
Qed.

Lemma collect_outer_spec etypes (requested : list ntype)
    (subg : list etype) (tn : gset ntype) :
  let r := foldl (λ acc dst, foldl (inner dst) acc etypes) (subg, tn) requested in
  (∀ et, et ∈ r.1 ↔
     et ∈ subg ∨ (et ∈ etypes ∧ et.2 ∈ requested ∧
                  has_node_feats dataset et.1.1 = true)) ∧
  (∀ nt, nt ∈ r.2 ↔
     nt ∈ tn ∨ (nt ∈ requested ∧ ∃ et, et ∈ etypes ∧ et.2 = nt ∧
                                       has_node_feats dataset et.1.1 = true)).
Proof.
  revert subg tn. induction requested as [|d requested IH]; intros subg tn; simpl.
  - split; intros x; split; try tauto.
    + intros [?|(_ & []%elem_of_nil & _)]; done.
    + intros [?|[[]%elem_of_nil _]]; done.
  - pose proof (collect_inner_spec d etypes subg tn) as [I1 I2].
    destruct (foldl (inner d) (subg, tn) etypes) as [subg' tn'] eqn:Hin.
    simpl in I1, I2.
    destruct (IH subg' tn') as [IH1 IH2]. split.
    + intros et. rewrite IH1, I1, elem_of_cons. naive_solver.
    + intros nt. rewrite IH2, I2, elem_of_cons. naive_solver.
Qed.

Lemma collect_etypes_spec (requested : list ntype) :
  let r := collect_etypes dataset (canonical_etypes (g dataset)) requested in
  (∀ et, et ∈ r.1 ↔ feature_bearing dataset requested et) ∧
  (∀ nt, nt ∈ r.2 ↔ nt ∈ requested ∧ reconstructible dataset nt).
Proof.
  pose proof (collect_outer_spec (canonical_etypes (g dataset)) requested [] ∅)
    as [H1 H2].
  split.
  - intros et. unfold collect_etypes. rewrite H1. unfold feature_bearing.
    split; [intros [[]%elem_of_nil|?]; done | by right].
  - intros nt. unfold collect_etypes. rewrite H2. unfold reconstructible.
    split; [intros [[]%elem_of_empty|?]; done | by right].
Qed.

Lemma fanout_dict_lookup (f : etype → Z) etypes (d : gmap etype Z) et :
  foldl (λ (d : gmap etype Z) etype, <[etype := f etype]> d) d etypes !! et =
  if decide (et ∈ etypes) then Some (f et) else d !! et.
Proof.
  revert d. induction etypes as [|e etypes IH]; intros d; simpl.
  - done.
  - rewrite IH. destruct (decide (et ∈ etypes)) as [Hin|Hnin].
    + rewrite decide_True; [done | by right].
    + destruct (decide (e = et)) as [->|Hne].
      * rewrite decide_True by left. by rewrite lookup_insert_eq.
      * rewrite decide_False; [by rewrite lookup_insert_ne|].
        intros [->|?]%elem_of_cons; done.
Qed.
End reconstructed_neighbor_sampler.

#[local] Instance feature_bearing_dec dataset requested et :
  Decision (feature_bearing dataset requested et).
Proof. unfold feature_bearing. apply _. Defined.

Section reconstructed_neighbor_sampler_init.
Import _ReconstructedNeighborSampler.
Context (dataset : GSgnnData).

Lemma remain_ntypes_empty (requested : list ntype) (target_ntypes : gset ntype) :
  (∀ nt, nt ∈ target_ntypes ↔ nt ∈ requested ∧ reconstructible dataset nt) →
  size (list_to_set requested ∖ target_ntypes : gset ntype) = 0%nat ↔
  ∀ nt, nt ∈ requested → reconstructible dataset nt.
Proof.
  intros Htn. rewrite size_empty_iff. split.
  - intros Hempty nt Hin.
    destruct (decide (nt ∈ target_ntypes)) as [Ht|Ht]; [by apply Htn in Ht as [_ ?]|].
    exfalso. apply (not_elem_of_empty (C := gset ntype) nt). rewrite <- Hempty.
    apply elem_of_difference. split; [by apply elem_of_list_to_set | done].
  - intros Hall nt. split; [|by intros ?%elem_of_empty].
    intros [Hin%elem_of_list_to_set Hnot]%elem_of_difference.
    destruct Hnot. apply Htn. auto.
Qed.

(** C5, as the code has it: with a fanout that is positive or -1,
    construction fails on the assertion that the features of some node types
    cannot be constructed (the spec's ConfigurationError) when a requested
    node type has no incoming edge type whose source node type has stored
    features; it fails on the assertion that the sampled edge types are empty
    when no node type is requested; and when at least one node type is
    requested and every requested type has such an edge type, it succeeds
    with a fanout dict over the edge types of the graph that gives the
    configured fanout to exactly the feature-bearing incoming edge types of
    the requested node types and 0 to every other edge type. *)
Theorem C5_reconstruct_sampler_init (requested : list ntype) (fanout : Z) :
  0 < fanout ∨ fanout = -1 →
  ((∃ nt, nt ∈ requested ∧ ¬ reconstructible dataset nt) →
   __init__ dataset requested fanout =
   inl (AssertionError
     "The features of some node types cannot be constructed: {remain_ntypes}")) ∧
  (requested = [] →
   __init__ dataset requested fanout =
   inl (AssertionError "The sampled edge types is empty.")) ∧
  (requested ≠ [] →
   (∀ nt, nt ∈ requested → reconstructible dataset nt) →
   ∃ sampler,
     __init__ dataset requested fanout = inr sampler ∧
     _g sampler = g dataset ∧
     (∀ et, et ∈ _subg_etypes sampler ↔ feature_bearing dataset requested et) ∧
     ∀ et, _fanout sampler !! et =
           if decide (et ∈ canonical_etypes (g dataset))
           then Some (if decide (feature_bearing dataset requested et)
                      then fanout else 0)
           else None).
Proof.
  intros Hfan.
  assert ((0 <? fanout) || (fanout =? -1) = true) as Hfanb.
  { apply orb_true_iff. destruct Hfan; [left|right]; lia. }
  unfold __init__. rewrite Hfanb. result_simpl.
  pose proof (collect_etypes_spec dataset requested) as [Hsubg Htn].
  destruct (collect_etypes dataset (canonical_etypes (g dataset)) requested)
    as [subg tn] eqn:Hcollect.
  cbn [fst snd] in Hsubg, Htn.
  pose proof (remain_ntypes_empty requested tn Htn) as Hremain.
  split_and!.
  - intros (nt & Hin & Hnot).
    rewrite (bool_decide_eq_false_2 (size _ = 0%nat)); [by result_simpl|].
    rewrite Hremain. intros Hall. apply Hnot, Hall, Hin.
  - intros ->. rewrite (bool_decide_eq_true_2 (size _ = 0%nat)).
    2:{ apply Hremain. by intros ? ?%elem_of_nil. }
    result_simpl.
    rewrite bool_decide_eq_false_2; [by result_simpl|].
    destruct subg as [|et ?]; [simpl; lia|].
    assert (feature_bearing dataset [] et) as (_ & []%elem_of_nil & _).
    apply Hsubg. left.
  - intros Hne Hall.
    rewrite (bool_decide_eq_true_2 (size _ = 0%nat)) by by apply Hremain.
    result_simpl.
    rewrite bool_decide_eq_true_2.
    2:{ destruct requested as [|nt rest]; [done|].
        destruct (Hall nt) as (et & Hin & Hdst & Hfeat); [left|].
        assert (et ∈ subg) as Hs.
        { apply Hsubg. split_and!; [done| |done]. rewrite Hdst. left. }
        destruct subg; [by apply elem_of_nil in Hs | simpl; lia]. }
    result_simpl. eexists. split_and!; [done..|].
    intros et. cbn [_fanout].
    rewrite (fanout_dict_lookup
               (λ etype, if bool_decide (etype ∈ subg) then fanout else 0)).
    rewrite lookup_empty.
    destruct (decide (et ∈ canonical_etypes (g dataset))); [|done].
    f_equal. case_bool_decide as Hs; rewrite Hsubg in Hs.
    + by rewrite decide_True.
    + by rewrite decide_False.
Qed.
End reconstructed_neighbor_sampler_init.

Lemma C5_witness :
  ∃ sampler,
    _ReconstructedNeighborSampler.__init__ example_dataset ["item"%string] 5 =
      inr sampler ∧
    _ReconstructedNeighborSampler._g sampler = g example_dataset ∧
    (∀ et, et ∈ _ReconstructedNeighborSampler._subg_etypes sampler ↔
           feature_bearing example_dataset ["item"%string] et) ∧
    ∀ et, _ReconstructedNeighborSampler._fanout sampler !! et =
          if decide (et ∈ canonical_etypes (g example_dataset))
          then Some (if decide (feature_bearing example_dataset ["item"%string] et)
                     then 5 else 0)
          else None.
Proof.
  refine (proj2 (proj2
    (C5_reconstruct_sampler_init example_dataset ["item"%string] 5 _)) _ _).
  - left. lia.
  - done.
  - intros nt ->%list_elem_of_singleton.
    exists ("user", "buys", "item")%string.
    split_and!; [apply (bool_decide_unpack _); by vm_compute | done..].
Defined.

(** C5 as the spec states it fails when no node type is requested: every
    requested type then has a feature-bearing incoming edge type, and the
    construction fails all the same. *)
Lemma C5_counterexample :
  (∀ nt, nt ∈ [] → reconstructible example_dataset nt) ∧
  _ReconstructedNeighborSampler.__init__ example_dataset [] 5 =
    inl (AssertionError "The sampled edge types is empty.").
Proof. split; [by intros ? ?%elem_of_nil | by vm_compute]. Qed.

Section reconstruct_sampler_built.
Import _ReconstructedNeighborSampler.
Context (dataset : GSgnnData).

End reconstruct_sampler_built.

(** ** Trimming the target index *)

Section dict.
Context `{EqDecision K} {V : Type}.
Implicit Types (d pre suf : dict K V) (k : K) (v : V).

Lemma dict_get_app_r pre d k :
  k ∉ dict_keys pre → dict_get (pre ++ d) k = dict_get d k.
Proof.
  unfold dict_keys. induction pre as [|[k' v'] pre IH]; simpl; [done|].
  intros [Hne Hnin]%not_elem_of_cons. rewrite decide_False by congruence. auto.
Qed.

Lemma dict_set_app_r pre d k v :
  k ∉ dict_keys pre → dict_set (pre ++ d) k v = pre ++ dict_set d k v.
Proof.
  unfold dict_keys. induction pre as [|[k' v'] pre IH]; simpl; [done|].
  intros [Hne Hnin]%not_elem_of_cons. rewrite decide_False by congruence.
  f_equal. auto.
Qed.

Lemma dict_get_Some d k v :
  dict_get d k = inr v → (k, v) ∈ d.
Proof.
  induction d as [|[k' v'] d IH]; simpl; [done|].
  case_decide as Hk.
  - intros [= ->]. subst. left.
  - intros. right. auto.
Qed.

Lemma dict_get_elem_of d k v :
  NoDup (dict_keys d) → (k, v) ∈ d → dict_get d k = inr v.
Proof.
  unfold dict_keys. induction d as [|[k' v'] d IH]; simpl.
  - by intros _ ?%elem_of_nil.
  - intros [Hnin Hnd]%NoDup_cons [[= -> ->]|Hin]%elem_of_cons.
    + by rewrite decide_True.
    + rewrite decide_False; [auto|].
      intros ->. apply Hnin. apply list_elem_of_fmap. by exists (k, v).
Qed.
End dict.

Section trim.
Context `{EqDecision K} (num_workers : nat).
Implicit Types (d pre suf : dict K ids).

(** The dict with every value trimmed. *)
Definition trimmed (d : dict K ids) : dict K ids :=
  prod_map id (utils.trim_data num_workers) <$> d.

Lemma trim_all_from pre suf :
  NoDup (dict_keys (pre ++ suf)) →
  foldlM
    (λ target_idxs key,
       nids ← dict_get target_idxs key;
       mret (dict_set target_idxs key (utils.trim_data num_workers nids)))
    (pre ++ suf) (dict_keys suf) = inr (pre ++ trimmed suf).
Proof.
  revert pre. induction suf as [|[k v] suf IH]; intros pre Hnd; simpl.
  - done.
  - assert (k ∉ dict_keys pre) as Hk.
    { unfold dict_keys in *. rewrite fmap_app in Hnd.
      apply NoDup_app in Hnd as (_ & Hdisj & _).
      intros Hin. apply (Hdisj k Hin). left. }
    rewrite dict_get_app_r by done. simpl. rewrite decide_True by done.
    result_simpl. rewrite dict_set_app_r by done. simpl.
    rewrite decide_True by done.
    rewrite (cons_middle (k, _) pre suf), (cons_middle (k, _) pre (trimmed suf)).
    rewrite !app_assoc. apply IH.
    unfold dict_keys in *. rewrite !fmap_app in *. simpl in *.
    by rewrite <- app_assoc.
Qed.

Lemma trim_all_spec d :
  NoDup (dict_keys d) → trim_all num_workers d = inr (trimmed d).
Proof. intros Hnd. apply (trim_all_from [] d Hnd). Qed.

Lemma trim_data_divide (nids : ids) :
  (num_workers | length (utils.trim_data num_workers nids))%nat.
Proof.
  unfold utils.trim_data. rewrite length_take.
  rewrite Nat.min_l by lia.
  destruct num_workers as [|n]; [simpl; rewrite Nat.sub_diag; apply Nat.divide_0_r|].
  exists (length nids / S n)%nat.
  pose proof (Nat.div_mod_eq (length nids) (S n)). lia.
Qed.

Lemma trimmed_divide d :
  Forall (λ kv, (num_workers | length kv.2)%nat) (trimmed d).
Proof.
  unfold trimmed. apply Forall_fmap, Forall_forall. intros [k v] _. simpl.
  apply trim_data_divide.
Qed.

Lemma trimmed_keys d : dict_keys (trimmed d) = dict_keys d.
Proof.
  unfold trimmed, dict_keys. rewrite <- list_fmap_compose.
  apply list_fmap_ext. by intros ? [].
Qed.
End trim.

Lemma bind_inr {A B} (m : result A) (f : A → result B) (y : B) :
  m ≫= f = inr y → ∃ x, m = inr x ∧ f x = inr y.
Proof. destruct m as [e|x]; [done | by exists x]. Qed.

(** The target edge IDs a link-prediction loader hands to the loader it
    builds. *)
Definition loader_eids (l : GSgnnLinkPredictionDataLoader.loader) : dict etype ids :=
  match l with
  | GSgnnLinkPredictionDataLoader.DistEdge args => de_eids args
  | GSgnnLinkPredictionDataLoader.AllEtype args _ => de_eids args
  end.

Lemma lp_prepare_dataloader_target num_workers c g target_idxs fanout k
    batch_size device train_task exclude reverse_map mask l target_idxs' :
  NoDup (dict_keys target_idxs) →
  GSgnnLinkPredictionDataLoader._prepare_dataloader num_workers c g target_idxs
    fanout k batch_size device train_task exclude reverse_map mask =
    inr (l, target_idxs') →
  target_idxs' = (if train_task then trimmed num_workers target_idxs
                  else target_idxs) ∧
  loader_eids l = target_idxs'.
Proof.
  intros Hnd. unfold GSgnnLinkPredictionDataLoader._prepare_dataloader.
  intros (t & Ht & Hrest)%bind_inr.
  assert (t = if train_task then trimmed num_workers target_idxs else target_idxs)
    as ->.
  { destruct train_task; [rewrite trim_all_spec in Ht by done|];
      by injection Ht. }
  destruct (GSgnnLinkPredictionDataLoader.prepare_of c).
  - by injection Hrest as <- <-.
  - by injection Hrest as <- <-.
  - apply bind_inr in Hrest as (al & _ & Hrest). by injection Hrest as <- <-.
Qed.

(** C7, as the code has it.  The loader and its caller share the target
    dict.  A link-prediction loader of any class and a node loader built with
    [train_task=True] replace every ID tensor of the dict by what [trim_data]
    gives for it, before the loader of DGL is built, so that its length is
    divisible by the number of workers; built with [train_task=False] they
    leave the dict as it is.  The edge loader leaves the dict as it is for
    either value of [train_task], and so do the link-prediction test loaders,
    which have no such argument.  [__iter__] changes the dict of no loader. *)
Theorem C7_trim_on_construction (num_workers : nat) (dataset : GSgnnData)
    (target_idx : dict etype ids) (target_nidx : dict ntype ids) :
  NoDup (dict_keys target_idx) →
  NoDup (dict_keys target_nidx) →
  (∀ c fanout batch_size k device train_task reverse_map exclude mask
     cf_ntype cf_fanout self,
     GSgnnLinkPredictionDataLoader.__init__ num_workers c dataset target_idx
       fanout batch_size k device train_task reverse_map exclude mask
       cf_ntype cf_fanout = inr self →
     GSgnnLinkPredictionDataLoader._target_idx self =
       (if train_task then trimmed num_workers target_idx else target_idx) ∧
     loader_eids (GSgnnLinkPredictionDataLoader.dataloader self) =
       GSgnnLinkPredictionDataLoader._target_idx self ∧
     GSgnnLinkPredictionDataLoader._target_idx
       (GSgnnLinkPredictionDataLoader.__iter__ self) =
       GSgnnLinkPredictionDataLoader._target_idx self) ∧
  (∀ fanout batch_size device train_task cf_ntype cf_fanout self,
     GSgnnNodeDataLoader.__init__ num_workers dataset target_nidx fanout
       batch_size device train_task cf_ntype cf_fanout = inr self →
     GSgnnNodeDataLoader._target_idx self =
       (if train_task then trimmed num_workers target_nidx else target_nidx) ∧
     dn_nids (GSgnnNodeDataLoader.dataloader self) =
       GSgnnNodeDataLoader._target_idx self ∧
     GSgnnNodeDataLoader._target_idx (GSgnnNodeDataLoader.__iter__ self) =
       GSgnnNodeDataLoader._target_idx self) ∧
  (∀ fanout batch_size device train_task reverse_map remove exclude
     cf_ntype cf_fanout self,
     GSgnnEdgeDataLoader.__init__ dataset target_idx fanout batch_size device
       train_task reverse_map remove exclude cf_ntype cf_fanout = inr self →
     GSgnnEdgeDataLoader._target_eidx self = target_idx ∧
     de_eids (GSgnnEdgeDataLoader.dataloader self) = target_idx ∧
     GSgnnEdgeDataLoader._target_eidx (GSgnnEdgeDataLoader.__iter__ self) =
       target_idx) ∧
  (∀ c batch_size k fanout self,
     GSgnnLinkPredictionTestDataLoader.__init__ c dataset target_idx
       batch_size k fanout = inr self →
     GSgnnLinkPredictionTestDataLoader._target_idx self = target_idx ∧
     GSgnnLinkPredictionTestDataLoader._target_idx
       (GSgnnLinkPredictionTestDataLoader.__iter__ self) = target_idx) ∧
  Forall (λ kv, (num_workers | length kv.2)%nat) (trimmed num_workers target_idx) ∧
  Forall (λ kv, (num_workers | length kv.2)%nat) (trimmed num_workers target_nidx) ∧
  dict_keys (trimmed num_workers target_idx) = dict_keys target_idx ∧
  dict_keys (trimmed num_workers target_nidx) = dict_keys target_nidx.
Proof.
  intros Hnd Hndn. split_and!.
  - intros * Hinit. unfold GSgnnLinkPredictionDataLoader.__init__ in Hinit.
    apply bind_inr in Hinit as (_ & _ & Hinit).
    apply bind_inr in Hinit as (sampler & _ & Hinit).
    apply bind_inr in Hinit as ([l t] & Hprep & Hinit).
    apply lp_prepare_dataloader_target in Hprep as [-> Hl]; [|done].
    by injection Hinit as <-.
  - intros * Hinit. unfold GSgnnNodeDataLoader.__init__ in Hinit.
    apply bind_inr in Hinit as (sampler & _ & Hinit).
    apply bind_inr in Hinit as (_ & _ & Hinit).
    apply bind_inr in Hinit as ([l t] & Hprep & Hinit).
    unfold GSgnnNodeDataLoader._prepare_dataloader in Hprep.
    apply bind_inr in Hprep as (t' & Ht & Hprep).
    assert (t' = if train_task then trimmed num_workers target_nidx else target_nidx)
      as ->.
    { destruct train_task; [rewrite trim_all_spec in Ht by done|];
        by injection Ht. }
    injection Hprep as <- <-. by injection Hinit as <-.
  - intros * Hinit. unfold GSgnnEdgeDataLoader.__init__ in Hinit.
    apply bind_inr in Hinit as (lis & _ & Hinit).
    apply bind_inr in Hinit as (_ & _ & Hinit).
    apply bind_inr in Hinit as (sampler & _ & Hinit).
    by injection Hinit as <-.
  - intros * Hinit. unfold GSgnnLinkPredictionTestDataLoader.__init__ in Hinit.
    apply bind_inr in Hinit as (_ & _ & Hinit).
    destruct (GSgnnLinkPredictionTestDataLoader._prepare_negative_sampler c k).
    by injection Hinit as <-.
  - apply trimmed_divide.
  - apply trimmed_divide.
  - apply trimmed_keys.
  - apply trimmed_keys.
Qed.

Lemma C7_witness :
  ∃ self,
    GSgnnLinkPredictionDataLoader.__init__ 2
      GSgnnLinkPredictionDataLoader.GSgnnLPJointNegDataLoader
      example_dataset example_target_idx [FanoutInt 10] 2 1 "cpu" true None
      false (Some "train_mask"%string) None 5 = inr self ∧
    GSgnnLinkPredictionDataLoader._target_idx self =
      [(("user", "buys", "item")%string, [0; 1])].
Proof.
  destruct (GSgnnLinkPredictionDataLoader.__init__ 2
      GSgnnLinkPredictionDataLoader.GSgnnLPJointNegDataLoader
      example_dataset example_target_idx [FanoutInt 10] 2 1 "cpu" true None
      false (Some "train_mask"%string) None 5) as [e|self] eqn:Hinit;
    [by vm_compute in Hinit|].
  exists self. split; [done|].
  assert (NoDup (dict_keys example_target_idx)) as Hnd
    by (apply (bool_decide_unpack _); by vm_compute).
  assert (NoDup (dict_keys (V := ids) [("item"%string, [0; 1; 2])])) as Hndn
    by (apply (bool_decide_unpack _); by vm_compute).
  destruct (C7_trim_on_construction 2 example_dataset example_target_idx
              [("item"%string, [0; 1; 2])] Hnd Hndn) as [Hlp _].
  destruct (Hlp _ _ _ _ _ _ _ _ _ _ _ _ Hinit) as [-> _].
  reflexivity.
Defined.

(** C7 as the spec states it fails for the edge loader: built for training
    in a run of two workers over three target edges, it hands all three to
    the loader of DGL. *)
Lemma C7_counterexample :
  ∃ self,
    GSgnnEdgeDataLoader.__init__ example_dataset example_target_idx
      [FanoutInt 10] 2 "cpu" true (Some ∅) true false None 5 = inr self ∧
    GSgnnEdgeDataLoader._target_eidx self =
      [(("user", "buys", "item")%string, [0; 1; 2])] ∧
    de_eids (GSgnnEdgeDataLoader.dataloader self) =
      [(("user", "buys", "item")%string, [0; 1; 2])] ∧
    ¬ (2 | length [0; 1; 2])%nat.
Proof.
  eexists. split_and!; [by vm_compute..|].
  intros [k Hk]. simpl in Hk. lia.
Qed.

(** ** The edge types the edge loader masks *)

(** One step along the reverse map, and the edge types that can be reached
    from the keys by such steps. *)
Definition reverse_step (reverse_map : gmap etype etype) (a b : etype) : Prop :=
  reverse_map !! a = Some b.

Definition reverse_closure (reverse_map : gmap etype etype) (keys : list etype)
    (e : etype) : Prop :=
  ∃ k, k ∈ keys ∧ rtc (reverse_step reverse_map) k e.

(** The entries of the reverse map whose value is not yet in the list: the
    loop can append at most that many edge types. *)
Definition missing (reverse_map : gmap etype etype) (l : list etype) : nat :=
  size (filter (λ kv, kv.2 ∉ l) reverse_map).

Section target_etypes_loop.
Import GSgnnEdgeDataLoader.
Context (reverse_map : gmap etype etype).
Implicit Types (l keys : list etype) (e r : etype) (i j fuel : nat).

Lemma missing_snoc_lt l e r :
  reverse_map !! e = Some r → r ∉ l →
  (missing reverse_map (l ++ [r]) < missing reverse_map l)%nat.
Proof.
  intros He Hr. unfold missing. apply map_subset_size, map_subset_alt. split.
  - apply map_filter_subseteq_ext. intros k x _ Hx. simpl in *.
    intros Hin. apply Hx, elem_of_app. by left.
  - exists e. split.
    + apply eq_None_not_Some. intros [x [Hx Hnin]%map_lookup_filter_Some].
      simpl in Hnin. rewrite He in Hx. injection Hx as <-.
      apply Hnin, elem_of_app. right. left.
    + exists r. by apply map_lookup_filter_Some.
Qed.

Lemma target_etypes_loop_fuel fuel i l :
  (i ≤ length l)%nat →
  (length l - i + missing reverse_map l < fuel)%nat →
  is_Some (target_etypes_loop fuel reverse_map i l).
Proof.
  revert i l. induction fuel as [|fuel IH]; intros i l Hi Hfuel; [lia|].
  simpl. destruct (l !! i) as [e|] eqn:Hl; [|by eexists].
  apply lookup_lt_Some in Hl.
  destruct (reverse_map !! e) as [r|] eqn:He.
  - case_bool_decide as Hr.
    + apply IH.
      * rewrite length_app. simpl. lia.
      * pose proof (missing_snoc_lt l e r He Hr). rewrite length_app. simpl. lia.
    + apply IH; lia.
  - apply IH; lia.
Qed.

Lemma target_etypes_loop_spec keys fuel i l l' :
  target_etypes_loop fuel reverse_map i l = Some l' →
  (∀ e, e ∈ l → reverse_closure reverse_map keys e) →
  (∀ j e r, (j < i)%nat → l !! j = Some e → reverse_map !! e = Some r → r ∈ l) →
  l `prefix_of` l' ∧
  (∀ e, e ∈ l' → reverse_closure reverse_map keys e) ∧
  (∀ e r, e ∈ l' → reverse_map !! e = Some r → r ∈ l').
Proof.
  revert i l. induction fuel as [|fuel IH]; intros i l Hloop Hreach Hclosed;
    [done|].
  simpl in Hloop. destruct (l !! i) as [e|] eqn:Hl.
  - assert (Hstay : ∀ j e' r', (j < S i)%nat → l !! j = Some e' →
              reverse_map !! e' = Some r' → r' ∈ l ∨ (j = i ∧ e' = e)).
    { intros j e' r' Hj Hj' Hr'. destruct (decide (j = i)) as [->|Hne].
      - right. split; [done|]. congruence.
      - left. apply (Hclosed j e' r'); [lia|done..]. }
    pose proof (lookup_lt_Some _ _ _ Hl) as Hlt.
    destruct (reverse_map !! e) as [r|] eqn:He.
    + case_bool_decide as Hr.
      * apply IH in Hloop as (Hpre & Hreach' & Hclosed').
        -- split_and!; [|done..]. etrans; [|exact Hpre]. by apply prefix_app_r.
        -- intros e' [Hin| ->%list_elem_of_singleton]%elem_of_app; [auto|].
           destruct (Hreach e) as (k & Hk & Hke).
           { by apply list_elem_of_lookup_2 in Hl. }
           exists k. split; [done|]. eapply rtc_r; [exact Hke | exact He].
        -- intros j e' r' Hj Hj' Hr'.
           rewrite lookup_app_l in Hj' by lia.
           apply elem_of_app.
           destruct (Hstay j e' r' Hj Hj' Hr') as [?|[-> ->]]; [by left|].
           right. rewrite He in Hr'. injection Hr' as <-. left.
      * apply IH in Hloop; [done..|].
        intros j e' r' Hj Hj' Hr'.
        destruct (Hstay j e' r' Hj Hj' Hr') as [?|[-> ->]]; [done|].
        rewrite He in Hr'. injection Hr' as <-.
        by destruct (decide (r ∈ l)).
    + apply IH in Hloop; [done..|].
      intros j e' r' Hj Hj' Hr'.
      destruct (Hstay j e' r' Hj Hj' Hr') as [?|[-> ->]]; [done|]. congruence.
  - injection Hloop as <-. split_and!; [done..|].
    intros e r [j Hj]%list_elem_of_lookup Hr.
    apply (Hclosed j e r); [|done..].
    apply lookup_lt_Some in Hj. apply lookup_ge_None in Hl. lia.
Qed.

(** The loop ends within the fuel [extend_target_etypes] gives it. *)
Lemma target_etypes_loop_terminates keys :
  is_Some
    (target_etypes_loop (length keys + size reverse_map + 1) reverse_map 0 keys).
Proof.
  apply target_etypes_loop_fuel; [lia|].
  pose proof (map_size_filter (λ kv : etype * etype, kv.2 ∉ keys) reverse_map).
  unfold missing. lia.
Qed.

Lemma extend_target_etypes_spec keys :
  keys `prefix_of` extend_target_etypes reverse_map keys ∧
  ∀ e, e ∈ extend_target_etypes reverse_map keys ↔
       reverse_closure reverse_map keys e.
Proof.
  unfold extend_target_etypes.
  destruct (target_etypes_loop_terminates keys) as [l' Hl']. rewrite Hl'. simpl.
  apply (target_etypes_loop_spec keys) in Hl' as (Hpre & Hreach & Hclosed).
  - split; [done|]. intros e. split; [auto|].
    intros (k & Hk & Hke).
    assert (k ∈ l') as Hkl.
    { destruct Hpre as [suf ->]. apply elem_of_app. by left. }
    clear Hk. induction Hke as [|a b c Hab _ IH]; [done|].
    apply IH. by apply (Hclosed a b).
  - intros e He. exists e. split; [done|]. constructor.
  - intros j e r Hj. lia.
Qed.
End target_etypes_loop.








(** ** The configuration converter *)

Lemma traverse_inr {A B} (f : A → result B) (l : list A) (ys : list B) :
  traverse f l = inr ys → Forall2 (λ x y, f x = inr y) l ys.
Proof.
  revert ys. induction l as [|x l IH]; intros ys; simpl.
  - by intros [= <-].
  - intros (y & Hy & (ys' & Hys & [= <-])%bind_inr)%bind_inr.
    constructor; auto.
Qed.

Lemma traverse_inl {A B} (f : A → result B) (l : list A) (e : exn) :
  traverse f l = inl e → ∃ x, x ∈ l ∧ f x = inl e.
Proof.
  induction l as [|x l IH]; simpl; [done|].
  destruct (f x) as [e'|y] eqn:Hx; result_simpl.
  - intros [= ->]. exists x. split; [left | done].
  - destruct (traverse f l) as [e'|ys]; result_simpl; [|done].
    intros [= ->]. destruct IH as (x' & ? & ?); [done|].
    exists x'. split; [by right | done].
Qed.

(** The paths of a [files] entry. *)
Definition paths_of (files : GConstructConfigConverter.files_decl) : list string :=
  match files with
  | GConstructConfigConverter.OneFile p => [p]
  | GConstructConfigConverter.FileList ps => ps
  end.

(** A feature the converter does not take: one with a transform that is not
    the pass-through transform. *)
Definition unsupported (feat : GConstructConfigConverter.feature_decl) : Prop :=
  ∃ name, GConstructConfigConverter.transform feat = Some name ∧
          name ≠ "no-op"%string.

Section converter.
Import GConstructConfigConverter.

Lemma check_paths_spec (paths out : list string) :
  for_each
    (λ path,
       if has_wildcard path
       then raise (ValueError "wildcards in file names are not supported")
       else mret tt)
    paths ≫= (λ _, mret out) =
  if existsb has_wildcard paths
  then inl (ValueError "wildcards in file names are not supported")
  else inr out.
Proof.
  induction paths as [|p ps IH]; simpl; [done|].
  destruct (has_wildcard p); simpl; [done|]. apply IH.
Qed.

Lemma convert_files_spec files :
  convert_files files =
  if existsb has_wildcard (paths_of files)
  then inl (ValueError "wildcards in file names are not supported")
  else inr (paths_of files).
Proof. apply check_paths_spec. Qed.

Lemma convert_feature_spec feat :
  (unsupported feat →
   convert_feature feat = inl (ValueError "unsupported feature transform")) ∧
  (¬ unsupported feat → ∃ config, convert_feature feat = inr config).
Proof.
  unfold convert_feature, unsupported.
  destruct (transform feat) as [name|]; simpl.
  - destruct (String.eqb_spec name "no-op") as [->|Hne]; split.
    + by intros (? & [= <-] & ?).
    + eauto.
    + done.
    + intros []. eauto.
  - split; [by intros (? & ? & ?) | eauto].
Qed.

Lemma convert_features_error feats feat l :
  feats = Some l → feat ∈ l → unsupported feat →
  convert_features feats = inl (ValueError "unsupported feature transform").
Proof.
  intros -> Hin Hun. simpl.
  destruct (traverse convert_feature l) as [e|ys] eqn:Ht; result_simpl.
  - apply traverse_inl in Ht as (x & _ & Hx).
    unfold convert_feature in Hx.
    destruct (transform x) as [name|]; [|done].
    destruct (String.eqb name "no-op"); [done | by injection Hx as <-].
  - apply traverse_inr in Ht.
    apply list_elem_of_lookup in Hin as [i Hi].
    destruct (Forall2_lookup_l _ _ _ _ _ Ht Hi) as (y & _ & Hy).
    apply convert_feature_spec in Hun. congruence.
Qed.
End converter.

Lemma traverse_fail {A B} (f : A → result B) (l : list A) (x : A) (e : exn) :
  x ∈ l → f x = inl e → ∃ e', traverse f l = inl e'.
Proof.
  induction l as [|y l IH]; simpl; [by intros ?%elem_of_nil|].
  intros [->|Hin]%elem_of_cons Hx.
  - rewrite Hx. by eexists.
  - destruct (f y); [by eexists|]. result_simpl.
    destruct (IH Hin Hx) as [e' ->]. by eexists.
Qed.

(** What makes the converter reject a declaration: a path with [*] or [?],
    or an unsupported feature. *)
Definition rejected (files : GConstructConfigConverter.files_decl)
    (features : option (list GConstructConfigConverter.feature_decl)) : Prop :=
  (∃ path, path ∈ paths_of files ∧
           (str_contains "*" path = true ∨ str_contains "?" path = true)) ∨
  (∃ feats feat, features = Some feats ∧ feat ∈ feats ∧ unsupported feat).

Section convert.
Import GConstructConfigConverter.

Lemma convert_files_features_rejected files features :
  rejected files features →
  ∃ msg, (files ← convert_files files;
          features ← convert_features features;
          mret (files, features)) = inl (ValueError msg).
Proof.
  intros Hrej. rewrite convert_files_spec.
  destruct (existsb has_wildcard (paths_of files)) eqn:Hw; [by eexists|].
  result_simpl. destruct Hrej as [(path & Hin & Hpath)|(feats & feat & Hf & Hin & Hun)].
  - exfalso. apply not_true_iff_false in Hw. apply Hw.
    apply existsb_exists. exists path. split; [by apply list_elem_of_In|].
    unfold has_wildcard. apply orb_true_iff. done.
  - rewrite (convert_features_error features feat feats) by done. by eexists.
Qed.

Lemma convert_node_error n e :
  convert_node n = inl e → ∃ msg, e = ValueError msg.
Proof.
  unfold convert_node. rewrite convert_files_spec.
  destruct (existsb _ _); result_simpl; [intros [= <-]; by eexists|].
  destruct (nd_features n) as [feats|]; simpl; [|done].
  destruct (traverse convert_feature feats) as [e'|ys] eqn:Ht; result_simpl; [|done].
  intros [= <-]. apply traverse_inl in Ht as (x & _ & Hx).
  unfold convert_feature in Hx. destruct (transform x); [|done].
  destruct (String.eqb _ _); [done|]. injection Hx as <-. by eexists.
Qed.

Lemma convert_edge_error ed e :
  convert_edge ed = inl e → ∃ msg, e = ValueError msg.
Proof.
  unfold convert_edge. rewrite convert_files_spec.
  destruct (existsb _ _); result_simpl; [intros [= <-]; by eexists|].
  destruct (ed_features ed) as [feats|]; simpl.
  - destruct (traverse convert_feature feats) as [e'|ys] eqn:Ht; result_simpl.
    + intros [= <-]. apply traverse_inl in Ht as (x & _ & Hx).
      unfold convert_feature in Hx. destruct (transform x); [|done].
      destruct (String.eqb _ _); [done|]. injection Hx as <-. by eexists.
    + by destruct (ed_relation ed) as [[??]?].
  - by destruct (ed_relation ed) as [[??]?].
Qed.

Lemma convert_node_rejected n :
  rejected (nd_files n) (nd_features n) → ∃ msg, convert_node n = inl (ValueError msg).
Proof.
  intros [msg Hmsg]%convert_files_features_rejected. exists msg.
  unfold convert_node.
  destruct (convert_files (nd_files n)) as [e|fs]; result_simpl in *;
    [by injection Hmsg as ->|].
  destruct (convert_features (nd_features n)) as [e|fts]; result_simpl in *;
    [by injection Hmsg as -> | discriminate].
Qed.

Lemma convert_edge_rejected ed :
  rejected (ed_files ed) (ed_features ed) →
  ∃ msg, convert_edge ed = inl (ValueError msg).
Proof.
  intros [msg Hmsg]%convert_files_features_rejected. exists msg.
  unfold convert_edge.
  destruct (convert_files (ed_files ed)) as [e|fs]; result_simpl in *;
    [by injection Hmsg as ->|].
  destruct (convert_features (ed_features ed)) as [e|fts]; result_simpl in *;
    [by injection Hmsg as -> | discriminate].
Qed.

(** C9: [convert_nodes] raises ValueError when one of the node declarations
    has a file path with the wildcard character [*] or [?], or a feature
    whose transform is not the pass-through transform [no-op]; and
    [convert_edges] does the same for the edge declarations. *)
Theorem C9_converter_rejects
    (nodes_entries : list node_decl) (edges_entries : list edge_decl) :
  (∀ n, n ∈ nodes_entries → rejected (nd_files n) (nd_features n) →
        ∃ msg, convert_nodes nodes_entries = inl (ValueError msg)) ∧
  (∀ e, e ∈ edges_entries → rejected (ed_files e) (ed_features e) →
        ∃ msg, convert_edges edges_entries = inl (ValueError msg)).
Proof.
  split.
  - intros n Hin [msg Hmsg]%convert_node_rejected.
    destruct (traverse_fail convert_node nodes_entries n _ Hin Hmsg) as [e He].
    unfold convert_nodes. rewrite He.
    apply traverse_inl in He as (x & _ & [msg' ->]%convert_node_error).
    by eexists.
  - intros ed Hin [msg Hmsg]%convert_edge_rejected.
    destruct (traverse_fail convert_edge edges_entries ed _ Hin Hmsg) as [e He].
    unfold convert_edges. rewrite He.
    apply traverse_inl in He as (x & _ & [msg' ->]%convert_edge_error).
    by eexists.
Qed.
End convert.

(** The three tests of test_converter.py on node declarations. *)
Example test_read_node_gconstruct :
  GConstructConfigConverter.convert_nodes
    [node_dict "/tmp/acm_raw/nodes/author.parquet" None] =
  inr [ {| GConstructConfigConverter.node_type := "author";
           GConstructConfigConverter.nc_file_format := "parquet";
           GConstructConfigConverter.nc_files := ["/tmp/acm_raw/nodes/author.parquet"%string];
           GConstructConfigConverter.nc_separator := Some ","%string;
           GConstructConfigConverter.column := "node_id";
           GConstructConfigConverter.nc_features := None;
           GConstructConfigConverter.nc_labels := None |} ].
Proof. reflexivity. Qed.

Lemma C9_witness :
  (∃ msg, GConstructConfigConverter.convert_nodes
            [node_dict "/tmp/acm_raw/nodes/author*.parquet" None] =
          inl (ValueError msg)) ∧
  (∃ msg, GConstructConfigConverter.convert_nodes
            [node_dict "/tmp/acm_raw/nodes/author?.parquet" None] =
          inl (ValueError msg)) ∧
  (∃ msg, GConstructConfigConverter.convert_nodes
            [node_dict "/tmp/acm_raw/nodes/author.parquet"
               (Some [ {| GConstructConfigConverter.feature_col := ["citation_time"%string];
                          GConstructConfigConverter.feature_name := "feat";
                          GConstructConfigConverter.transform :=
                            Some "max_min_norm"%string |} ])] =
          inl (ValueError msg)).
Proof.
  split_and!.
  - refine (proj1 (C9_converter_rejects _ []) _ _ _); [left|].
    left. eexists. split; [left|]. left. reflexivity.
  - refine (proj1 (C9_converter_rejects _ []) _ _ _); [left|].
    left. eexists. split; [left|]. right. reflexivity.
  - refine (proj1 (C9_converter_rejects _ []) _ _ _); [left|].
    right. eexists _, _. split_and!; [reflexivity | left |].
    eexists. split; [reflexivity | discriminate].
Defined.

(** ** The per-edge-type balanced loader: construction *)

(** [ceil_div] is the ceiling of the quotient, and the number of batches the
    code counts, [c // bs] plus one when [c % bs] is not zero, is that
    ceiling. *)
Lemma ceil_div_spec (a b q : Z) :
  0 < b → ceil_div a b = q ↔ (q - 1) * b < a ≤ q * b.
Proof.
  intros Hb. unfold ceil_div. split.
  - intros <-. pose proof (Z.div_mod (- a) b ltac:(lia)).
    pose proof (Z.mod_pos_bound (- a) b Hb). nia.
  - intros Hq. assert (- a / b = - q) as ->; [|lia].
    symmetry. apply (Z.div_unique_pos (- a) b (- q) (q * b - a)); nia.
Qed.

Lemma ceil_div_floor (c bs : Z) :
  bs ≠ 0 → ceil_div c bs = c / bs + (if c `mod` bs =? 0 then 0 else 1).
Proof.
  intros Hbs. unfold ceil_div. destruct (Z.eqb_spec (c `mod` bs) 0) as [Hz|Hnz].
  - rewrite Z.div_opp_l_z by done. lia.
  - rewrite Z.div_opp_l_nz by done. lia.
Qed.

Lemma ceil_div_pos (a b : Z) : 0 < a → 0 < b → 1 ≤ ceil_div a b.
Proof.
  intros Ha Hb. destruct (ceil_div_spec a b (ceil_div a b) Hb) as [H _].
  specialize (H eq_refl). nia.
Qed.

Lemma ceil_div_nonneg (a b : Z) : 0 ≤ a → 0 < b → 0 ≤ ceil_div a b.
Proof.
  intros Ha Hb. destruct (ceil_div_spec a b (ceil_div a b) Hb) as [H _].
  specialize (H eq_refl). nia.
Qed.

(** The vocabulary of the statements: the total number of target edges, the
    batch size of a type with [c] edges, the number of batches it fills, and
    the largest of a family of numbers and 0. *)
Definition total_edges (eids : dict etype ids) : Z :=
  foldr (λ kv acc, len kv.2 + acc) 0 eids.

Definition type_batch_size (B T c : Z) : Z := ceil_div (B * c) T.

Definition type_batches (drop_last : bool) (c bs : Z) : Z :=
  if drop_last then c / bs else ceil_div c bs.

(** Line 687 takes the ceiling of a quotient of two integers that Python
    first rounds to a double.  [ceil_div] is what that gives for a batch
    size that is not negative and numerators [batch_size * len(idxs)] below
    2^53: the numerator is then a double, a whole quotient is one too, and
    a quotient that is not whole is at least [1 / total_edges] above the
    integer below it, which is more than half the distance between the
    doubles there, so that it is not rounded down to that integer.  Beyond
    the bound the double can be an integer below the quotient.  The
    statements about the value of a batch size are made under the bound. *)
Definition float_exact (B : Z) (eids : dict etype ids) : Prop :=
  0 ≤ B ∧ Forall (λ kv, B * len kv.2 < 2 ^ 53) eids.

Definition max_over {A} (f : A → Z) (l : list A) : Z :=
  foldr (λ x acc, Z.max (f x) acc) 0 l.

(** [{key: th.arange(0, len(val)) for key, val in dataset.items()}] *)
Definition arange_all (eids : dict etype ids) : dict etype (list nat) :=
  prod_map id (λ val : ids, seq 0 (length val)) <$> eids.

Lemma max_over_spec {A} (f : A → Z) (l : list A) :
  0 ≤ max_over f l ∧
  (∀ x, x ∈ l → f x ≤ max_over f l) ∧
  (max_over f l = 0 ∨ ∃ x, x ∈ l ∧ max_over f l = f x).
Proof.
  induction l as [|y l (IH0 & IHle & IHex)]; simpl.
  - split_and!; [done | by intros ? ?%elem_of_nil | by left].
  - split_and!; [lia| |].
    + intros x [->|Hin]%elem_of_cons; [lia|]. specialize (IHle x Hin). lia.
    + destruct (Z.max_spec (f y) (max_over f l)) as [[_ ->]|[_ ->]].
      * destruct IHex as [?|(x & ? & ?)]; [by left|].
        right. exists x. split; [by right | done].
      * right. exists y. split; [left | done].
Qed.

Lemma foldl_max_over {A} (f : A → Z) (l : list A) (a : Z) :
  0 ≤ a → foldl (λ acc x, Z.max acc (f x)) a l = Z.max a (max_over f l).
Proof.
  revert a. induction l as [|y l IH]; intros a Ha; simpl; [lia|].
  rewrite IH by lia. lia.
Qed.

Lemma dict_set_fresh `{EqDecision K} {V} (d : dict K V) (k : K) (v : V) :
  k ∉ dict_keys d → dict_set d k v = d ++ [(k, v)].
Proof.
  unfold dict_keys. induction d as [|[k' v'] d IH]; simpl; [done|].
  intros [Hne Hnin]%not_elem_of_cons. rewrite decide_False by congruence.
  f_equal. auto.
Qed.

Lemma foldl_insert_lookup `{Countable K} {V W} (f : V → W)
    (items : dict K V) (m : gmap K W) (k : K) :
  NoDup (dict_keys items) →
  foldl (λ m '(k, v), <[k := f v]> m) m items !! k =
  match list_find (λ kv, kv.1 = k) items with
  | Some (_, (_, v)) => Some (f v)
  | None => m !! k
  end.
Proof.
  unfold dict_keys. revert m.
  induction items as [|[k' v'] items IH]; intros m; simpl; [done|].
  intros [Hnin Hnd]%NoDup_cons. rewrite IH by done.
  case_decide as Hk; simpl in Hk.
  - subst k'. destruct (list_find _ items) as [[i [k'' v'']]|] eqn:Hfind; simpl.
    + apply list_find_Some in Hfind as (Hi & Hk & _). simpl in Hk. subst k''.
      destruct Hnin. apply list_elem_of_fmap. exists (k, v'').
      split; [done|]. by apply list_elem_of_lookup_2 in Hi.
    + by rewrite lookup_insert_eq.
  - destruct (list_find _ items) as [[i [k'' v'']]|]; simpl; [done|].
    by rewrite lookup_insert_ne.
Qed.

Lemma list_find_key `{EqDecision K} {V} (items : dict K V) (k : K) (v : V) :
  NoDup (dict_keys items) → (k, v) ∈ items →
  ∃ i, list_find (λ kv, kv.1 = k) items = Some (i, (k, v)).
Proof.
  unfold dict_keys. induction items as [|[k' v'] items IH]; simpl.
  - by intros _ ?%elem_of_nil.
  - intros [Hnin Hnd]%NoDup_cons [[= -> ->]|Hin]%elem_of_cons.
    + rewrite decide_True by done. by eexists.
    + rewrite decide_False.
      * destruct (IH Hnd Hin) as [i ->]. by eexists.
      * simpl. intros ->. apply Hnin, list_elem_of_fmap. by exists (k, v).
Qed.

Section reinit_dataset.
Import AllEtypeDistEdgeDataLoader.
Implicit Types (eids : dict etype ids) (items : dict etype (list nat)).

Lemma arange_all_keys eids : dict_keys (arange_all eids) = dict_keys eids.
Proof.
  unfold arange_all, dict_keys. rewrite <- list_fmap_compose.
  apply list_fmap_ext. by intros ? [].
Qed.

Lemma arange_all_elem_of eids et idxs :
  (et, idxs) ∈ arange_all eids ↔
  ∃ val, (et, val) ∈ eids ∧ idxs = seq 0 (length val).
Proof.
  unfold arange_all. rewrite list_elem_of_fmap. split.
  - intros ([k v] & [= -> ->] & Hin). eauto.
  - intros (val & Hin & ->). by exists (et, val).
Qed.

Lemma reinit_first_loop (pre : dict etype (list nat)) (t : Z) eids :
  NoDup (dict_keys pre ++ dict_keys eids) →
  foldl
    (λ '(data_idx, total_edges) '(key, val),
       (dict_set data_idx key (seq 0 (length val)), total_edges + len val))
    (pre, t) eids = (pre ++ arange_all eids, t + total_edges eids).
Proof.
  revert pre t. induction eids as [|[k v] eids IH]; intros pre t Hnd; simpl.
  - by rewrite app_nil_r, Z.add_0_r.
  - assert (k ∉ dict_keys pre) as Hk.
    { apply NoDup_app in Hnd as (_ & Hdisj & _). intros Hin.
      apply (Hdisj k Hin). left. }
    rewrite dict_set_fresh by done. rewrite IH.
    + rewrite <- app_assoc. simpl. f_equal. lia.
    + unfold dict_keys in *. rewrite fmap_app, <- app_assoc. done.
Qed.

(** What the second loop of [_reinit_dataset] needs to get through: a
    nonzero total and a nonzero batch size for every type. *)
Definition divisible (B T : Z) (items : dict etype (list nat)) : Prop :=
  Forall (λ kv, T ≠ 0 ∧ type_batch_size B T (len kv.2) ≠ 0) items.

#[local] Instance divisible_dec B T items : Decision (divisible B T items).
Proof. unfold divisible. apply _. Defined.

Lemma reinit_second_loop (B T : Z) (drop : bool) items (mx : Z) (bsm : gmap etype Z) :
  foldlM
    (λ '(max_expected_idxs, bs_per_type) '(etype, idxs),
       bs ← ceil_truediv (B * len idxs) T;
       let bs_per_type := <[etype := bs]> bs_per_type in
       exp_idxs ← py_floordiv (len idxs) bs;
       r ← py_mod (len idxs) bs;
       let exp_idxs :=
         if negb drop && negb (r =? 0) then exp_idxs + 1 else exp_idxs in
       mret (Z.max max_expected_idxs exp_idxs, bs_per_type))
    (mx, bsm) items =
  if decide (divisible B T items)
  then inr (foldl (λ acc kv, Z.max acc
                     (type_batches drop (len kv.2)
                        (type_batch_size B T (len kv.2)))) mx items,
            foldl (λ m '(k, idxs), <[k := type_batch_size B T (len idxs)]> m)
              bsm items)
  else inl ZeroDivisionError.
Proof.
  match goal with |- foldlM ?f _ _ = _ => set (body := f) end.
  assert (Hbody : ∀ mx bsm et idxs,
    body (mx, bsm) (et, idxs) =
    if decide (T ≠ 0 ∧ type_batch_size B T (len idxs) ≠ 0)
    then inr (Z.max mx (type_batches drop (len idxs)
                          (type_batch_size B T (len idxs))),
              <[et := type_batch_size B T (len idxs)]> bsm)
    else inl ZeroDivisionError).
  { intros mx' bsm' et idxs. unfold body, ceil_truediv, py_floordiv, py_mod.
    fold (type_batch_size B T (len idxs)).
    destruct (Z.eqb_spec T 0) as [HT|HT]; result_simpl.
    { rewrite decide_False; [done|]. by intros [? _]. }
    destruct (Z.eqb_spec (type_batch_size B T (len idxs)) 0) as [Hbs|Hbs];
      result_simpl.
    { rewrite decide_False; [done|]. by intros [_ ?]. }
    rewrite decide_True by done. do 3 f_equal.
    unfold type_batches. destruct drop; simpl; [done|].
    rewrite ceil_div_floor by done. destruct (_ =? 0); simpl; lia. }
  clearbody body. revert mx bsm.
  induction items as [|[et idxs] items IH]; intros mx bsm; [done|].
  cbn [foldlM foldl]. rewrite Hbody.
  destruct (decide (T ≠ 0 ∧ type_batch_size B T (len idxs) ≠ 0)) as [Hok|Hok];
    result_simpl.
  - rewrite IH. destruct (decide (divisible B T items)) as [Hd|Hd].
    + rewrite decide_True; [done|]. by constructor.
    + rewrite decide_False; [done|]. by intros [_ ?]%Forall_cons.
  - rewrite decide_False; [done|]. by intros [? _]%Forall_cons.
Qed.

Lemma init_spec eids device B shuf drop self :
  NoDup (dict_keys eids) →
  __init__ eids device B shuf drop = inr self →
  divisible B (total_edges eids) (arange_all eids) ∧
  self =
    {| dataset := eids; batch_size := B; shuffle := shuf; drop_last := drop;
       device := "cpu"; data_idx := arange_all eids;
       bs_per_type :=
         foldl (λ m '(k, idxs),
                  <[k := type_batch_size B (total_edges eids) (len idxs)]> m)
           ∅ (arange_all eids);
       expected_idxs :=
         max_over
           (λ kv, type_batches drop (len kv.2)
                    (type_batch_size B (total_edges eids) (len kv.2)))
           (arange_all eids);
       current_pos := zero_pos (arange_all eids);
       recv_idxs := 0; num_pending := 0 |}.
Proof.
  intros Hnd. unfold __init__.
  intros ([] & Hdev & (self' & Hre & [= <-])%bind_inr)%bind_inr.
  assert (default "cpu"%string device = "cpu"%string) as Hcpu.
  { unfold assert in Hdev. destruct (String.eqb_spec (default "cpu"%string device) "cpu");
      done. }
  rewrite Hcpu in Hre. clear Hdev Hcpu.
  unfold _reinit_dataset in Hre. cbn [dataset batch_size drop_last shuffle
    AllEtypeDistEdgeDataLoader.device recv_idxs num_pending] in Hre.
  rewrite (reinit_first_loop [] 0 eids) in Hre by done.
  rewrite app_nil_l, Z.add_0_l in Hre.
  rewrite reinit_second_loop in Hre.
  destruct (decide (divisible B (total_edges eids) (arange_all eids)));
    [|done].
  result_simpl in Hre. injection Hre as <-. split; [done|].
  f_equal. rewrite foldl_max_over by done.
  pose proof (max_over_spec
    (λ kv : etype * list nat, type_batches drop (len kv.2)
       (type_batch_size B (total_edges eids) (len kv.2))) (arange_all eids))
    as [? _].
  lia.
Qed.

End reinit_dataset.

Lemma total_edges_nonneg (eids : dict etype ids) : 0 ≤ total_edges eids.
Proof. induction eids as [|[k v] eids IH]; simpl; lia. Qed.

Lemma max_over_arange (f : Z → Z) (eids : dict etype ids) :
  max_over (λ kv : etype * list nat, f (len kv.2)) (arange_all eids) =
  max_over (λ kv : etype * ids, f (len kv.2)) eids.
Proof.
  induction eids as [|[k v] eids IH]; [done|].
  cbn [arange_all fmap list_fmap max_over foldr prod_map fst snd id] in *.
  rewrite length_seq. unfold arange_all, max_over in IH. by rewrite IH.
Qed.

(** C2, as the code has it: for a loader built with a batch size [B] that
    is not negative over [eids], with [T] the total number of target edges
    and every product [B * c] below 2^53, so that the double of line 687
    holds the quotient closely enough, the batch size of a type with [c]
    edges is the ceiling of [B * c / T], which is at least 1 for a positive
    [B]; and [expected_idxs] is the largest, over the types, of the ceiling
    of [c / bs] when [drop_last] is off and of the floor of [c / bs] when
    [drop_last] is on. *)
Theorem C2_batch_sizes (eids : dict etype ids) (device : option string)
    (B : Z) (shuffle drop_last : bool) (self : AllEtypeDistEdgeDataLoader.t) :
  NoDup (dict_keys eids) →
  float_exact B eids →
  AllEtypeDistEdgeDataLoader.__init__ eids device B shuffle drop_last = inr self →
  let T := total_edges eids in
  (∀ et val, (et, val) ∈ eids →
     AllEtypeDistEdgeDataLoader.bs_per_type self !! et =
       Some (ceil_div (B * len val) T)) ∧
  (0 < B → ∀ et val, (et, val) ∈ eids → 1 ≤ ceil_div (B * len val) T) ∧
  AllEtypeDistEdgeDataLoader.expected_idxs self =
    max_over
      (λ kv, let c := len kv.2 in
             let bs := ceil_div (B * c) T in
             if drop_last then c / bs else ceil_div c bs)
      eids ∧
  (∀ a b q, 0 < b → ceil_div a b = q ↔ (q - 1) * b < a ≤ q * b).
Proof.
  intros Hnd _ Hinit T.
  apply init_spec in Hinit as [Hdiv ->]; [|done]. fold T in Hdiv |- *.
  cbn [AllEtypeDistEdgeDataLoader.bs_per_type
       AllEtypeDistEdgeDataLoader.expected_idxs].
  split_and!.
  - intros et val Hin.
    rewrite (foldl_insert_lookup (λ idxs : list nat, type_batch_size B T (len idxs)))
      by by rewrite arange_all_keys.
    destruct (list_find_key (arange_all eids) et (seq 0 (length val))) as [i ->].
    + by rewrite arange_all_keys.
    + apply arange_all_elem_of. eauto.
    + by rewrite length_seq.
  - intros HB et val Hin.
    assert ((et, seq 0 (length val)) ∈ arange_all eids) as Hin'
      by (apply arange_all_elem_of; eauto).
    unfold divisible in Hdiv. rewrite Forall_forall in Hdiv.
    destruct (Hdiv _ Hin') as [HT Hbs]. simpl in Hbs. rewrite length_seq in Hbs.
    pose proof (total_edges_nonneg eids). fold T in H.
    pose proof (ceil_div_nonneg (B * len val) T ltac:(lia) ltac:(lia)).
    unfold type_batch_size in Hbs. lia.
  - apply (max_over_arange
             (λ c, type_batches drop_last c (type_batch_size B T c))).
  - apply ceil_div_spec.
Qed.

Lemma C2_witness :
  ∃ self,
    AllEtypeDistEdgeDataLoader.__init__ example_eids None 2 false false =
      inr self ∧
    AllEtypeDistEdgeDataLoader.bs_per_type self !! ("user", "buys", "item")%string =
      Some 2 ∧
    AllEtypeDistEdgeDataLoader.bs_per_type self !! ("item", "bought-by", "user")%string =
      Some 1 ∧
    AllEtypeDistEdgeDataLoader.expected_idxs self = 2.
Proof.
  destruct (AllEtypeDistEdgeDataLoader.__init__ example_eids None 2 false false)
    as [e|self] eqn:Hinit; [by vm_compute in Hinit|].
  assert (NoDup (dict_keys example_eids)) as Hnd
    by (apply (bool_decide_unpack _); by vm_compute).
  assert (float_exact 2 example_eids) as Hfloat
    by (split; [lia | apply (bool_decide_unpack _); by vm_compute]).
  destruct (C2_batch_sizes _ _ _ _ _ _ Hnd Hfloat Hinit) as (Hbs & _ & Hexp & _).
  exists self. split_and!; [done| | |].
  - rewrite (Hbs _ [10; 11; 12; 13]) by left. reflexivity.
  - rewrite (Hbs _ [20]) by (right; left). reflexivity.
  - rewrite Hexp. reflexivity.
Defined.

(** C2 as the spec states it fails when [drop_last] is on: one type with
    three edges and batch size 2 gives one batch per epoch, and the ceiling
    of 3 / 2 is 2. *)
Lemma C2_counterexample :
  ∃ self,
    AllEtypeDistEdgeDataLoader.__init__
      [(("user", "buys", "item")%string, [10; 11; 12])] None 2 false true =
      inr self ∧
    AllEtypeDistEdgeDataLoader.bs_per_type self !! ("user", "buys", "item")%string =
      Some 2 ∧
    AllEtypeDistEdgeDataLoader.expected_idxs self = 1 ∧
    max_over (λ kv : etype * ids, ceil_div (len kv.2) 2)
      [(("user", "buys", "item")%string, [10; 11; 12])] = 2.
Proof. eexists. split_and!; by vm_compute. Qed.

(** ** The per-edge-type balanced loader: one iteration *)

(** The state of an edge type in a loader: its position, its batch size and
    its index list. *)
Definition pos_of (self : AllEtypeDistEdgeDataLoader.t) (et : etype) : Z :=
  default 0 (AllEtypeDistEdgeDataLoader.current_pos self !! et).

Definition bs_of (self : AllEtypeDistEdgeDataLoader.t) (et : etype) : Z :=
  default 0 (AllEtypeDistEdgeDataLoader.bs_per_type self !! et).

Definition idxs_of (self : AllEtypeDistEdgeDataLoader.t) (et : etype) : list nat :=
  match dict_get (AllEtypeDistEdgeDataLoader.data_idx self) et with
  | inr idxs => idxs
  | inl _ => []
  end.

(** The exhaustion condition of an edge type with target edges [val]: the
    two places where [_next_data_etype] returns [None]. *)
Definition exhausted (self : AllEtypeDistEdgeDataLoader.t) (et : etype)
    (val : ids) : bool :=
  (pos_of self et =? len val) ||
  ((len val <? pos_of self et + bs_of self et) &&
   AllEtypeDistEdgeDataLoader.drop_last self).

(** Where the position of an edge type stands after an iteration. *)
Definition next_pos (self : AllEtypeDistEdgeDataLoader.t) (et : etype)
    (val : ids) : Z :=
  if exhausted self et val then pos_of self et
  else Z.min (pos_of self et + bs_of self et) (len val).

(** The positive edges an edge type gives to the next minibatch from its own
    supply: the edges at the next positions of its index list. *)
Definition next_batch (self : AllEtypeDistEdgeDataLoader.t) (et : etype)
    (val : ids) : option ids :=
  if exhausted self et val then None
  else Some ((λ i, default 0 (val !! i)) <$>
             take (Z.to_nat (next_pos self et val - pos_of self et))
               (drop (Z.to_nat (pos_of self et)) (idxs_of self et))).

(** What holds of every edge type of a loader between two calls. *)
Record type_ok (self : AllEtypeDistEdgeDataLoader.t) (et : etype) (val : ids)
    : Prop := {
  ok_val : dict_get (AllEtypeDistEdgeDataLoader.dataset self) et = inr val;
  ok_pos : is_Some (AllEtypeDistEdgeDataLoader.current_pos self !! et);
  ok_bs : is_Some (AllEtypeDistEdgeDataLoader.bs_per_type self !! et);
  ok_idx : dict_get (AllEtypeDistEdgeDataLoader.data_idx self) et =
           inr (idxs_of self et);
  ok_bs_pos : 1 ≤ bs_of self et;
  ok_pos_range : 0 ≤ pos_of self et ≤ len val;
  ok_nonempty : 0 < len val;
  ok_perm : idxs_of self et ≡ₚ seq 0 (length val);
}.

Definition wf (self : AllEtypeDistEdgeDataLoader.t) : Prop :=
  NoDup (dict_keys (AllEtypeDistEdgeDataLoader.dataset self)) ∧
  ∀ et val, (et, val) ∈ AllEtypeDistEdgeDataLoader.dataset self →
            type_ok self et val.

(** Two loaders that differ in the positions only. *)
Definition same_but_pos (s s' : AllEtypeDistEdgeDataLoader.t) : Prop :=
  s' = AllEtypeDistEdgeDataLoader.set_current_pos s
         (AllEtypeDistEdgeDataLoader.current_pos s').

(** The laws of the random draws: an index below the bound, and a
    permutation. *)
Class TorchRandomLaws (R : Type) `{TorchRandom R} : Prop := {
  th_randint_lt : ∀ (n : nat) (rng : R), (0 < n)%nat → ((th_randint n rng).1 < n)%nat;
  th_randperm_perm : ∀ (n : nat) (rng : R), (th_randperm n rng).1 ≡ₚ seq 0 n;
}.

Lemma py_slice_in_range {A} (l : list A) (a b : Z) :
  0 ≤ a ≤ b → b ≤ len l →
  py_slice l a b = take (Z.to_nat (b - a)) (drop (Z.to_nat a) l).
Proof.
  intros Ha Hb. unfold py_slice.
  destruct (Z.ltb_spec b 0), (Z.ltb_spec a 0); try lia.
  by rewrite !Z.min_l by lia.
Qed.

Lemma tensor_index_in_range (val : ids) (idx : list nat) :
  Forall (λ i, (i < length val)%nat) idx →
  tensor_index val idx = inr ((λ i, default 0 (val !! i)) <$> idx).
Proof.
  induction 1 as [|i idx Hi _ IH]; simpl; [done|].
  destruct (lookup_lt_is_Some_2 val i Hi) as [x Hx]. rewrite Hx, IH. done.
Qed.

Section next_data_etype.
Import AllEtypeDistEdgeDataLoader.
Implicit Types (self s : t) (et : etype) (val : ids).

Lemma set_current_pos_id s : set_current_pos s (current_pos s) = s.
Proof. by destruct s. Qed.

Lemma idxs_in_range s et val :
  type_ok s et val → Forall (λ i, (i < length val)%nat) (idxs_of s et).
Proof.
  intros Hok. apply Forall_forall. intros i Hi.
  rewrite (ok_perm _ _ _ Hok) in Hi. apply elem_of_seq in Hi. lia.
Qed.

Lemma idxs_length s et val :
  type_ok s et val → length (idxs_of s et) = length val.
Proof. intros Hok. by rewrite (ok_perm _ _ _ Hok), length_seq. Qed.

Lemma next_pos_range s et val :
  type_ok s et val →
  pos_of s et ≤ next_pos s et val ≤ len val ∧
  (exhausted s et val = false → pos_of s et < next_pos s et val).
Proof.
  intros [_ _ _ _ Hbs Hpos _ _]. unfold next_pos, exhausted.
  destruct (Z.eqb_spec (pos_of s et) (len val)); simpl; [lia|].
  destruct (Z.ltb_spec (len val) (pos_of s et + bs_of s et)),
    (drop_last s); simpl; split; try lia; done.
Qed.

(** One call of [_next_data_etype] on an edge type of the dataset. *)
Lemma next_data_etype_spec s et val :
  type_ok s et val →
  _next_data_etype s et =
  inr (next_batch s et val,
       set_current_pos s (<[et := next_pos s et val]> (current_pos s))).
Proof.
  intros Hok. pose proof Hok as [Hval [pos Hpos] [bs Hbs] Hidx Hbs1 Hrange Hne Hperm].
  unfold _next_data_etype, gmap_get.
  rewrite Hpos, Hval, Hbs, Hidx. result_simpl.
  assert (pos_of s et = pos) as Hp by (unfold pos_of; by rewrite Hpos).
  assert (bs_of s et = bs) as Hb by (unfold bs_of; by rewrite Hbs).
  unfold next_batch, next_pos, exhausted. rewrite Hp, Hb in *.
  destruct (Z.eqb_spec pos (len val)) as [Heq|Hneq]; simpl.
  { by rewrite insert_id, set_current_pos_id. }
  destruct (Z.ltb_spec (len val) (pos + bs)) as [Hlt|Hge]; simpl.
  - destruct (drop_last s); result_simpl.
    + by rewrite insert_id, set_current_pos_id.
    + rewrite Z.min_r by lia.
      rewrite py_slice_in_range by (rewrite ?(idxs_length s et val Hok); lia).
      rewrite tensor_index_in_range; [done|].
      apply Forall_take, Forall_drop. by apply idxs_in_range.
  - result_simpl. rewrite Z.min_l by lia.
    rewrite py_slice_in_range by (rewrite ?(idxs_length s et val Hok); lia).
    rewrite tensor_index_in_range; [done|].
    apply Forall_take, Forall_drop. by apply idxs_in_range.
Qed.

(** What a type gives from its own supply is not empty, and is made of its
    own target edges. *)
Lemma next_batch_Some s et val batch :
  type_ok s et val → next_batch s et val = Some batch →
  exhausted s et val = false ∧
  len batch = next_pos s et val - pos_of s et ∧
  0 < len batch ∧
  Forall (λ eid, eid ∈ val) batch.
Proof.
  intros Hok. unfold next_batch.
  destruct (exhausted s et val) eqn:Hex; [done|]. intros [= <-].
  pose proof (next_pos_range s et val Hok) as [[Hle Hlen] Hlt].
  specialize (Hlt Hex).
  pose proof (idxs_length s et val Hok) as Hidx.
  pose proof (ok_pos_range _ _ _ Hok).
  assert (length ((λ i, default 0 (val !! i)) <$>
            take (Z.to_nat (next_pos s et val - pos_of s et))
              (drop (Z.to_nat (pos_of s et)) (idxs_of s et))) =
          Z.to_nat (next_pos s et val - pos_of s et)) as Hl.
  { rewrite length_fmap, length_take, length_drop. lia. }
  split_and!; [done|lia|lia|].
  apply Forall_fmap, Forall_take, Forall_drop.
  eapply Forall_impl; [by apply idxs_in_range|]. intros i Hi. simpl.
  destruct (lookup_lt_is_Some_2 val i Hi) as [x Hx]. rewrite Hx. simpl.
  by apply list_elem_of_lookup_2 in Hx.
Qed.
End next_data_etype.

(** What the first loop of [_next_data] collects: for every edge type of
    the dataset, in order, what it gives from its own supply. *)
Definition rets (s : AllEtypeDistEdgeDataLoader.t) (d : dict etype ids)
    : list (etype * option ids) :=
  (λ kv, (kv.1, next_batch s kv.1 kv.2)) <$> d.

Section collect_next.
Import AllEtypeDistEdgeDataLoader.
Implicit Types (self s : t) (et : etype) (val : ids) (d : dict etype ids).

Lemma same_but_pos_fields s s' :
  same_but_pos s s' →
  dataset s' = dataset s ∧ bs_per_type s' = bs_per_type s ∧
  data_idx s' = data_idx s ∧ drop_last s' = drop_last s ∧
  batch_size s' = batch_size s ∧ shuffle s' = shuffle s ∧
  expected_idxs s' = expected_idxs s.
Proof. unfold same_but_pos. by intros ->. Qed.

Lemma same_but_pos_refl s : same_but_pos s s.
Proof. unfold same_but_pos. by rewrite set_current_pos_id. Qed.

Lemma same_but_pos_set s m : same_but_pos s (set_current_pos s m).
Proof. done. Qed.

Lemma same_but_pos_trans s1 s2 s3 :
  same_but_pos s1 s2 → same_but_pos s2 s3 → same_but_pos s1 s3.
Proof. unfold same_but_pos. intros -> ->. done. Qed.

(** A type whose position has not moved is in the same state. *)
Lemma frame_next s s' et val :
  same_but_pos s s' → current_pos s' !! et = current_pos s !! et →
  exhausted s' et val = exhausted s et val ∧
  next_pos s' et val = next_pos s et val ∧
  next_batch s' et val = next_batch s et val.
Proof.
  intros (Hds & Hbs & Hidx & Hdrop & _)%same_but_pos_fields Hpos.
  assert (pos_of s' et = pos_of s et) as Hp by (unfold pos_of; by rewrite Hpos).
  assert (bs_of s' et = bs_of s et) as Hb by (unfold bs_of; by rewrite Hbs).
  assert (idxs_of s' et = idxs_of s et) as Hi by (unfold idxs_of; by rewrite Hidx).
  assert (exhausted s' et val = exhausted s et val) as He
    by (unfold exhausted; by rewrite Hp, Hb, Hdrop).
  assert (next_pos s' et val = next_pos s et val) as Hn
    by (unfold next_pos; by rewrite He, Hp, Hb).
  split_and!; [done..|]. unfold next_batch. by rewrite He, Hn, Hp, Hi.
Qed.

(** A type stays in order when its position moves forward within its
    edges. *)
Lemma type_ok_advance s s' et val p :
  type_ok s et val → same_but_pos s s' →
  current_pos s' !! et = Some p → 0 ≤ p ≤ len val →
  type_ok s' et val.
Proof.
  intros [Hval Hpos Hbs Hidx Hbs1 Hrange Hne Hperm]
    (Hds' & Hbs' & Hidx' & _)%same_but_pos_fields Hp Hpr.
  assert (idxs_of s' et = idxs_of s et) as Hi by (unfold idxs_of; by rewrite Hidx').
  assert (bs_of s' et = bs_of s et) as Hb by (unfold bs_of; by rewrite Hbs').
  assert (pos_of s' et = p) as Hpo by (unfold pos_of; by rewrite Hp).
  split; rewrite ?Hds', ?Hbs', ?Hidx', ?Hi, ?Hb, ?Hpo; done.
Qed.

Lemma collect_loop d : ∀ (e0 : bool) (r0 : list (etype * option ids)) s,
  NoDup (dict_keys d) →
  (∀ et val, (et, val) ∈ d → type_ok s et val) →
  ∃ s',
    foldlM
      (λ '(end_, ret, self) '(etype, _),
         '(next_data, self) ← _next_data_etype self etype;
         mret (bool_decide (next_data = None) && end_,
               ret ++ [(etype, next_data)], self))
      (e0, r0, s) d =
    inr (forallb (λ r, bool_decide (r.2 = None)) (rets s d) && e0,
         r0 ++ rets s d, s') ∧
    same_but_pos s s' ∧
    ∀ et, current_pos s' !! et =
          match list_find (λ kv, kv.1 = et) d with
          | Some (_, (_, val)) => Some (next_pos s et val)
          | None => current_pos s !! et
          end.
Proof.
  induction d as [|[et val] d IH]; intros e0 r0 s Hnd Hok.
  - exists s. simpl. rewrite app_nil_r. split_and!; [done| |done].
    apply same_but_pos_refl.
  - unfold dict_keys in Hnd. rewrite fmap_cons in Hnd.
    apply NoDup_cons in Hnd as [Hnin Hnd]. simpl in Hnin.
    cbn [foldlM]. rewrite (next_data_etype_spec s et val) by (apply Hok; left).
    result_simpl.
    set (s1 := set_current_pos s (<[et := next_pos s et val]> (current_pos s))).
    assert (Hframe : ∀ et' val', (et', val') ∈ d →
              same_but_pos s s1 ∧ current_pos s1 !! et' = current_pos s !! et').
    { intros et' val' Hin. split; [done|]. subst s1. simpl.
      apply lookup_insert_ne. intros ->. apply Hnin.
      apply list_elem_of_fmap. by exists (et', val'). }
    destruct (IH (bool_decide (next_batch s et val = None) && e0)
                (r0 ++ [(et, next_batch s et val)]) s1 Hnd)
      as (s' & Hloop & Hsame & Hpos).
    { intros et' val' Hin. destruct (Hframe et' val' Hin) as [Hs Hp].
      assert (type_ok s et' val') as Hok' by (apply Hok; by right).
      apply (type_ok_advance s s1 et' val' (pos_of s et')); [done..| |].
      - rewrite Hp. destruct (ok_pos s et' val' Hok') as [p Hp'].
        unfold pos_of. by rewrite Hp'.
      - apply (ok_pos_range s et' val' Hok'). }
    assert (rets s1 d = rets s d) as Hrets.
    { unfold rets. apply list_fmap_ext. intros i [et' val'] Hi. simpl.
      f_equal. apply list_elem_of_lookup_2 in Hi.
      destruct (Hframe et' val' Hi) as [Hs Hp].
      by apply (frame_next s s1 et' val' Hs Hp). }
    exists s'. rewrite Hloop, Hrets. split_and!.
    + change (rets s ((et, val) :: d))
        with ((et, next_batch s et val) :: rets s d).
      cbn [forallb snd]. rewrite <- app_assoc. simpl. do 3 f_equal.
      generalize (forallb (λ r : etype * option ids, bool_decide (r.2 = None))
                    (rets s d)).
      intros b. by destruct (bool_decide (next_batch s et val = None)), b, e0.
    + by apply (same_but_pos_trans s s1 s').
    + intros x. rewrite Hpos. cbn [list_find]. case_decide as Hx; simpl in Hx.
      * subst x. simpl.
        destruct (list_find (λ kv, kv.1 = et) d) as [[i [k v]]|] eqn:Hfind.
        -- apply list_find_Some in Hfind as (Hi & Hk & _). simpl in Hk. subst k.
           destruct Hnin. apply list_elem_of_fmap. exists (et, v).
           split; [done|]. by apply list_elem_of_lookup_2 in Hi.
        -- subst s1. simpl. by rewrite lookup_insert_eq.
      * destruct (list_find (λ kv, kv.1 = x) d) as [[i [k v]]|] eqn:Hfind; simpl.
        -- apply list_find_Some in Hfind as (Hi & Hk & _). simpl in Hk. subst k.
           apply list_elem_of_lookup_2 in Hi.
           destruct (Hframe x v Hi) as [Hs Hp].
           f_equal. by apply (frame_next s s1 x v Hs Hp).
        -- subst s1. simpl. by rewrite lookup_insert_ne.
Qed.

Lemma next_batch_None s et val :
  next_batch s et val = None ↔ exhausted s et val = true.
Proof. unfold next_batch. by destruct (exhausted s et val). Qed.

Lemma rets_all_none s d :
  forallb (λ r, bool_decide (r.2 = None)) (rets s d) =
  forallb (λ kv, exhausted s kv.1 kv.2) d.
Proof.
  induction d as [|[et val] d IH]; [done|].
  change (rets s ((et, val) :: d)) with ((et, next_batch s et val) :: rets s d).
  cbn [forallb fst snd]. rewrite IH. f_equal.
  unfold next_batch. by destruct (exhausted s et val).
Qed.

(** The first loop of [_next_data] on a loader in order. *)
Lemma collect_next_spec s :
  wf s →
  ∃ s',
    collect_next s =
      inr (forallb (λ kv, exhausted s kv.1 kv.2) (dataset s),
           rets s (dataset s), s') ∧
    same_but_pos s s' ∧ wf s' ∧
    (∀ et val, (et, val) ∈ dataset s → pos_of s' et = next_pos s et val) ∧
    (forallb (λ kv, exhausted s kv.1 kv.2) (dataset s) = true → s' = s).
Proof.
  intros [Hnd Hok]. unfold collect_next.
  destruct (collect_loop (dataset s) true [] s Hnd Hok)
    as (s' & Hloop & Hsame & Hpos).
  exists s'. rewrite Hloop, andb_true_r, rets_all_none. simpl.
  assert (Hp : ∀ et val, (et, val) ∈ dataset s →
            current_pos s' !! et = Some (next_pos s et val)).
  { intros et val Hin. rewrite Hpos.
    by destruct (list_find_key (dataset s) et val Hnd Hin) as [i ->]. }
  split_and!; [done..| | |].
  - pose proof (same_but_pos_fields s s' Hsame) as (Hds & _).
    split; rewrite Hds; [done|]. intros et val Hin.
    eapply type_ok_advance; [by apply Hok | done | by apply Hp |].
    pose proof (next_pos_range s et val (Hok et val Hin)).
    pose proof (ok_pos_range s et val (Hok et val Hin)). lia.
  - intros et val Hin. unfold pos_of. by rewrite (Hp et val Hin).
  - intros Hall. unfold same_but_pos in Hsame. rewrite Hsame.
    rewrite <- (set_current_pos_id s) at 2. f_equal. apply map_eq. intros et.
    rewrite Hpos.
    destruct (list_find (λ kv, kv.1 = et) (dataset s)) as [[i [k v]]|] eqn:Hfind;
      [|done].
    apply list_find_Some in Hfind as (Hi & Hk & _). simpl in Hk. subst k.
    apply list_elem_of_lookup_2 in Hi.
    rewrite forallb_forall in Hall.
    specialize (Hall (et, v) ltac:(by apply list_elem_of_In)). simpl in Hall.
    unfold next_pos. rewrite Hall.
    destruct (ok_pos s et v (Hok et v Hi)) as [p Hp'].
    unfold pos_of. by rewrite Hp'.
Qed.
End collect_next.

(** What an edge type adds to a minibatch: its next positive edges, or one
    edge drawn from all its target edges when it gives none of its own. *)
Definition gives (s : AllEtypeDistEdgeDataLoader.t) (kv : etype * ids)
    (part : list (etype * Z)) : Prop :=
  match next_batch s kv.1 kv.2 with
  | None => ∃ eid, eid ∈ kv.2 ∧ part = [(kv.1, eid)]
  | Some batch => part = (λ data, (kv.1, data)) <$> batch
  end.

Section next_data.
Import AllEtypeDistEdgeDataLoader.
Context `{TorchRandomLaws R}.
Implicit Types (self s : t) (et : etype) (val : ids) (d : dict etype ids)
  (rng : R).

Lemma rand_gen_spec s et val rng :
  dict_get (dataset s) et = inr val → 0 < len val →
  ∃ eid rng', eid ∈ val ∧ _rand_gen s et rng = inr ([eid], rng').
Proof.
  intros Hval Hne. unfold _rand_gen. rewrite Hval. result_simpl.
  rewrite bool_decide_eq_false_2 by (destruct val; simpl in *; lia).
  pose proof (th_randint_lt (length val) rng ltac:(lia)) as Hlt.
  destruct (th_randint (length val) rng) as [i rng'] eqn:Hr. simpl in Hlt.
  destruct (lookup_lt_is_Some_2 val i Hlt) as [eid Heid].
  exists eid, rng'. split; [by apply list_elem_of_lookup_2 in Heid|].
  simpl. by rewrite Heid.
Qed.

Lemma flatten_loop s s' d : ∀ (new0 : list (etype * Z)) rng,
  (∀ et val, (et, val) ∈ d →
     dict_get (dataset s') et = inr val ∧ 0 < len val) →
  ∃ parts rng',
    foldlM
      (λ '(new_ret, rng) (rel_t : etype * option ids),
         match rel_t.2 with
         | None =>
             '(one, rng) ← _rand_gen s' rel_t.1 rng;
             eid ← item one;
             mret (new_ret ++ [(rel_t.1, eid)], rng)
         | Some eids =>
             mret (new_ret ++ ((λ data, (rel_t.1, data)) <$> eids), rng)
         end)
      (new0, rng) (rets s d) = inr (new0 ++ mjoin parts, rng') ∧
    Forall2 (gives s) d parts.
Proof.
  match goal with |- ∀ _ _, _ → ∃ _ _, foldlM ?f _ _ = _ ∧ _ => set (body := f) end.
  assert (Hsome : ∀ new0 rng et batch,
    body (new0, rng) (et, Some batch) =
    inr (new0 ++ ((λ data, (et, data)) <$> batch), rng)) by done.
  assert (Hnone : ∀ new0 rng et eid rng1,
    _rand_gen s' et rng = inr ([eid], rng1) →
    body (new0, rng) (et, None) = inr (new0 ++ [(et, eid)], rng1)).
  { intros new0 rng et eid rng1 Hr. unfold body. simpl. by rewrite Hr. }
  clearbody body.
  induction d as [|[et val] d IH]; intros new0 rng Hd.
  - exists [], rng. simpl. rewrite app_nil_r. split; [done | constructor].
  - change (rets s ((et, val) :: d))
      with ((et, next_batch s et val) :: rets s d).
    cbn [foldlM].
    destruct (Hd et val ltac:(left)) as [Hval Hne].
    assert (Hd' : ∀ et' val', (et', val') ∈ d →
              dict_get (dataset s') et' = inr val' ∧ 0 < len val')
      by (intros; apply Hd; by right).
    destruct (next_batch s et val) as [batch|] eqn:Hnb.
    + rewrite Hsome. result_simpl.
      destruct (IH (new0 ++ ((λ data, (et, data)) <$> batch)) rng Hd')
        as (parts & rng' & Hloop & Hparts).
      exists (((λ data, (et, data)) <$> batch) :: parts), rng'.
      rewrite Hloop. simpl. rewrite app_assoc. split; [done|].
      constructor; [|done]. unfold gives. simpl. by rewrite Hnb.
    + destruct (rand_gen_spec s' et val rng Hval Hne) as (eid & rng1 & Hin & Hr).
      rewrite (Hnone _ _ _ _ _ Hr). result_simpl.
      destruct (IH (new0 ++ [(et, eid)]) rng1 Hd')
        as (parts & rng' & Hloop & Hparts).
      exists ([(et, eid)] :: parts), rng'.
      rewrite Hloop. simpl. rewrite <- app_assoc. split; [done|].
      constructor; [|done]. unfold gives. simpl. rewrite Hnb. eauto.
Qed.

(** One call of [_next_data] on a loader in order: it does not raise; it
    gives [None] and leaves the loader as it is when every edge type is
    exhausted; otherwise it gives the parts of the edge types one after the
    other, in the order of the dataset, and moves the positions. *)
Lemma next_data_spec s rng :
  wf s →
  ∃ out s' rng',
    _next_data s rng = inr (out, s', rng') ∧
    same_but_pos s s' ∧ wf s' ∧
    (∀ et val, (et, val) ∈ dataset s → pos_of s' et = next_pos s et val) ∧
    if forallb (λ kv, exhausted s kv.1 kv.2) (dataset s)
    then out = None ∧ s' = s ∧ rng' = rng
    else ∃ parts, out = Some (mjoin parts) ∧
                  Forall2 (gives s) (dataset s) parts.
Proof.
  intros Hwf. unfold _next_data.
  destruct (collect_next_spec s Hwf) as (s' & -> & Hsame & Hwf' & Hpos & Hall).
  result_simpl.
  destruct (forallb (λ kv, exhausted s kv.1 kv.2) (dataset s)) eqn:Hex.
  - exists None, s', rng. split_and!; auto.
  - unfold flatten_ret.
    destruct (flatten_loop s s' (dataset s) [] rng) as (parts & rng' & -> & Hparts).
    { intros et val Hin. destruct Hwf' as [_ Hok'].
      pose proof (same_but_pos_fields s s' Hsame) as (Hds & _).
      rewrite <- Hds in Hin. specialize (Hok' et val Hin).
      split; [apply (ok_val _ _ _ Hok') | apply (ok_nonempty _ _ _ Hok')]. }
    result_simpl. exists (Some (mjoin parts)), s', rng'.
    split_and!; eauto.
Qed.
End next_data.

(** ** The per-edge-type balanced loader: every state it reaches *)

(** The states of a loader after its construction: [__iter__] starts an
    epoch, at any time and with any state of the generator, and [_next_data]
    makes one step of it. *)
Inductive reachable `{TorchRandom R} (self0 : AllEtypeDistEdgeDataLoader.t)
    : AllEtypeDistEdgeDataLoader.t → Prop :=
| reachable_init : reachable self0 self0
| reachable_iter self rng :
    reachable self0 self →
    reachable self0 (AllEtypeDistEdgeDataLoader.__iter__ self rng).1
| reachable_next self rng out self' rng' :
    reachable self0 self →
    AllEtypeDistEdgeDataLoader._next_data self rng = inr (out, self', rng') →
    reachable self0 self'.

Lemma zero_pos_lookup {V} (d : dict etype V) (m : gmap etype Z) (et : etype) :
  foldl (λ m '(etype, _), <[etype := 0]> m) m d !! et =
  if decide (et ∈ dict_keys d) then Some 0 else m !! et.
Proof.
  unfold dict_keys. revert m. induction d as [|[k v] d IH]; intros m; [done|].
  cbn [foldl]. rewrite IH, fmap_cons. simpl.
  destruct (decide (et ∈ d.*1)) as [Hin|Hnin].
  - rewrite decide_True; [done | by right].
  - destruct (decide (k = et)) as [->|Hne].
    + rewrite decide_True by left. by rewrite lookup_insert_eq.
    + rewrite decide_False by (intros [?|?]%elem_of_cons; congruence).
      by rewrite lookup_insert_ne.
Qed.

Lemma dict_get_keys `{EqDecision K} {V} (d : dict K V) (k : K) (v : V) :
  dict_get d k = inr v → k ∈ dict_keys d.
Proof.
  intros Hin%dict_get_Some. apply list_elem_of_fmap. by exists (k, v).
Qed.

Section init_batch_sizes.
Import AllEtypeDistEdgeDataLoader.
Implicit Types (eids : dict etype ids).

(** The batch size the constructor records for an edge type. *)
Lemma init_bs_lookup eids device B shuf drop self :
  NoDup (dict_keys eids) →
  __init__ eids device B shuf drop = inr self →
  ∀ et val, (et, val) ∈ eids →
    bs_per_type self !! et =
      Some (type_batch_size B (total_edges eids) (len val)) ∧
    (0 < B → 1 ≤ type_batch_size B (total_edges eids) (len val) ∧ 0 < len val).
Proof.
  intros Hnd Hinit et val Hin.
  apply init_spec in Hinit as [Hdiv ->]; [|done]. cbn [bs_per_type].
  assert ((et, seq 0 (length val)) ∈ arange_all eids) as Hin'
    by (apply arange_all_elem_of; eauto).
  split.
  - rewrite (foldl_insert_lookup
               (λ idxs : list nat, type_batch_size B (total_edges eids) (len idxs)))
      by by rewrite arange_all_keys.
    destruct (list_find_key (arange_all eids) et (seq 0 (length val))) as [i ->];
      [by rewrite arange_all_keys | done | by rewrite length_seq].
  - intros HB. unfold divisible in Hdiv. rewrite Forall_forall in Hdiv.
    destruct (Hdiv _ Hin') as [HT Hbs]. simpl in Hbs. rewrite length_seq in Hbs.
    pose proof (total_edges_nonneg eids).
    pose proof (ceil_div_nonneg (B * len val) (total_edges eids)
                  ltac:(lia) ltac:(lia)).
    unfold type_batch_size in *. split; [lia|].
    destruct val; [|simpl; lia]. destruct Hbs. unfold ceil_div.
    by rewrite Z.mul_0_r.
Qed.
End init_batch_sizes.

Section reachable.
Import AllEtypeDistEdgeDataLoader.
Context `{TorchRandomLaws R}.
Implicit Types (self s : t) (et : etype) (val : ids) (rng : R).

Lemma init_wf eids device B shuf drop self :
  NoDup (dict_keys eids) → 0 < B →
  __init__ eids device B shuf drop = inr self → wf self.
Proof.
  intros Hnd HB Hinit.
  pose proof (init_bs_lookup eids device B shuf drop self Hnd Hinit) as Hlookup.
  apply init_spec in Hinit as [Hdiv ->]; [|done].
  split; [done|]. cbn [dataset]. intros et val Hin.
  assert ((et, seq 0 (length val)) ∈ arange_all eids) as Hin'
    by (apply arange_all_elem_of; eauto).
  assert (dict_get (arange_all eids) et = inr (seq 0 (length val))) as Hidx.
  { apply dict_get_elem_of; [by rewrite arange_all_keys | done]. }
  assert (current_pos
            {| dataset := eids; batch_size := B; shuffle := shuf;
               drop_last := drop; device := "cpu"; data_idx := arange_all eids;
               bs_per_type := foldl (λ m '(k, idxs),
                   <[k := type_batch_size B (total_edges eids) (len idxs)]> m)
                 ∅ (arange_all eids);
               expected_idxs := max_over
                 (λ kv, type_batches drop (len kv.2)
                    (type_batch_size B (total_edges eids) (len kv.2)))
                 (arange_all eids);
               current_pos := zero_pos (arange_all eids);
               recv_idxs := 0; num_pending := 0 |} !! et = Some 0) as Hpos.
  { cbn [current_pos]. unfold zero_pos. rewrite zero_pos_lookup.
    rewrite decide_True; [done|]. by apply (dict_get_keys _ _ _ Hidx). }
  destruct (Hlookup et val Hin) as [Hbs Hbs1].
  destruct (Hbs1 HB) as [Hbs1' _]. clear Hbs1.
  assert (0 < len val) as Hne.
  { unfold divisible in Hdiv. rewrite Forall_forall in Hdiv.
    destruct (Hdiv _ Hin') as [_ Hnz]. simpl in Hnz.
    rewrite length_seq in Hnz. destruct val; [|simpl; lia].
    destruct Hnz. unfold type_batch_size, ceil_div.
    by rewrite Z.mul_0_r. }
  split.
  - by apply dict_get_elem_of.
  - by eexists.
  - by eexists.
  - unfold idxs_of. cbn [data_idx]. by rewrite Hidx.
  - unfold bs_of. by rewrite Hbs.
  - unfold pos_of. rewrite Hpos. simpl. lia.
  - done.
  - unfold idxs_of. cbn [data_idx]. by rewrite Hidx.
Qed.

Lemma randperm_all_get (d : dict etype (list nat)) rng et idxs :
  dict_get d et = inr idxs →
  ∃ idxs', dict_get (randperm_all d rng).1 et = inr idxs' ∧
           idxs' ≡ₚ seq 0 (length idxs).
Proof.
  revert rng. induction d as [|[k v] d IH]; intros rng; simpl; [done|].
  pose proof (th_randperm_perm (length v) rng) as Hperm.
  destruct (th_randperm (length v) rng) as [perm rng1]. simpl in Hperm.
  specialize (IH rng1).
  destruct (randperm_all d rng1) as [rest rng2]. simpl in *.
  case_decide as Hk.
  - intros [= <-]. eauto.
  - done.
Qed.

Lemma iter_wf s rng : wf s → wf (__iter__ s rng).1.
Proof.
  intros [Hnd Hok]. unfold __iter__.
  destruct (if shuffle s then randperm_all (data_idx s) rng
            else (data_idx s, rng)) as [data_idx' rng'] eqn:Hidx.
  split; [done|]. cbn [fst dataset]. intros et val Hin.
  destruct (Hok et val Hin) as [Hval Hpos Hbs Hi Hbs1 Hrange Hne Hperm].
  assert (∃ idxs', dict_get data_idx' et = inr idxs' ∧
                   idxs' ≡ₚ seq 0 (length val)) as (idxs' & Hi' & Hperm').
  { destruct (shuffle s).
    - destruct (randperm_all_get (data_idx s) rng et _ Hi) as (idxs' & Hg & Hp).
      rewrite Hidx in Hg. exists idxs'. split; [done|].
      by rewrite Hp, Hperm, length_seq.
    - injection Hidx as <- <-. eauto. }
  assert (zero_pos data_idx' !! et = Some 0) as Hz.
  { unfold zero_pos. rewrite zero_pos_lookup.
    rewrite decide_True; [done|]. by apply (dict_get_keys _ _ _ Hi'). }
  split.
  - done.
  - cbn [current_pos]. by eexists.
  - done.
  - unfold idxs_of. cbn [data_idx]. by rewrite Hi'.
  - done.
  - unfold pos_of. cbn [current_pos]. rewrite Hz. simpl. lia.
  - done.
  - unfold idxs_of. cbn [data_idx]. by rewrite Hi'.
Qed.

Lemma reachable_wf self0 self :
  wf self0 → reachable self0 self →
  wf self ∧ dataset self = dataset self0 ∧ drop_last self = drop_last self0.
Proof.
  intros Hwf0. induction 1 as [|s rng _ (IH & Hds & Hdrop)
                                 |s rng out s' rng' _ (IH & Hds & Hdrop) Hnext].
  - done.
  - split; [by apply iter_wf|]. unfold __iter__.
    by destruct (if shuffle s then _ else _).
  - destruct (next_data_spec s rng IH) as (out' & s'' & rng'' & Hn & Hsame & Hwf & _).
    rewrite Hn in Hnext. injection Hnext as <- <- <-.
    pose proof (same_but_pos_fields s s'' Hsame) as (Hd & _ & _ & Hdr & _).
    split; [done|]. by rewrite Hd, Hdr.
Qed.
End reachable.

Lemma forallb_false {A} (f : A → bool) (l : list A) :
  forallb f l = false → ∃ x, x ∈ l ∧ f x = false.
Proof.
  induction l as [|y l IH]; simpl; [done|].
  destruct (f y) eqn:Hy; simpl.
  - intros (x & ? & ?)%IH. exists x. split; [by right | done].
  - intros _. exists y. split; [left | done].
Qed.

Lemma gives_elem (s : AllEtypeDistEdgeDataLoader.t) (et : etype) (val : ids)
    (part : list (etype * Z)) :
  type_ok s et val → gives s (et, val) part →
  (∃ eid, eid ∈ val ∧ (et, eid) ∈ part) ∧
  Forall (λ x, x.1 = et ∧ x.2 ∈ val) part.
Proof.
  intros Hok. unfold gives. simpl.
  destruct (next_batch s et val) as [batch|] eqn:Hnb.
  - intros ->.
    destruct (next_batch_Some s et val batch Hok Hnb) as (_ & _ & Hpos & Hall).
    split.
    + destruct batch as [|eid batch]; [simpl in Hpos; lia|].
      exists eid. apply Forall_cons in Hall as [? _]. split; [done | left].
    + apply Forall_fmap. eapply Forall_impl; [exact Hall|]. by intros.
  - intros (eid & Hin & ->). split; [exists eid; split; [done | left]|].
    by repeat constructor.
Qed.

Section every_minibatch.
Import AllEtypeDistEdgeDataLoader.
Context `{TorchRandomLaws R}.

(** C1: a loader built with a positive batch size, in any state it reaches
    by [__iter__] and [_next_data], answers [_next_data] without raising.
    When it gives a minibatch, the minibatch has at least one target edge
    of every edge type of the dataset, it has target edges of the dataset
    only, and some edge type was not yet exhausted.  When it signals the end
    of the epoch, every edge type has reached its exhaustion condition, and
    the loader is left as it is. *)
Theorem C1_every_type_in_every_minibatch (eids : dict etype ids)
    (device : option string) (B : Z) (shuffle drop_last : bool)
    (self0 self : t) (rng : R) :
  NoDup (dict_keys eids) → 0 < B →
  __init__ eids device B shuffle drop_last = inr self0 →
  reachable self0 self →
  ∃ out self' rng',
    _next_data self rng = inr (out, self', rng') ∧
    match out with
    | Some minibatch =>
        (∀ et val, (et, val) ∈ eids →
           ∃ eid, eid ∈ val ∧ (et, eid) ∈ minibatch) ∧
        (∀ et eid, (et, eid) ∈ minibatch →
           ∃ val, (et, val) ∈ eids ∧ eid ∈ val) ∧
        (∃ et val, (et, val) ∈ eids ∧ exhausted self et val = false)
    | None =>
        (∀ et val, (et, val) ∈ eids → exhausted self et val = true) ∧
        self' = self
    end.
Proof.
  intros Hnd HB Hinit Hreach.
  pose proof (init_wf _ _ _ _ _ _ Hnd HB Hinit) as Hwf0.
  apply init_spec in Hinit as [_ Hself0]; [|done].
  destruct (reachable_wf self0 self Hwf0 Hreach) as ([_ Hok] & Hds & _).
  assert (dataset self = eids) as Heids by (rewrite Hds, Hself0; done).
  destruct (next_data_spec self rng (conj (eq_ind_r (λ d, NoDup (dict_keys d))
              Hnd Heids) Hok))
    as (out & self' & rng' & Hnext & _ & _ & _ & Hout).
  exists out, self', rng'. split; [done|]. rewrite Heids in Hout, Hok.
  destruct (forallb (λ kv, exhausted self kv.1 kv.2) eids) eqn:Hall.
  - destruct Hout as (-> & -> & ->). split; [|done].
    intros et val Hin. rewrite forallb_forall in Hall.
    by apply (Hall (et, val)), list_elem_of_In.
  - destruct Hout as (parts & -> & Hparts). split_and!.
    + intros et val Hin. apply list_elem_of_lookup in Hin as [i Hi].
      destruct (Forall2_lookup_l _ _ _ _ _ Hparts Hi) as (part & Hpart & Hg).
      apply list_elem_of_lookup_2 in Hi.
      destruct (gives_elem self et val part (Hok et val Hi) Hg)
        as [(eid & Hin & Hmem) _].
      exists eid. split; [done|]. apply list_elem_of_join.
      exists part. split; [done|]. by apply list_elem_of_lookup_2 in Hpart.
    + intros et eid (part & Hmem & Hpart)%list_elem_of_join.
      apply list_elem_of_lookup in Hpart as [i Hi].
      destruct (Forall2_lookup_r _ _ _ _ _ Hparts Hi) as ([et' val] & Hkv & Hg).
      apply list_elem_of_lookup_2 in Hkv.
      destruct (gives_elem self et' val part (Hok et' val Hkv) Hg) as [_ Hall'].
      rewrite Forall_forall in Hall'.
      destruct (Hall' _ Hmem) as [Het Hval]. simpl in *. subst et'. eauto.
    + apply forallb_false in Hall as ([et val] & Hin & Hex). eauto.
Qed.
End every_minibatch.

(** The generator of the examples keeps the laws. *)
Lemma counter_random_laws : @TorchRandomLaws nat counter_random.
Proof.
  split.
  - intros n rng Hn. simpl. apply Nat.mod_upper_bound. lia.
  - intros n rng. simpl. unfold rotate.
    rewrite Permutation_app_comm. by rewrite take_drop.
Qed.

Lemma C1_witness :
  ∃ self0 out self' rng',
    AllEtypeDistEdgeDataLoader.__init__ example_eids None 2 false false =
      inr self0 ∧
    AllEtypeDistEdgeDataLoader._next_data (H := counter_random) self0 0%nat =
      inr (out, self', rng') ∧
    match out with
    | Some minibatch =>
        (∀ et val, (et, val) ∈ example_eids →
           ∃ eid, eid ∈ val ∧ (et, eid) ∈ minibatch) ∧
        (∀ et eid, (et, eid) ∈ minibatch →
           ∃ val, (et, val) ∈ example_eids ∧ eid ∈ val) ∧
        (∃ et val, (et, val) ∈ example_eids ∧ exhausted self0 et val = false)
    | None =>
        (∀ et val, (et, val) ∈ example_eids → exhausted self0 et val = true) ∧
        self' = self0
    end.
Proof.
  destruct (AllEtypeDistEdgeDataLoader.__init__ example_eids None 2 false false)
    as [e|self0] eqn:Hinit; [by vm_compute in Hinit|].
  assert (NoDup (dict_keys example_eids)) as Hnd
    by (apply (bool_decide_unpack _); by vm_compute).
  destruct (C1_every_type_in_every_minibatch (H0 := counter_random_laws)
              example_eids None 2 false false self0 self0 0%nat Hnd
              ltac:(lia) Hinit (reachable_init self0))
    as (out & self' & rng' & Hnext & Hout).
  exists self0, out, self', rng'. split_and!; done.
Defined.

(** ** The per-edge-type balanced loader: what each type adds *)

Lemma filter_key_other (et : etype) (d : dict etype ids)
    (parts : list (list (etype * Z))) :
  et ∉ dict_keys d →
  Forall2 (λ kv part, Forall (λ x : etype * Z, x.1 = kv.1) part) d parts →
  filter (λ x : etype * Z, x.1 = et) (mjoin parts) = [].
Proof.
  unfold dict_keys. intros Hnin Hparts.
  induction Hparts as [|[k v] part d parts Hpart _ IH]; [done|].
  rewrite fmap_cons in Hnin. apply not_elem_of_cons in Hnin as [Hne Hnin].
  simpl. rewrite filter_app, (IH Hnin), app_nil_r.
  induction Hpart as [|x part Hx _ IHp]; [done|].
  rewrite filter_cons_False; [done|]. simpl in *. congruence.
Qed.

Lemma filter_key_part (d : dict etype ids) (parts : list (list (etype * Z))) :
  NoDup (dict_keys d) →
  Forall2 (λ kv part, Forall (λ x : etype * Z, x.1 = kv.1) part) d parts →
  Forall2 (λ kv part, filter (λ x : etype * Z, x.1 = kv.1) (mjoin parts) = part)
    d parts.
Proof.
  unfold dict_keys. intros Hnd Hparts. apply Forall2_same_length_lookup.
  split; [by eapply Forall2_length|].
  revert Hnd. induction Hparts as [|[k v] part d parts Hpart Hrest IH];
    intros Hnd i kv p Hi Hp; [done|].
  rewrite fmap_cons in Hnd. apply NoDup_cons in Hnd as [Hnin Hnd].
  simpl. rewrite filter_app. destruct i as [|i]; simpl in Hi, Hp.
  - injection Hi as <-. injection Hp as <-. simpl.
    rewrite (filter_key_other k d parts Hnin Hrest), app_nil_r.
    clear -Hpart. induction Hpart as [|x part Hx _ IHp]; [done|].
    rewrite filter_cons_True by done. by rewrite IHp.
  - rewrite (IH Hnd i kv p Hi Hp).
    assert (kv.1 ≠ k) as Hne.
    { intros <-. apply Hnin. apply list_elem_of_fmap. exists kv.
      split; [done|]. by apply list_elem_of_lookup_2 in Hi. }
    assert (filter (λ x : etype * Z, x.1 = kv.1) part = []) as ->; [|done].
    clear -Hpart Hne. induction Hpart as [|x part Hx _ IHp]; [done|].
    rewrite filter_cons_False; [done|]. simpl in *. congruence.
Qed.

Section exhausted_type.
Import AllEtypeDistEdgeDataLoader.
Context `{TorchRandomLaws R}.

(** C3, as the code has it, for either value of [drop_last]: in a minibatch
    of [_next_data], an edge type that has reached its exhaustion condition
    has exactly one entry, a target edge of the type drawn by [_rand_gen],
    and it is still exhausted after the call, so that it adds one such edge
    to every later minibatch of the epoch; an edge type that is not
    exhausted has its next positive edges as its entries, at least one.  The
    entries of the types follow each other in the order of the dataset. *)
Theorem C3_exhausted_type_gives_one_random_edge (eids : dict etype ids)
    (device : option string) (B : Z) (shuffle drop_last : bool)
    (self0 self self' : t) (rng rng' : R) (minibatch : list (etype * Z)) :
  NoDup (dict_keys eids) → 0 < B →
  __init__ eids device B shuffle drop_last = inr self0 →
  reachable self0 self →
  _next_data self rng = inr (Some minibatch, self', rng') →
  ∃ parts,
    minibatch = mjoin parts ∧
    Forall2
      (λ kv part,
         filter (λ x : etype * Z, x.1 = kv.1) minibatch = part ∧
         if exhausted self kv.1 kv.2
         then (∃ eid, eid ∈ kv.2 ∧ part = [(kv.1, eid)]) ∧
              exhausted self' kv.1 kv.2 = true
         else ∃ batch, next_batch self kv.1 kv.2 = Some batch ∧
                       part = (λ data, (kv.1, data)) <$> batch ∧
                       0 < len batch)
      eids parts.
Proof.
  intros Hnd HB Hinit Hreach Hnext.
  pose proof (init_wf _ _ _ _ _ _ Hnd HB Hinit) as Hwf0.
  apply init_spec in Hinit as [_ Hself0]; [|done].
  destruct (reachable_wf self0 self Hwf0 Hreach) as ([Hnd' Hok] & Hds & _).
  assert (dataset self = eids) as Heids by (rewrite Hds, Hself0; done).
  destruct (next_data_spec self rng (conj Hnd' Hok))
    as (out & s' & r' & Hn & Hsame & _ & Hpos & Hout).
  rewrite Hn in Hnext. injection Hnext as -> -> ->.
  rewrite Heids in Hout, Hok, Hpos.
  destruct (forallb (λ kv, exhausted self kv.1 kv.2) eids);
    [by destruct Hout as [? _]|].
  destruct Hout as (parts & [= ->] & Hparts).
  exists parts. split; [done|].
  assert (Hkeyed : Forall2
            (λ kv part, Forall (λ x : etype * Z, x.1 = kv.1) part) eids parts).
  { apply Forall2_same_length_lookup. split; [by eapply Forall2_length|].
    intros i [et val] part Hi Hp.
    destruct (Forall2_lookup_l _ _ _ _ _ Hparts Hi) as (part' & Hp' & Hg).
    rewrite Hp in Hp'. injection Hp' as <-.
    apply list_elem_of_lookup_2 in Hi.
    destruct (gives_elem self et val part (Hok et val Hi) Hg) as [_ Hall].
    eapply Forall_impl; [exact Hall|]. by intros ? [? _]. }
  pose proof (filter_key_part eids parts Hnd Hkeyed) as Hfilter.
  apply Forall2_same_length_lookup. split; [by eapply Forall2_length|].
  intros i [et val] part Hi Hp.
  destruct (Forall2_lookup_l _ _ _ _ _ Hparts Hi) as (part' & Hp' & Hg).
  rewrite Hp in Hp'. injection Hp' as <-.
  destruct (Forall2_lookup_l _ _ _ _ _ Hfilter Hi) as (part' & Hp' & Hf).
  rewrite Hp in Hp'. injection Hp' as <-.
  split; [done|]. simpl in *.
  apply list_elem_of_lookup_2 in Hi. pose proof (Hok et val Hi) as Hoket.
  unfold gives in Hg. simpl in Hg.
  destruct (exhausted self et val) eqn:Hex.
  - assert (next_batch self et val = None) as Hnb by by apply next_batch_None.
    rewrite Hnb in Hg. split; [done|].
    pose proof (same_but_pos_fields self self' Hsame)
      as (_ & Hbs & _ & Hdrop & _).
    unfold exhausted in Hex |- *.
    assert (bs_of self' et = bs_of self et) as -> by (unfold bs_of; by rewrite Hbs).
    rewrite (Hpos et val Hi), Hdrop. unfold next_pos, exhausted. by rewrite Hex.
  - destruct (next_batch self et val) as [batch|] eqn:Hnb.
    + exists batch. split_and!; [done..|].
      by destruct (next_batch_Some self et val batch Hoket Hnb) as (_ & _ & ? & _).
    + apply next_batch_None in Hnb. congruence.
Qed.
End exhausted_type.

Lemma C3_witness :
  let mb2 := [(buys, 12); (buys, 13); (bought_by, 20)] in
  ∃ parts,
    mb2 = mjoin parts ∧
    Forall2
      (λ kv part,
         filter (λ x : etype * Z, x.1 = kv.1) mb2 = part ∧
         if exhausted (run_first false) kv.1 kv.2
         then (∃ eid, eid ∈ kv.2 ∧ part = [(kv.1, eid)]) ∧
              exhausted (run_second false) kv.1 kv.2 = true
         else ∃ batch, next_batch (run_first false) kv.1 kv.2 = Some batch ∧
                       part = (λ data, (kv.1, data)) <$> batch ∧
                       0 < len batch)
      example_eids parts.
Proof.
  intros mb2.
  apply (C3_exhausted_type_gives_one_random_edge (H0 := counter_random_laws)
           example_eids None 2 false false (run_start false) (run_first false)
           (run_second false) 0%nat 1%nat mb2).
  - apply (bool_decide_unpack _). vm_cast_no_check I.
  - lia.
  - by_evaluation.
  - apply (reachable_next (H := counter_random) _ (run_start false) 0%nat
             (Some [(buys, 10); (buys, 11); (bought_by, 20)])
             (run_first false) 0%nat); [apply reachable_init|].
    by_evaluation.
  - by_evaluation.
Defined.

(** C3 as the spec states it fails when [drop_last] is on: in the second
    minibatch of the epoch the type [bought-by], exhausted after the first,
    still has an entry, its one target edge drawn again. *)
Lemma C3_counterexample :
  AllEtypeDistEdgeDataLoader.__init__ example_eids None 2 false true =
    inr (run_start true) ∧
  AllEtypeDistEdgeDataLoader.drop_last (run_start true) = true ∧
  AllEtypeDistEdgeDataLoader._next_data (H := counter_random)
    (run_start true) 0%nat =
    inr (Some [(buys, 10); (buys, 11); (bought_by, 20)], run_first true, 0%nat) ∧
  exhausted (run_first true) bought_by [20] = true ∧
  AllEtypeDistEdgeDataLoader._next_data (H := counter_random)
    (run_first true) 0%nat =
    inr (Some [(buys, 12); (buys, 13); (bought_by, 20)], run_second true, 1%nat).
Proof. split_and!; by_evaluation. Qed.

(** ** remove_test_mask, applied twice *)

Section remove_test_mask_more.
Import RemoveTestMask.
Context {T : Type}.
Implicit Types (data : gmap string T) (name : string).

(** Removing the test masks a second time changes nothing; what is kept is
    part of the input; and the input comes back unchanged exactly when none
    of its names contains [test_mask]. *)
Theorem remove_test_mask_idempotent data :
  remove_test_mask (remove_test_mask data) = remove_test_mask data ∧
  remove_test_mask data ⊆ data ∧
  (remove_test_mask data = data ↔
   ∀ name, is_Some (data !! name) → str_contains "test_mask" name = false).
Proof.
  split_and!.
  - apply map_eq. intros name. rewrite !remove_test_mask_lookup.
    by destruct (str_contains "test_mask" name).
  - apply map_subseteq_spec. intros name v.
    rewrite remove_test_mask_lookup.
    by destruct (str_contains "test_mask" name).
  - split.
    + intros Heq name [v Hv]. rewrite <- Heq, remove_test_mask_lookup in Hv.
      by destruct (str_contains "test_mask" name).
    + intros Hall. apply map_eq. intros name.
      rewrite remove_test_mask_lookup.
      destruct (str_contains "test_mask" name) eqn:Hc; [|done].
      destruct (data !! name) as [v|] eqn:Hv; [|done].
      specialize (Hall name ltac:(by eexists)). congruence.
Qed.
End remove_test_mask_more.

(** ** When the feature-reconstruction sampler can be built *)

Section reconstruct_sampler_success.
Import _ReconstructedNeighborSampler.
Context (dataset : GSgnnData).

(** The constructor of [_ReconstructedNeighborSampler] succeeds exactly when
    the fanout is positive or -1, at least one node type is requested and
    every requested node type has an incoming edge type whose source node
    type has stored features.  Any other fanout fails on the first
    assertion, whatever is requested, and every failure is a failed
    assertion. *)
Theorem reconstruct_sampler_init_succeeds_iff (requested : list ntype)
    (fanout : Z) :
  ((∃ sampler, __init__ dataset requested fanout = inr sampler) ↔
   (0 < fanout ∨ fanout = -1) ∧ requested ≠ [] ∧
   ∀ nt, nt ∈ requested → reconstructible dataset nt) ∧
  (fanout ≤ 0 ∧ fanout ≠ -1 →
   __init__ dataset requested fanout =
   inl (AssertionError
     "Constructing features requires to sample neighbors or -1 if we use all neighbors.")) ∧
  (∀ e, __init__ dataset requested fanout = inl e → ∃ msg, e = AssertionError msg).
Proof.
  unfold __init__.
  destruct ((0 <? fanout) || (fanout =? -1)) eqn:Hf; result_simpl.
  2:{ apply orb_false_iff in Hf as [?%Z.ltb_ge ?%Z.eqb_neq].
      split_and!; [|done|intros e [= <-]; eauto].
      split; [by intros [? ?] | intros ([|] & _); lia]. }
  apply orb_true_iff in Hf.
  assert (0 < fanout ∨ fanout = -1) as Hfan by (destruct Hf; [left|right]; lia).
  pose proof (collect_etypes_spec dataset requested) as [Hsubg Htn].
  destruct (collect_etypes dataset (canonical_etypes (g dataset)) requested)
    as [subg tn] eqn:Hcollect.
  cbn [fst snd] in Hsubg, Htn.
  pose proof (remain_ntypes_empty dataset requested tn Htn) as Hremain.
  destruct (bool_decide (size (list_to_set requested ∖ tn : gset ntype) = 0%nat))
    eqn:Hsz; result_simpl.
  2:{ apply bool_decide_eq_false in Hsz. rewrite Hremain in Hsz.
      split_and!; [|intros [? ?]; lia|intros e [= <-]; eauto].
      split; [by intros [? ?] | by intros (_ & _ & ?)]. }
  apply bool_decide_eq_true in Hsz. rewrite Hremain in Hsz.
  destruct (bool_decide (0 < length subg)%nat) eqn:Hlen; result_simpl.
  - apply bool_decide_eq_true in Hlen.
    split_and!; [|intros [? ?]; lia|done].
    split; [intros _|by eexists]. split_and!; [done| |done].
    intros ->. destruct subg as [|et ?]; [simpl in Hlen; lia|].
    assert (feature_bearing dataset [] et) as (_ & []%elem_of_nil & _).
    apply Hsubg. left.
  - apply bool_decide_eq_false in Hlen.
    split_and!; [|intros [? ?]; lia|intros e [= <-]; eauto].
    split; [by intros [? ?]|]. intros (_ & Hne & Hall). destruct Hlen.
    destruct requested as [|nt rest]; [done|].
    destruct (Hall nt) as (et & Hin & Hdst & Hfeat); [left|].
    assert (et ∈ subg) as Hs.
    { apply Hsubg. split_and!; [done| |done]. rewrite Hdst. left. }
    destruct subg; [by apply elem_of_nil in Hs | simpl; lia].
Qed.
End reconstruct_sampler_success.

(** [make_construct_feat_sampler] builds nothing, and looks at neither the
    dataset nor the fanout, when no node type is requested. *)
Lemma make_construct_feat_sampler_none dataset cf_ntype cf_fanout :
  cf_ntype = None ∨ cf_ntype = Some [] →
  make_construct_feat_sampler dataset cf_ntype cf_fanout = inr None.
Proof. by intros [-> | ->]. Qed.


(** ** The node loaders check the node types of the target *)

Lemma check_ntypes_ok (dataset : GSgnnData) {V} (target_idx : dict ntype V) :
  for_each
    (λ ntype,
       assert (bool_decide (ntype ∈ ntypes (g dataset)))
         "node type {} does not exist in the graph")
    (dict_keys target_idx) =
  if decide (Forall (λ ntype, ntype ∈ ntypes (g dataset)) (dict_keys target_idx))
  then inr tt
  else inl (AssertionError "node type {} does not exist in the graph").
Proof.
  induction (dict_keys target_idx) as [|nt keys IH]; cbn [for_each].
  - by rewrite decide_True.
  - unfold assert at 1. case_bool_decide as Hnt; result_simpl.
    + etrans; [exact IH|]. destruct (decide (Forall _ keys)) as [Hall|Hnot].
      * rewrite decide_True; [done|]. by constructor.
      * rewrite decide_False; [done|]. by intros [_ ?]%Forall_cons.
    + rewrite decide_False; [done|]. by intros [? _]%Forall_cons.
Qed.

Section node_loader_check.
Context (num_workers : nat) (dataset : GSgnnData).
Implicit Types (target_idx unlabeled_idx : dict ntype ids).

(** When the target index of a node loader has a node type the graph does
    not have, construction fails: on the failed assertion
    [node type {} does not exist in the graph] when no features are to be
    reconstructed, and on the failure of the reconstruction sampler when
    that cannot be built, since it is built first.  The semi-supervised
    loader fails in the same way for its labeled nodes, whatever the
    unlabeled nodes are. *)
Theorem node_loader_checks_target_ntypes target_idx (ntype : ntype) :
  ntype ∈ dict_keys target_idx →
  ntype ∉ ntypes (g dataset) →
  let absent := AssertionError "node type {} does not exist in the graph" in
  (∀ fanout batch_size device train_task cf_ntype cf_fanout,
     GSgnnNodeDataLoader.__init__ num_workers dataset target_idx fanout
       batch_size device train_task cf_ntype cf_fanout =
     match make_construct_feat_sampler dataset cf_ntype cf_fanout with
     | inl e => inl e
     | inr _ => inl absent
     end) ∧
  (∀ fanout batch_size device train_task cf_ntype cf_fanout,
     cf_ntype = None ∨ cf_ntype = Some [] →
     GSgnnNodeDataLoader.__init__ num_workers dataset target_idx fanout
       batch_size device train_task cf_ntype cf_fanout = inl absent) ∧
  (∀ unlabeled_idx fanout batch_size device train_task,
     GSgnnNodeSemiSupDataLoader.__init__ num_workers dataset target_idx
       unlabeled_idx fanout batch_size device train_task = inl absent).
Proof.
  intros Hin Hnot absent.
  assert (Hnode : ∀ fanout batch_size device train_task cf_ntype cf_fanout,
     GSgnnNodeDataLoader.__init__ num_workers dataset target_idx fanout
       batch_size device train_task cf_ntype cf_fanout =
     match make_construct_feat_sampler dataset cf_ntype cf_fanout with
     | inl e => inl e
     | inr _ => inl absent
     end).
  { intros. unfold GSgnnNodeDataLoader.__init__.
    destruct (make_construct_feat_sampler _ _ _) as [e|s]; [done|].
    result_simpl. rewrite check_ntypes_ok, decide_False; [done|].
    rewrite Forall_forall. intros Hall. by apply Hnot, Hall. }
  split_and!.
  - exact Hnode.
  - intros * Hcf. by rewrite Hnode, make_construct_feat_sampler_none.
  - intros. unfold GSgnnNodeSemiSupDataLoader.__init__. by rewrite Hnode.
Qed.
End node_loader_check.


(** ** What the edge loader needs to be built *)

Section edge_loader_init.
Import GSgnnEdgeDataLoader.
Context (dataset : GSgnnData).

(** The constructor of the edge loader fails on its first assertion
    whenever it is asked to remove the target edge types and has no reverse
    map, which is what its default arguments ask for.  Whenever it returns
    a loader, that assertion held, every edge type of the target is an edge
    type of the graph and the reconstruction sampler, if one was asked for,
    was built and is the one the loader has.  The loader keeps the fanout
    and the target dict it was given, hands the target dict to the loader
    of DGL, and hands the fanout to the sampler unchanged when the target
    edge types are not removed. *)
Theorem edge_loader_construction (target_idx : dict etype ids)
    (fanout : list layer_fanout) (batch_size : Z) (device : string)
    (train_task : bool) (reverse_map : option (gmap etype etype))
    (remove exclude : bool) (cf_ntype : option (list ntype)) (cf_fanout : Z) :
  let built :=
    __init__ dataset target_idx fanout batch_size device train_task
      reverse_map remove exclude cf_ntype cf_fanout in
  (remove = true ∧ reverse_map = None →
   built = inl (AssertionError
     "To remove target etype, the reversed etype should be provided.")) ∧
  (∀ self, built = inr self →
     (remove = true → is_Some reverse_map) ∧
     (∀ e, e ∈ dict_keys target_idx → e ∈ canonical_etypes (g dataset)) ∧
     make_construct_feat_sampler dataset cf_ntype cf_fanout =
       inr (_construct_feat_sampler self) ∧
     _fanout self = fanout ∧ _target_eidx self = target_idx ∧
     de_eids (dataloader self) = target_idx ∧
     (remove = false →
      de_graph_sampler (dataloader self) =
        MultiLayerNeighborSampler fanout None)).
Proof.
  intros built. subst built. unfold __init__.
  pose proof (check_etypes_ok dataset target_idx) as Hcheck.
  destruct remove, reverse_map as [rev|]; result_simpl.
  2:{ split; [done|]. by intros self. }
  all: destruct (check_etypes dataset target_idx) as [e|[]]; result_simpl.
  all: try (split; [by intros [? ?] | by intros self]).
  all: destruct (make_construct_feat_sampler dataset cf_ntype cf_fanout)
         as [e|sampler]; result_simpl.
  all: try (split; [by intros [? ?] | by intros self]).
  all: split; [by intros [? ?] | intros self [= <-]].
  all: split_and!; [by eauto | by apply Hcheck | done..].
Qed.
End edge_loader_init.

(** ** Loaders without feature reconstruction *)

Section without_reconstruction.
Context `{DGL} (num_workers : nat) (dataset : GSgnnData).

(** A loader built without node types to reconstruct ([None] or the empty
    list) gives from [__next__] exactly what the loader of DGL gives, a
    minibatch or an exception: no block is added and the input nodes are
    not replaced.  The fanout of the reconstruction is not looked at in that
    case.  The semi-supervised node loader never reconstructs features. *)
Theorem next_without_reconstruction (cf_ntype : option (list ntype))
    (cf_fanout : Z) :
  cf_ntype = None ∨ cf_ntype = Some [] →
  (∀ target_idx fanout batch_size device train_task reverse_map remove exclude
     self inner,
     GSgnnEdgeDataLoader.__init__ dataset target_idx fanout batch_size device
       train_task reverse_map remove exclude cf_ntype cf_fanout = inr self →
     GSgnnEdgeDataLoader.__next__ self inner = inner) ∧
  (∀ c target_idx fanout batch_size k device train_task reverse_map exclude
     mask self inner,
     GSgnnLinkPredictionDataLoader.__init__ num_workers c dataset target_idx
       fanout batch_size k device train_task reverse_map exclude mask
       cf_ntype cf_fanout = inr self →
     GSgnnLinkPredictionDataLoader.__next__ self inner = inner) ∧
  (∀ target_idx fanout batch_size device train_task self inner,
     GSgnnNodeDataLoader.__init__ num_workers dataset target_idx fanout
       batch_size device train_task cf_ntype cf_fanout = inr self →
     GSgnnNodeDataLoader.__next__ self inner = inner) ∧
  (∀ target_idx unlabeled_idx fanout batch_size device train_task self inner,
     GSgnnNodeSemiSupDataLoader.__init__ num_workers dataset target_idx
       unlabeled_idx fanout batch_size device train_task = inr self →
     GSgnnNodeDataLoader.__next__ (GSgnnNodeSemiSupDataLoader.base self) inner =
       inner).
Proof.
  intros Hcf.
  pose proof (make_construct_feat_sampler_none dataset cf_ntype cf_fanout Hcf)
    as Hnone.
  assert (Hnode : ∀ target_idx fanout batch_size device train_task cf cff self
            inner,
     make_construct_feat_sampler dataset cf cff = inr None →
     GSgnnNodeDataLoader.__init__ num_workers dataset target_idx fanout
       batch_size device train_task cf cff = inr self →
     GSgnnNodeDataLoader.__next__ self inner = inner).
  { intros * Hn. unfold GSgnnNodeDataLoader.__init__. rewrite Hn. result_simpl.
    intros ([] & _ & ([l t] & _ & [= <-])%bind_inr)%bind_inr.
    unfold GSgnnNodeDataLoader.__next__.
    by destruct inner as [e|[[input_nodes seeds] blocks]]. }
  split_and!.
  - intros *. unfold GSgnnEdgeDataLoader.__init__.
    intros (fan & _ & ([] & _ & Hs)%bind_inr)%bind_inr.
    rewrite Hnone in Hs. injection Hs as <-.
    unfold GSgnnEdgeDataLoader.__next__.
    by destruct inner as [e|[[input_nodes batch_graph] blocks]].
  - intros *. unfold GSgnnLinkPredictionDataLoader.__init__.
    intros ([] & _ & Hs)%bind_inr. rewrite Hnone in Hs. result_simpl in Hs.
    apply bind_inr in Hs as ([l t] & _ & [= <-]).
    unfold GSgnnLinkPredictionDataLoader.__next__.
    by destruct inner as [e|[[[input_nodes pos_graph] neg_graph] blocks]].
  - intros *. by apply Hnode.
  - intros *. unfold GSgnnNodeSemiSupDataLoader.__init__.
    intros (base & Hbase & ([l t] & _ & [= <-])%bind_inr)%bind_inr.
    by apply (Hnode _ _ _ _ _ None 5 base inner eq_refl) in Hbase.
Qed.
End without_reconstruction.

(** ** The list of target edge types *)

Section target_etypes_shape.
Import GSgnnEdgeDataLoader.
Context (reverse_map : gmap etype etype).
Implicit Types (l keys : list etype) (e r : etype) (i j fuel : nat).

Lemma target_etypes_loop_NoDup fuel i l l' :
  target_etypes_loop fuel reverse_map i l = Some l' →
  NoDup l →
  NoDup l' ∧ (length l' ≤ length l + missing reverse_map l)%nat.
Proof.
  revert i l. induction fuel as [|fuel IH]; intros i l Hloop Hnd; [done|].
  simpl in Hloop. destruct (l !! i) as [e|] eqn:Hl.
  - destruct (reverse_map !! e) as [r|] eqn:He; [|by eapply IH].
    case_bool_decide as Hr; [|by eapply IH].
    apply IH in Hloop as [Hnd' Hlen].
    + split; [done|]. pose proof (missing_snoc_lt reverse_map l e r He Hr).
      rewrite length_app in Hlen. simpl in Hlen. lia.
    + apply NoDup_app. split_and!; [done| |apply NoDup_singleton].
      intros x Hx ->%list_elem_of_singleton. done.
  - injection Hloop as <-. split; [done|lia].
Qed.

(** The list of edge types to mask starts with the edge types of the target
    in their order, names no edge type twice, and is at most as many edge
    types longer than the target as the reverse map has entries.  When the
    reverse map leads back from every reverse to the edge type it came
    from, the list holds the edge types of the target and their reverses,
    and nothing else. *)
Theorem extend_target_etypes_shape keys :
  NoDup keys →
  let target_etypes := extend_target_etypes reverse_map keys in
  keys `prefix_of` target_etypes ∧
  NoDup target_etypes ∧
  (length target_etypes ≤ length keys + size reverse_map)%nat ∧
  ((∀ a b c, reverse_map !! a = Some b → reverse_map !! b = Some c → c = a) →
   ∀ e, e ∈ target_etypes ↔
        e ∈ keys ∨ ∃ k, k ∈ keys ∧ reverse_map !! k = Some e).
Proof.
  intros Hnd target_etypes.
  pose proof (extend_target_etypes_spec reverse_map keys) as [Hpre Hclos].
  fold target_etypes in Hpre, Hclos.
  assert (NoDup target_etypes ∧
          (length target_etypes ≤ length keys + missing reverse_map keys)%nat)
    as [Hnd' Hlen].
  { subst target_etypes. unfold extend_target_etypes.
    destruct (target_etypes_loop_terminates reverse_map keys) as [l' Hl'].
    rewrite Hl'. simpl. by apply target_etypes_loop_NoDup in Hl'. }
  split_and!; [done..| |].
  - pose proof (map_size_filter (λ kv : etype * etype, kv.2 ∉ keys) reverse_map).
    unfold missing in Hlen. lia.
  - intros Hback e. rewrite Hclos. unfold reverse_closure. split.
    + intros (k & Hk & Hke).
      assert (e = k ∨ reverse_map !! k = Some e) as [->|Hstep]; [|by left|by eauto].
      clear Hk.
      apply (rtc_ind_r (R := reverse_step reverse_map)
               (λ e, e = k ∨ reverse_map !! k = Some e) k);
        [by left | | exact Hke].
      intros b c _ Hbc IH. unfold reverse_step in Hbc. destruct IH as [->|Hkb]; [by right|].
      left. by apply (Hback k b c).
    + intros [Hin|(k & Hk & Hstep)].
      * exists e. split; [done|constructor].
      * exists k. split; [done|]. by apply rtc_once.
Qed.
End target_etypes_shape.

(** ** The per-edge-type balanced loader: when it can be built *)

Section all_etype_construction.
Import AllEtypeDistEdgeDataLoader.
Implicit Types (eids : dict etype ids).

Lemma init_not_divisible eids device B shuf drop :
  NoDup (dict_keys eids) →
  device = None ∨ device = Some "cpu"%string →
  ¬ divisible B (total_edges eids) (arange_all eids) →
  __init__ eids device B shuf drop = inl ZeroDivisionError.
Proof.
  intros Hnd Hdev Hdiv. unfold __init__.
  assert (default "cpu"%string device = "cpu"%string) as ->
    by by destruct Hdev as [->| ->].
  simpl. unfold _reinit_dataset.
  cbn [dataset batch_size drop_last shuffle AllEtypeDistEdgeDataLoader.device
       recv_idxs num_pending].
  rewrite (reinit_first_loop [] 0 eids) by done.
  rewrite app_nil_l, Z.add_0_l, reinit_second_loop.
  by rewrite decide_False.
Qed.

Lemma total_edges_pos eids :
  eids ≠ [] → Forall (λ kv, kv.2 ≠ []) eids → 0 < total_edges eids.
Proof.
  intros Hne Hall. destruct eids as [|[k v] eids]; [done|].
  apply Forall_cons in Hall as [Hv _]. simpl in *.
  pose proof (total_edges_nonneg eids). destruct v; [done|simpl; lia].
Qed.

Lemma not_divisible_empty eids (B : Z) :
  Exists (λ kv, kv.2 = []) eids →
  ¬ divisible B (total_edges eids) (arange_all eids).
Proof.
  intros Hex. apply Exists_exists in Hex as ([et val] & Hin & Hval).
  simpl in Hval. subst val. unfold divisible. rewrite Forall_forall.
  intros Hdiv. destruct (Hdiv (et, seq 0 0)) as [_ Hbs].
  { apply arange_all_elem_of. by exists []. }
  apply Hbs. simpl. unfold type_batch_size, ceil_div. by rewrite Z.mul_0_r.
Qed.

Lemma divisible_all_nonempty eids (B : Z) :
  divisible B (total_edges eids) (arange_all eids) →
  Forall (λ kv, kv.2 ≠ []) eids.
Proof.
  intros Hdiv. apply Forall_forall. intros [et val] Hin Hval.
  apply (not_divisible_empty eids B); [|done].
  apply Exists_exists. by exists (et, val).
Qed.

(** The constructor of the balanced loader accepts the CPU only, and it
    needs target edges of every edge type.  For a positive batch size
    whose products with the numbers of target edges stay below 2^53, an
    edge type without target edges makes it raise [ZeroDivisionError],
    whatever the other edge types have.  Whenever it returns a loader, the
    device was the CPU or not given, the loader has the CPU as its device
    and every edge type of the target has at least one target edge. *)
Theorem all_etype_init_needs_edges eids (device : option string) (B : Z)
    (shuffle drop_last : bool) :
  NoDup (dict_keys eids) → 0 < B → float_exact B eids →
  let built := __init__ eids device B shuffle drop_last in
  (device ≠ None ∧ device ≠ Some "cpu"%string →
   built = inl (AssertionError
     "Only cpu is supported in the case of a DistGraph.")) ∧
  (device = None ∨ device = Some "cpu"%string →
   Exists (λ kv, kv.2 = []) eids → built = inl ZeroDivisionError) ∧
  (∀ self, built = inr self →
     (device = None ∨ device = Some "cpu"%string) ∧
     AllEtypeDistEdgeDataLoader.device self = "cpu"%string ∧
     Forall (λ kv, kv.2 ≠ []) eids).
Proof.
  intros Hnd _ _ built. subst built.
  assert (Hdev : device = None ∨ device = Some "cpu"%string ∨
                 (device ≠ None ∧ device ≠ Some "cpu"%string)).
  { destruct device as [d|]; [|by left].
    destruct (String.eqb_spec d "cpu") as [->|Hd]; [by right; left|].
    right. right. split; [done|]. by intros [= ->]. }
  assert (Hbad : device ≠ None ∧ device ≠ Some "cpu"%string →
            __init__ eids device B shuffle drop_last =
            inl (AssertionError
              "Only cpu is supported in the case of a DistGraph.")).
  { intros [Hn Hc]. unfold __init__.
    destruct device as [d|]; [|done]. simpl.
    destruct (String.eqb_spec d "cpu") as [->|Hd]; done. }
  split_and!.
  - exact Hbad.
  - intros Hok Hex. apply init_not_divisible; [done..|].
    by apply not_divisible_empty.
  - intros self Hself.
    assert (device = None ∨ device = Some "cpu"%string) as Hok.
    { destruct Hdev as [?|[?|Hno]]; [by left|by right|].
      rewrite (Hbad Hno) in Hself. done. }
    apply init_spec in Hself as [Hdiv ->]; [|done].
    split_and!; [done|done|]. by eapply divisible_all_nonempty.
Qed.
End all_etype_construction.

(** ** The per-edge-type balanced loader: the size of a minibatch *)

(** The sum of a family of numbers. *)
Definition sum_over {A} (f : A → Z) (l : list A) : Z :=
  foldr (λ x acc, f x + acc) 0 l.

Lemma sum_over_ext {A} (f g : A → Z) (l : list A) :
  (∀ x, x ∈ l → f x = g x) → sum_over f l = sum_over g l.
Proof.
  induction l as [|x l IH]; intros Hfg; [done|]. simpl.
  rewrite (Hfg x) by left. rewrite IH; [done|]. intros y Hy. apply Hfg. by right.
Qed.

Lemma sum_over_total (B : Z) (eids : dict etype ids) :
  sum_over (λ kv : etype * ids, B * len kv.2) eids = B * total_edges eids.
Proof. induction eids as [|[k v] eids IH]; simpl in *; lia. Qed.

(** The ceilings of the shares of a total add up to at least the whole and
    to less than the whole plus their number. *)
Lemma sum_over_ceil_div (T : Z) {A} (a : A → Z) (l : list A) :
  0 < T →
  sum_over a l ≤ T * sum_over (λ x, ceil_div (a x) T) l ∧
  T * (sum_over (λ x, ceil_div (a x) T) l - len l) ≤ sum_over a l - len l.
Proof.
  intros HT. induction l as [|x l [IH1 IH2]]; [simpl; lia|].
  cbn [sum_over foldr length]. fold (sum_over a l).
  fold (sum_over (λ x, ceil_div (a x) T) l).
  destruct (ceil_div_spec (a x) T (ceil_div (a x) T) HT) as [Hq _].
  specialize (Hq eq_refl). nia.
Qed.

Lemma length_mjoin_bounds {A B} (lo hi : A → Z) (l : list A)
    (parts : list (list B)) :
  Forall2 (λ x part, lo x ≤ len part ≤ hi x) l parts →
  sum_over lo l ≤ len (mjoin parts) ≤ sum_over hi l.
Proof.
  induction 1 as [|x part l parts Hx _ IH]; [simpl; lia|].
  simpl. rewrite length_app. lia.
Qed.

Lemma sum_over_const {A} (c : Z) (l : list A) :
  sum_over (λ _, c) l = c * len l.
Proof. induction l as [|x l IH]; simpl in *; lia. Qed.

Section reachable_fields.
Import AllEtypeDistEdgeDataLoader.
Context `{TorchRandomLaws R}.

(** What no call changes: the dataset, the batch sizes, the number of
    minibatches of an epoch and the flags; the index lists too when the
    loader does not shuffle. *)
Lemma reachable_fields self0 self :
  wf self0 → reachable self0 self →
  bs_per_type self = bs_per_type self0 ∧
  expected_idxs self = expected_idxs self0 ∧
  shuffle self = shuffle self0 ∧
  (shuffle self0 = false → data_idx self = data_idx self0).
Proof.
  intros Hwf0. induction 1 as [|s rng Hr (Hbs & Hex & Hsh & Hidx)
                                 |s rng out s' rng' Hr (Hbs & Hex & Hsh & Hidx) Hnext].
  - done.
  - unfold __iter__.
    destruct (if shuffle s then randperm_all (data_idx s) rng
              else (data_idx s, rng)) as [data_idx' rng'] eqn:Hi.
    cbn [fst bs_per_type expected_idxs shuffle data_idx].
    split_and!; [done..|]. intros Hno. rewrite Hsh, Hno in Hi.
    injection Hi as <- <-. auto.
  - destruct (reachable_wf self0 s Hwf0 Hr) as (Hwf & _).
    destruct (next_data_spec s rng Hwf) as (out' & s'' & rng'' & Hn & Hsame & _).
    rewrite Hn in Hnext. injection Hnext as <- <- <-.
    pose proof (same_but_pos_fields s s'' Hsame)
      as (_ & Hb & Hd & _ & _ & Hs & He).
    rewrite Hb, He, Hs, Hd. done.
Qed.
End reachable_fields.

Section minibatch_size.
Import AllEtypeDistEdgeDataLoader.
Context `{TorchRandomLaws R}.

(** For a batch size whose products with the numbers of target edges stay
    below 2^53, the batch sizes of the edge types add up to at least the
    batch size the user set and to less than that batch size plus the
    number of edge types.  Every minibatch has at least one positive edge for every edge
    type and at most as many positive edges as the batch sizes of the edge
    types add up to. *)
Theorem minibatch_size_bounds (eids : dict etype ids) (device : option string)
    (B : Z) (shuffle drop_last : bool) (self0 : t) :
  NoDup (dict_keys eids) → 0 < B → float_exact B eids → eids ≠ [] →
  __init__ eids device B shuffle drop_last = inr self0 →
  let total := sum_over (λ kv, bs_of self0 kv.1) eids in
  B ≤ total < B + len eids ∧
  ∀ self rng minibatch self' rng',
    reachable self0 self →
    _next_data self rng = inr (Some minibatch, self', rng') →
    len eids ≤ len minibatch ≤ total.
Proof.
  intros Hnd HB _ Hne Hinit total.
  pose proof (init_bs_lookup eids device B shuffle drop_last self0 Hnd Hinit)
    as Hbs.
  pose proof (init_wf _ _ _ _ _ _ Hnd HB Hinit) as Hwf0.
  assert (dataset self0 = eids) as Hds0.
  { by apply init_spec in Hinit as [_ ->]. }
  assert (Hbs_of : ∀ kv, kv ∈ eids →
            bs_of self0 kv.1 = ceil_div (B * len kv.2) (total_edges eids)).
  { intros [et val] Hin. destruct (Hbs et val Hin) as [Hl _].
    unfold bs_of. simpl. by rewrite Hl. }
  split.
  - subst total. rewrite (sum_over_ext _ _ eids Hbs_of).
    assert (0 < total_edges eids) as HT.
    { apply total_edges_pos; [done|]. apply Forall_forall.
      intros [et val] Hin. destruct (Hbs et val Hin) as [_ Hpos].
      specialize (Hpos HB). simpl. destruct val; [simpl in Hpos; lia|done]. }
    pose proof (sum_over_ceil_div (total_edges eids)
                  (λ kv : etype * ids, B * len kv.2) eids HT) as [H1 H2].
    rewrite sum_over_total in H1, H2.
    assert (0 < len eids) by (destruct eids; [done|simpl; lia]). nia.
  - intros self rng minibatch self' rng' Hreach Hnext.
    destruct (reachable_wf self0 self Hwf0 Hreach) as (Hwf & Hds & _).
    destruct (reachable_fields self0 self Hwf0 Hreach) as (Hbsf & _).
    destruct (next_data_spec self rng Hwf)
      as (out & s' & r' & Hn & _ & _ & _ & Hout).
    rewrite Hn in Hnext. injection Hnext as -> -> ->.
    destruct Hwf as [_ Hok]. rewrite Hds, Hds0 in Hout, Hok.
    destruct (forallb (λ kv, exhausted self kv.1 kv.2) eids);
      [by destruct Hout as [? _]|].
    destruct Hout as (parts & [= ->] & Hparts).
    pose proof (length_mjoin_bounds (λ _, 1) (λ kv : etype * ids, bs_of self0 kv.1)
                  eids parts) as Hlen.
    rewrite sum_over_const in Hlen. rewrite Z.mul_1_l in Hlen. apply Hlen.
    apply Forall2_same_length_lookup. split; [by eapply Forall2_length|].
    intros i [et val] part Hi Hp.
    destruct (Forall2_lookup_l _ _ _ _ _ Hparts Hi) as (part' & Hp' & Hg).
    rewrite Hp in Hp'. injection Hp' as <-.
    apply list_elem_of_lookup_2 in Hi. pose proof (Hok et val Hi) as Hoket.
    assert (bs_of self et = bs_of self0 et) as Hb
      by (unfold bs_of; by rewrite Hbsf).
    pose proof (ok_bs_pos _ _ _ Hoket) as Hbs1.
    unfold gives in Hg. simpl in Hg |- *. rewrite <- Hb.
    destruct (next_batch self et val) as [batch|] eqn:Hnb.
    + subst part. rewrite length_fmap.
      destruct (next_batch_Some self et val batch Hoket Hnb)
        as (Hex & Hl & Hpos & _).
      unfold next_pos in Hl. rewrite Hex in Hl. lia.
    + destruct Hg as (eid & _ & ->). simpl. lia.
Qed.
End minibatch_size.

(** ** The per-edge-type balanced loader: an epoch *)

(** Where the position of an edge type with [c] target edges and batch size
    [bs] stands after [k] minibatches of an epoch. *)
Definition epoch_pos (drop_last : bool) (c bs k : Z) : Z :=
  if drop_last then bs * Z.min k (c / bs) else Z.min (k * bs) c.

Lemma epoch_pos_step (drop : bool) (c bs k : Z) :
  1 ≤ bs → 0 ≤ c → 0 ≤ k →
  let p := epoch_pos drop c bs k in
  let ex := (p =? c) || ((c <? p + bs) && drop) in
  0 ≤ p ≤ c ∧
  (ex = true ↔ type_batches drop c bs ≤ k) ∧
  (ex = false → p = k * bs) ∧
  (if ex then p else Z.min (p + bs) c) = epoch_pos drop c bs (k + 1).
Proof.
  intros Hbs Hc Hk p ex. subst p ex. unfold epoch_pos, type_batches.
  destruct drop.
  - pose proof (Z.div_mod c bs ltac:(lia)) as Hdm.
    pose proof (Z.mod_pos_bound c bs ltac:(lia)) as Hmb.
    assert (0 ≤ c / bs) as Hq by (apply Z.div_pos; lia).
    rewrite andb_true_r.
    destruct (Z.le_gt_cases (c / bs) k) as [Hle|Hgt].
    + rewrite !Z.min_r by lia.
      assert ((bs * (c / bs) =? c) || (c <? bs * (c / bs) + bs) = true) as ->.
      { apply orb_true_iff. right. apply Z.ltb_lt. lia. }
      split_and!; [nia|nia|by split|done|done].
    + rewrite Z.min_l by lia. rewrite (Z.min_l (k + 1)) by lia.
      assert ((bs * k =? c) || (c <? bs * k + bs) = false) as ->.
      { apply orb_false_iff. split; [apply Z.eqb_neq|apply Z.ltb_ge]; nia. }
      split_and!; [nia|nia|split; [done|lia]|lia|].
      rewrite Z.min_l by nia. lia.
  - rewrite andb_false_r, orb_false_r.
    destruct (ceil_div_spec c bs (ceil_div c bs) ltac:(lia)) as [Hcd _].
    specialize (Hcd eq_refl).
    destruct (Z.le_gt_cases c (k * bs)) as [Hle|Hgt].
    + rewrite Z.min_r by lia. rewrite (Z.min_r ((k + 1) * bs)) by nia.
      rewrite Z.eqb_refl.
      split_and!; [lia|lia|split; [intros _; nia|done]|done|done].
    + rewrite Z.min_l by lia.
      destruct (Z.eqb_spec (k * bs) c) as [Heq|Hneq]; [lia|].
      split_and!; [nia|lia|split; [done|intros Hle; nia]|done|].
      f_equal. lia.
Qed.

Lemma max_over_le {A} (f : A → Z) (l : list A) (k : Z) :
  0 ≤ k → max_over f l ≤ k ↔ ∀ x, x ∈ l → f x ≤ k.
Proof.
  intros Hk. pose proof (max_over_spec f l) as (Hz & Hle & Hex). split.
  - intros Hmax x Hx. specialize (Hle x Hx). lia.
  - intros Hall. destruct Hex as [->|(x & Hx & ->)]; [done|auto].
Qed.


Section epoch_of_calls.
Import AllEtypeDistEdgeDataLoader.
Context `{TorchRandomLaws R}.
Implicit Types (s self : t) (et : etype) (val : ids) (rng : R).

(** The state of a loader after [k] calls of [_next_data] that follow each
    other. *)
Inductive after_calls (s0 : t) : nat → t → Prop :=
| after_calls_O : after_calls s0 0 s0
| after_calls_S k s rng out s' rng' :
    after_calls s0 k s →
    _next_data s rng = inr (out, s', rng') →
    after_calls s0 (S k) s'.

Lemma after_calls_reachable self0 s0 k s :
  reachable self0 s0 → after_calls s0 k s → reachable self0 s.
Proof.
  intros Hr. induction 1 as [|k s rng out s' rng' _ IH Hnext]; [done|].
  by eapply reachable_next.
Qed.

Lemma exhausted_epoch_pos s et val (k : Z) :
  type_ok s et val → 0 ≤ k →
  pos_of s et = epoch_pos (drop_last s) (len val) (bs_of s et) k →
  (exhausted s et val = true ↔
   type_batches (drop_last s) (len val) (bs_of s et) ≤ k) ∧
  (exhausted s et val = false → pos_of s et = k * bs_of s et) ∧
  next_pos s et val = epoch_pos (drop_last s) (len val) (bs_of s et) (k + 1).
Proof.
  intros Hok Hk Hpos.
  pose proof (epoch_pos_step (drop_last s) (len val) (bs_of s et) k
                (ok_bs_pos _ _ _ Hok) ltac:(lia) Hk) as (_ & Hex & Hp & Hnext).
  cbv zeta in Hex, Hp, Hnext. rewrite <- Hpos in Hex, Hp, Hnext.
  unfold next_pos, exhausted. done.
Qed.

(** The positions after [k] minibatches of an epoch. *)
Lemma after_calls_pos s0 k s :
  wf s0 →
  (∀ et val, (et, val) ∈ dataset s0 → pos_of s0 et = 0) →
  after_calls s0 k s →
  wf s ∧ same_but_pos s0 s ∧
  ∀ et val, (et, val) ∈ dataset s0 →
    pos_of s et = epoch_pos (drop_last s0) (len val) (bs_of s0 et) (Z.of_nat k).
Proof.
  intros Hwf0 Hzero.
  induction 1 as [|k s rng out s' rng' _ (Hwf & Hsame & Hpos) Hnext].
  - split_and!; [done|apply same_but_pos_refl|].
    intros et val Hin. rewrite (Hzero et val Hin).
    destruct Hwf0 as [_ Hok]. pose proof (ok_bs_pos _ _ _ (Hok et val Hin)).
    unfold epoch_pos. destruct (drop_last s0); simpl.
    + assert (0 ≤ len val / bs_of s0 et) by (apply Z.div_pos; lia).
      rewrite Z.min_l by lia. lia.
    + rewrite Z.min_l by lia. done.
  - destruct (next_data_spec s rng Hwf)
      as (out' & s'' & rng'' & Hn & Hsame' & Hwf' & Hpos' & _).
    rewrite Hn in Hnext. injection Hnext as <- <- <-.
    pose proof (same_but_pos_fields s0 s Hsame) as (Hds & Hbs & _ & Hdrop & _).
    split_and!; [done|by eapply same_but_pos_trans|].
    intros et val Hin. rewrite Hds in Hpos'. rewrite (Hpos' et val Hin).
    destruct Hwf as [_ Hok]. rewrite Hds in Hok.
    assert (bs_of s et = bs_of s0 et) as Hb by (unfold bs_of; by rewrite Hbs).
    destruct (exhausted_epoch_pos s et val (Z.of_nat k) (Hok et val Hin)
                ltac:(lia)) as (_ & _ & ->).
    + rewrite Hdrop, Hb. by apply Hpos.
    + rewrite Hdrop, Hb. f_equal. lia.
Qed.

Lemma iter_zero s rng et val :
  wf s → (et, val) ∈ dataset s → pos_of (__iter__ s rng).1 et = 0.
Proof.
  intros Hwf Hin. pose proof (iter_wf s rng Hwf) as [_ Hok'].
  unfold __iter__ in *.
  destruct (if shuffle s then randperm_all (data_idx s) rng
            else (data_idx s, rng)) as [data_idx' rng'] eqn:Hidx.
  cbn [fst dataset] in *. specialize (Hok' et val Hin).
  pose proof (ok_idx _ _ _ Hok') as Hi. cbn [data_idx] in Hi.
  unfold pos_of. cbn [current_pos]. unfold zero_pos. rewrite zero_pos_lookup.
  rewrite decide_True; [done|]. by apply (dict_get_keys _ _ _ Hi).
Qed.

(** What an epoch starts from, and what holds after [k] of its
    minibatches. *)
Lemma epoch_state eids device B shuf drop self0 self rng0 k self_k :
  NoDup (dict_keys eids) → 0 < B →
  __init__ eids device B shuf drop = inr self0 →
  reachable self0 self →
  after_calls (__iter__ self rng0).1 k self_k →
  wf self_k ∧ dataset self_k = eids ∧ drop_last self_k = drop ∧
  same_but_pos (__iter__ self rng0).1 self_k ∧
  expected_idxs self_k = expected_idxs self0 ∧
  expected_idxs self0 =
    max_over (λ kv, type_batches drop (len kv.2)
                      (type_batch_size B (total_edges eids) (len kv.2))) eids ∧
  (shuf = false → data_idx self_k = arange_all eids) ∧
  ∀ et val, (et, val) ∈ eids →
    bs_of self_k et = type_batch_size B (total_edges eids) (len val) ∧
    pos_of self_k et =
      epoch_pos drop (len val)
        (type_batch_size B (total_edges eids) (len val)) (Z.of_nat k).
Proof.
  intros Hnd HB Hinit Hreach Hcalls.
  pose proof (init_wf _ _ _ _ _ _ Hnd HB Hinit) as Hwf0.
  pose proof (init_bs_lookup eids device B shuf drop self0 Hnd Hinit) as Hbs0.
  apply init_spec in Hinit as [_ Hself0]; [|done].
  assert (dataset self0 = eids ∧ drop_last self0 = drop ∧ shuffle self0 = shuf ∧
          data_idx self0 = arange_all eids ∧
          expected_idxs self0 =
            max_over (λ kv, type_batches drop (len kv.2)
                        (type_batch_size B (total_edges eids) (len kv.2)))
              (arange_all eids))
    as (Hds0 & Hdrop0 & Hshuf0 & Hidx0 & Hexp0) by by rewrite Hself0.
  clear Hself0.
  set (s1 := (__iter__ self rng0).1) in *.
  assert (reachable self0 s1) as Hreach1 by by apply reachable_iter.
  destruct (reachable_wf self0 self Hwf0 Hreach) as (Hwf & Hds & _).
  destruct (reachable_wf self0 s1 Hwf0 Hreach1) as (Hwf1 & Hds1 & Hdrop1).
  destruct (reachable_fields self0 s1 Hwf0 Hreach1) as (Hbs1 & Hexp1 & _ & Hidx1).
  destruct (after_calls_pos s1 k self_k Hwf1) as (Hwfk & Hsame & Hpos);
    [|done|].
  { intros et val Hin. apply (iter_zero self rng0 et val); [done|].
    by rewrite Hds, <- Hds1. }
  pose proof (same_but_pos_fields s1 self_k Hsame)
    as (Hdsk & Hbsk & Hidxk & Hdropk & _ & _ & Hexpk).
  split_and!.
  - done.
  - by rewrite Hdsk, Hds1.
  - by rewrite Hdropk, Hdrop1.
  - done.
  - by rewrite Hexpk.
  - rewrite Hexp0.
    apply (max_over_arange
             (λ c, type_batches drop c (type_batch_size B (total_edges eids) c))).
  - intros ->. rewrite Hidxk, Hidx1 by done. done.
  - intros et val Hin.
    assert (bs_of s1 et = type_batch_size B (total_edges eids) (len val)) as Hb.
    { unfold bs_of. rewrite Hbs1. by destruct (Hbs0 et val Hin) as [-> _]. }
    split.
    + unfold bs_of. rewrite Hbsk. exact Hb.
    + rewrite (Hpos et val) by by rewrite Hds1, Hds0.
      by rewrite Hdrop1, Hdrop0, Hb.
Qed.


(** An epoch has as many minibatches as the constructor has counted: after
    [__iter__], at any time after the construction, the call of
    [_next_data] that follows [k] earlier ones gives a minibatch exactly
    when [k] is less than [expected_idxs], which no call changes.  The
    loader of DGL that the class extends takes [expected_idxs] minibatches
    per epoch, so it asks for each of them and for no more. *)
Theorem epoch_has_expected_idxs_minibatches (eids : dict etype ids)
    (device : option string) (B : Z) (shuffle drop_last : bool)
    (self0 self self_k : t) (rng0 rng : R) (k : nat) :
  NoDup (dict_keys eids) → 0 < B →
  __init__ eids device B shuffle drop_last = inr self0 →
  reachable self0 self →
  after_calls (__iter__ self rng0).1 k self_k →
  ∃ out self' rng',
    _next_data self_k rng = inr (out, self', rng') ∧
    (is_Some out ↔ Z.of_nat k < expected_idxs self_k) ∧
    expected_idxs self_k = expected_idxs self0.
Proof.
  intros Hnd HB Hinit Hreach Hcalls.
  destruct (epoch_state _ _ _ _ _ _ _ _ _ _ Hnd HB Hinit Hreach Hcalls)
    as (Hwf & Hds & Hdrop & _ & Hexp & Hmax & _ & Hstate).
  destruct (next_data_spec self_k rng Hwf)
    as (out & self' & rng' & Hnext & _ & _ & _ & Hout).
  exists out, self', rng'. split_and!; [done| |done].
  rewrite Hexp, Hmax. rewrite Hds in Hout.
  assert (forallb (λ kv, exhausted self_k kv.1 kv.2) eids = true ↔
          max_over (λ kv, type_batches drop_last (len kv.2)
                      (type_batch_size B (total_edges eids) (len kv.2))) eids
          ≤ Z.of_nat k) as Hall.
  { rewrite max_over_le by lia. rewrite forallb_forall. split.
    - intros Hex [et val] Hin. simpl.
      specialize (Hex (et, val) ltac:(by apply list_elem_of_In)). simpl in Hex.
      destruct (Hstate et val Hin) as [Hb Hp]. destruct Hwf as [_ Hok].
      rewrite Hds in Hok.
      destruct (exhausted_epoch_pos self_k et val (Z.of_nat k) (Hok et val Hin)
                  ltac:(lia)) as (Hiff & _); [by rewrite Hdrop, Hb|].
      rewrite Hdrop, Hb in Hiff. by apply Hiff.
    - intros Hle [et val] Hin%list_elem_of_In. simpl.
      destruct (Hstate et val Hin) as [Hb Hp]. destruct Hwf as [_ Hok].
      rewrite Hds in Hok.
      destruct (exhausted_epoch_pos self_k et val (Z.of_nat k) (Hok et val Hin)
                  ltac:(lia)) as (Hiff & _); [by rewrite Hdrop, Hb|].
      rewrite Hdrop, Hb in Hiff. apply Hiff. apply (Hle (et, val) Hin). }
  destruct (forallb (λ kv, exhausted self_k kv.1 kv.2) eids).
  - destruct Hout as (-> & _). split; [by intros [? ?]|].
    intros Hlt. destruct Hall as [Hall _]. specialize (Hall eq_refl). lia.
  - destruct Hout as (parts & -> & _). split; [|by eexists].
    intros _. apply Z.lt_nge. intros Hle. by apply Hall in Hle.
Qed.

End epoch_of_calls.

(** ** The link-prediction test loader: an epoch *)

(** The batches a list of target edges is cut into: [bs] edges each and the
    rest in the last one; one empty batch for an empty list. *)
Fixpoint chunks {A} (fuel bs : nat) (l : list A) : list (list A) :=
  match fuel with
  | O => [l]
  | S fuel =>
      if decide (length l ≤ bs)%nat then [l]
      else take bs l :: chunks fuel bs (drop bs l)
  end.

Lemma chunks_spec {A} (fuel bs : nat) (l : list A) :
  (0 < bs)%nat → (length l ≤ fuel)%nat →
  mjoin (chunks fuel bs l) = l ∧
  chunks fuel bs l ≠ [] ∧
  (∀ i b, chunks fuel bs l !! i = Some b →
          (S i < length (chunks fuel bs l))%nat → length b = bs) ∧
  (∀ b, last (chunks fuel bs l) = Some b →
        (length b ≤ bs)%nat ∧ (l ≠ [] → (0 < length b)%nat)).
Proof.
  intros Hbs. revert l. induction fuel as [|fuel IH]; intros l Hfuel.
  - destruct l; [|simpl in Hfuel; lia]. simpl.
    split_and!; [done|done|intros i b _ ?; lia|].
    intros b [= <-]. simpl. split; [lia|done].
  - simpl. case_decide as Hlen.
    + simpl. rewrite app_nil_r. split_and!; [done|done|intros i b _ ?; lia|].
      intros b [= <-]. split; [done|]. destruct l; [done|simpl; lia].
    + destruct (IH (drop bs l)) as (Hjoin & Hne & Hfull & Hlast).
      { rewrite length_drop. lia. }
      split_and!.
      * simpl. by rewrite Hjoin, take_drop.
      * done.
      * intros [|i] b Hb Hi; simpl in Hb, Hi.
        -- injection Hb as <-. rewrite length_take. lia.
        -- apply (Hfull i b Hb). lia.
      * intros b Hb. rewrite last_cons in Hb.
        destruct (last (chunks fuel bs (drop bs l))) as [b'|] eqn:Hl.
        -- injection Hb as <-. destruct (Hlast b' eq_refl) as [Hle Hpos].
           split; [done|]. intros _. apply Hpos.
           intros Hd. apply (f_equal length) in Hd. rewrite length_drop in Hd.
           simpl in Hd. lia.
        -- by apply last_None in Hl.
Qed.

Section test_loader.
Import GSgnnLinkPredictionTestDataLoader.
Context `{EdgePairs}.
Implicit Types (self : t) (et : etype) (target : ids).

(** What [__next__] returns for the batch [pos_eids] of positive edges of
    an edge type: the positive and negative pairs of the batch and the name
    of the negative sampling. *)
Definition test_batch (self : t) (et : etype) (pos_eids : ids)
    : PosNegTuple * string :=
  (gen_neg_pairs (_negative_sampler self) (g (_data self))
     [(et, find_edges (g (_data self)) pos_eids et)],
   _neg_sample_type self).

Lemma batches_of_S fuel self :
  batches_of (S fuel) self =
  match __next__ self with
  | inl StopIteration => Some (inr [])
  | inl e => Some (inl e)
  | inr (batch, neg_sample_type, self) =>
      fmap (M := result) ((batch, neg_sample_type) ::.) <$> batches_of fuel self
  end.
Proof. done. Qed.

(** One call of [__next__] on a loader with an edge type left. *)
Lemma test_next_spec self et rest p target :
  remaining_etypes self = et :: rest →
  _current_pos self !! et = Some p →
  dict_get (_target_idx self) et = inr target →
  0 ≤ p ≤ len target → 0 ≤ _batch_size self →
  __next__ self =
  inr (if len target <=? p + _batch_size self
       then (test_batch self et (drop (Z.to_nat p) target),
             set_progress self (<[et := p + _batch_size self]> (_current_pos self))
               rest)
       else (test_batch self et
               (take (Z.to_nat (_batch_size self)) (drop (Z.to_nat p) target)),
             set_progress self (<[et := p + _batch_size self]> (_current_pos self))
               (et :: rest))).
Proof.
  intros Hrem Hpos Htarget Hp Hbs. unfold __next__, _next_data, gmap_get.
  rewrite Hrem, Hpos, Htarget. result_simpl.
  destruct (Z.leb_spec (len target) (p + _batch_size self)) as [Hend|Hmore].
  - rewrite py_slice_in_range by lia. unfold test_batch, set_progress.
    cbn [remaining_etypes _current_pos _neg_sample_type _negative_sampler
         _data _batch_size _target_idx _fanout class drop mret result_ret].
    rewrite take_ge by (rewrite length_drop; lia). done.
  - rewrite py_slice_in_range by lia. unfold test_batch.
    replace (Z.to_nat (p + _batch_size self - p)) with (Z.to_nat (_batch_size self))
      by lia.
    by destruct self.
Qed.

Ltac case_batches :=
  repeat match goal with
  | |- context [@batches_of ?h ?fuel ?s] =>
      destruct (@batches_of h fuel s) as [[?|?]|]
  end.

(** The calls of [__next__] that use up the first edge type left. *)
Lemma batches_of_etype (n : nat) : ∀ self et rest p target,
  remaining_etypes self = et :: rest →
  _current_pos self !! et = Some p →
  dict_get (_target_idx self) et = inr target →
  0 ≤ p ≤ len target → 0 < _batch_size self →
  (length target - Z.to_nat p ≤ n)%nat →
  ∃ m pos',
    (∀ et', et' ≠ et → pos' !! et' = _current_pos self !! et') ∧
    ∀ fuel,
      batches_of (m + fuel) self =
      fmap (M := result)
        ((test_batch self et <$>
            chunks n (Z.to_nat (_batch_size self)) (drop (Z.to_nat p) target)) ++.)
      <$> batches_of fuel (set_progress self pos' rest).
Proof.
  induction n as [|n IH]; intros self et rest p target Hrem Hpos Htarget Hp Hbs Hn.
  all: pose proof (test_next_spec self et rest p target Hrem Hpos Htarget Hp
                     ltac:(lia)) as Hnext.
  all: destruct (Z.leb_spec (len target) (p + _batch_size self)) as [Hend|Hmore].
  - exists 1%nat, (<[et := p + _batch_size self]> (_current_pos self)).
    split; [by intros; rewrite lookup_insert_ne|].
    intros fuel. cbn [Nat.add]. rewrite batches_of_S, Hnext.
    simpl. by case_batches.
  - lia.
  - exists 1%nat, (<[et := p + _batch_size self]> (_current_pos self)).
    split; [by intros; rewrite lookup_insert_ne|].
    intros fuel. cbn [Nat.add]. rewrite batches_of_S, Hnext.
    cbn [chunks]. rewrite decide_True by (rewrite length_drop; lia).
    simpl. by case_batches.
  - set (self1 := set_progress self
                    (<[et := p + _batch_size self]> (_current_pos self))
                    (et :: rest)) in *.
    destruct (IH self1 et rest (p + _batch_size self) target)
      as (m & pos' & Hframe & Hrun); [done|by apply lookup_insert_eq|done|lia|done|lia|].
    exists (S m), pos'. split.
    { intros et' Hne. rewrite (Hframe et' Hne). by apply lookup_insert_ne. }
    intros fuel. cbn [Nat.add]. rewrite batches_of_S, Hnext, Hrun.
    cbn [chunks]. rewrite decide_False by (rewrite length_drop; lia).
    rewrite drop_drop.
    replace (Z.to_nat p + Z.to_nat (_batch_size self))%nat
      with (Z.to_nat (p + _batch_size self)) by lia.
    change (set_progress self1 pos' rest) with (set_progress self pos' rest).
    change (_batch_size self1) with (_batch_size self).
    change (test_batch self1 et) with (test_batch self et).
    by case_batches.
Qed.

(** The calls of [__next__] that use up the edge types left, each at its
    start. *)
Lemma batches_of_all (d : dict etype ids) : ∀ self,
  remaining_etypes self = dict_keys d →
  (∀ et target, (et, target) ∈ d →
     _current_pos self !! et = Some 0 ∧
     dict_get (_target_idx self) et = inr target) →
  NoDup (dict_keys d) → 0 < _batch_size self →
  ∃ fuel,
    batches_of fuel self =
    Some (inr (mjoin
      ((λ kv, test_batch self kv.1 <$>
                chunks (length kv.2) (Z.to_nat (_batch_size self)) kv.2) <$> d))).
Proof.
  induction d as [|[et target] d IH]; intros self Hrem Hstart Hnd Hbs.
  - exists 1%nat. rewrite batches_of_S. unfold __next__. by rewrite Hrem.
  - cbn [dict_keys fmap list_fmap fst] in Hrem, Hnd.
    apply NoDup_cons in Hnd as [Hnin Hnd].
    destruct (Hstart et target ltac:(left)) as [Hpos Htarget].
    destruct (batches_of_etype (length target) self et (dict_keys d) 0 target)
      as (m & pos' & Hframe & Hrun); [done|done|done|lia|done|lia|].
    destruct (IH (set_progress self pos' (dict_keys d))) as (fuel & Hrest);
      [done| |done|done|].
    { intros et' target' Hin.
      assert (et' ≠ et) as Hne.
      { intros ->. apply Hnin. apply list_elem_of_fmap. by exists (et, target'). }
      destruct (Hstart et' target' ltac:(by right)) as [Hp Ht].
      split; [|done]. cbn [_current_pos set_progress]. by rewrite Hframe. }
    exists (m + fuel)%nat. rewrite Hrun, Hrest. done.
Qed.

(** An epoch of the test loader, at any time and as often as it is
    started: [__iter__] followed by calls of [__next__] gives, for one edge
    type of the target after the other and in their order, the target edges
    of the type in their order, cut into batches of [batch_size] edges with
    the rest in the last batch, and then raises [StopIteration].  Every
    target edge is in exactly one batch; an edge type without target edges
    gives one empty batch. *)
Theorem test_loader_epoch (self : t) :
  NoDup (dict_keys (_target_idx self)) → 0 < _batch_size self →
  ∃ (fuel : nat) (parts : list (list ids)),
    batches_of fuel (__iter__ self) =
      Some (inr (mjoin
        (zip_with (λ kv part, test_batch self kv.1 <$> part)
           (_target_idx self) parts))) ∧
    Forall2
      (λ kv part,
         mjoin part = kv.2 ∧ part ≠ [] ∧
         (∀ i b, part !! i = Some b → (S i < length part)%nat →
                 len b = _batch_size self) ∧
         (∀ b, last part = Some b →
               len b ≤ _batch_size self ∧ (kv.2 ≠ [] → 0 < len b)))
      (_target_idx self) parts.
Proof.
  intros Hnd Hbs.
  destruct (batches_of_all (_target_idx self) (__iter__ self))
    as (fuel & Hrun); [done| |done|done|].
  { intros et target Hin. split.
    - cbn [__iter__ _reinit_dataset _current_pos]. rewrite zero_pos_lookup.
      rewrite decide_True; [by rewrite lookup_empty || done|].
      apply list_elem_of_fmap. by exists (et, target).
    - by apply dict_get_elem_of. }
  exists fuel,
    ((λ kv : etype * ids,
        chunks (length kv.2) (Z.to_nat (_batch_size self)) kv.2)
     <$> _target_idx self).
  split.
  - rewrite Hrun. do 3 f_equal.
    rewrite zip_with_fmap_r, zip_with_diag. done.
  - apply Forall2_fmap_r, Forall_Forall2_diag, Forall_forall.
    intros [et target] _. cbn [snd].
    destruct (chunks_spec (length target) (Z.to_nat (_batch_size self)) target)
      as (Hjoin & Hne & Hfull & Hlast); [lia|done|].
    split_and!; [done|done| |].
    + intros i b Hb Hi. specialize (Hfull i b Hb Hi). lia.
    + intros b Hb. destruct (Hlast b Hb) as [Hle Hpos]. split; [lia|].
      intros Ht. specialize (Hpos Ht). lia.
Qed.

(** With a batch size of 0 the test loader does not get past an edge type
    that has target edges: every call of [__next__] gives an empty batch and
    leaves the position where it is, so the epoch does not end. *)
Theorem test_loader_zero_batch_size_never_ends (self : t) (et : etype)
    (target : ids) (rest : dict etype ids) :
  _batch_size self = 0 →
  _target_idx self = (et, target) :: rest →
  target ≠ [] →
  (∀ fuel, batches_of fuel (__iter__ self) = None) ∧
  ∃ self',
    __next__ (__iter__ self) = inr (test_batch self et [], self') ∧
    __next__ self' = inr (test_batch self et [], self').
Proof.
  intros Hbs Htarget Hne.
  assert (0 < len target) as Hlen by (destruct target; [done|simpl; lia]).
  assert (Hstep : ∀ s,
            _batch_size s = 0 → _target_idx s = (et, target) :: rest →
            _neg_sample_type s = _neg_sample_type self →
            _negative_sampler s = _negative_sampler self →
            _data s = _data self →
            remaining_etypes s = et :: dict_keys rest →
            _current_pos s !! et = Some 0 →
            __next__ s =
            inr (test_batch self et [],
                 set_progress s (<[et := 0]> (_current_pos s))
                   (et :: dict_keys rest))).
  { intros s Hb Ht Hnt Hns Hd Hrem Hpos.
    rewrite (test_next_spec s et (dict_keys rest) 0 target Hrem Hpos);
      [|by rewrite Ht; simpl; rewrite decide_True|lia|lia].
    rewrite Hb, Z.add_0_r.
    destruct (Z.leb_spec (len target) 0) as [?|_]; [lia|].
    unfold test_batch. rewrite Hnt, Hns, Hd. by rewrite Z2Nat.inj_0, take_0. }
  assert (Hloop : ∀ fuel s,
            _batch_size s = 0 → _target_idx s = (et, target) :: rest →
            _neg_sample_type s = _neg_sample_type self →
            _negative_sampler s = _negative_sampler self →
            _data s = _data self →
            remaining_etypes s = et :: dict_keys rest →
            _current_pos s !! et = Some 0 →
            batches_of fuel s = None).
  { induction fuel as [|fuel IH]; intros s Hb Ht Hnt Hns Hd Hrem Hpos; [done|].
    rewrite batches_of_S, (Hstep s Hb Ht Hnt Hns Hd Hrem Hpos).
    rewrite IH; [done|done..|].
    cbn [_current_pos set_progress]. by rewrite lookup_insert_eq. }
  assert (_current_pos (__iter__ self) !! et = Some 0) as Hpos0.
  { cbn [__iter__ _reinit_dataset _current_pos]. rewrite zero_pos_lookup.
    rewrite decide_True; [done|]. rewrite Htarget. left. }
  assert (remaining_etypes (__iter__ self) = et :: dict_keys rest) as Hrem0.
  { cbn [__iter__ _reinit_dataset remaining_etypes]. by rewrite Htarget. }
  split.
  - intros fuel. by apply Hloop.
  - eexists. split; [by apply Hstep|].
    rewrite Hstep; [|done..|by apply lookup_insert_eq].
    cbn [_current_pos set_progress]. by rewrite insert_insert_eq.
Qed.
End test_loader.

Section test_loader_restart.
Import GSgnnLinkPredictionTestDataLoader.
Context `{EdgePairs}.

(** A call of [__next__] changes nothing but the positions and the list of
    edge types left, which [__iter__] sets anew: whatever has been taken
    from the test loader, [__iter__] puts it back into the state in which
    the epoch before started, and it does so again when it is called
    twice. *)
Theorem test_loader_iter_restarts (self self' : t) (out : PosNegTuple * string) :
  __next__ self = inr (out, self') →
  __iter__ self' = __iter__ self ∧
  __iter__ (__iter__ self) = __iter__ self ∧
  _target_idx self' = _target_idx self ∧
  _batch_size self' = _batch_size self.
Proof.
  unfold __next__. destruct (remaining_etypes self) as [|et rest]; [done|].
  intros ([[cur_iter end_of_etype] s1] & Hdata & Hout)%bind_inr.
  unfold _next_data in Hdata.
  apply bind_inr in Hdata as (p & _ & Hdata).
  apply bind_inr in Hdata as (target & _ & Hdata).
  apply bind_inr in Hdata as (p' & _ & [= _ _ <-]).
  destruct end_of_etype; injection Hout as _ <-; by destruct self.
Qed.
End test_loader_restart.

(** ** The semi-supervised node loader *)

Section semi_sup.
Context (num_workers : nat) (dataset : GSgnnData).

(** The semi-supervised loader gives each of its two loaders half of the
    batch size, rounded down, so that a pair of batches has at most
    [batch_size] nodes and one less when [batch_size] is odd.  Both loaders
    shuffle exactly in training, and in training both node lists are
    trimmed. *)
Theorem semi_sup_loader_halves_batch_size
    (target_idx unlabeled_idx : dict ntype ids) (fanout : list layer_fanout)
    (batch_size : Z) (device : string) (train_task : bool)
    (self : GSgnnNodeSemiSupDataLoader.t) :
  NoDup (dict_keys target_idx) → NoDup (dict_keys unlabeled_idx) →
  GSgnnNodeSemiSupDataLoader.__init__ num_workers dataset target_idx
    unlabeled_idx fanout batch_size device train_task = inr self →
  let labeled :=
    GSgnnNodeDataLoader.dataloader (GSgnnNodeSemiSupDataLoader.base self) in
  let unlabeled := GSgnnNodeSemiSupDataLoader.unlabeled_dataloader self in
  dn_batch_size labeled = batch_size / 2 ∧
  dn_batch_size unlabeled = batch_size / 2 ∧
  batch_size - 1 ≤ dn_batch_size labeled + dn_batch_size unlabeled ≤ batch_size ∧
  dn_shuffle labeled = train_task ∧ dn_shuffle unlabeled = train_task ∧
  dn_nids labeled =
    (if train_task then trimmed num_workers target_idx else target_idx) ∧
  dn_nids unlabeled =
    (if train_task then trimmed num_workers unlabeled_idx else unlabeled_idx).
Proof.
  intros Hndt Hndu.
  unfold GSgnnNodeSemiSupDataLoader.__init__, GSgnnNodeDataLoader.__init__,
    GSgnnNodeDataLoader._prepare_dataloader.
  intros (base & Hbase & ([ul uidx] & Hul & [= <-])%bind_inr)%bind_inr.
  simpl in Hbase. apply bind_inr in Hbase as ([] & _ & Hbase).
  apply bind_inr in Hbase as ([l t] & Hl & [= <-]).
  assert (Htrim : ∀ d : dict ntype ids, NoDup (dict_keys d) →
            (if train_task then trim_all num_workers d else mret d) =
            inr (if train_task then trimmed num_workers d else d)).
  { intros d Hd. destruct train_task; [by apply trim_all_spec|done]. }
  rewrite Htrim in Hul, Hl by done. result_simpl in Hul. result_simpl in Hl.
  injection Hul as <- <-. injection Hl as <- <-.
  cbn. pose proof (Z.div_mod batch_size 2 ltac:(lia)).
  pose proof (Z.mod_pos_bound batch_size 2 ltac:(lia)).
  split_and!; try done; lia.
Qed.
End semi_sup.

(** ** The link-prediction loaders over the balanced loader *)

Section all_etype_lp.
Import GSgnnLinkPredictionDataLoader.
Context (num_workers : nat) (dataset : GSgnnData).

(** Outside training, the link-prediction loaders that sample every edge
    type in every minibatch cannot be built, raising [ZeroDivisionError],
    when an edge type of the target has no target edge, once the checks of
    the edge types and of the reconstruction have passed.  When such a
    loader is built, every edge type of the target has a target edge, and
    the balanced loader it holds is over the target as it is, with the
    batch size given, without shuffling and without dropping the last
    batch. *)
Theorem all_etype_lp_loader_construction (c : cls)
    (target_idx : dict etype ids) (fanout : list layer_fanout)
    (batch_size k : Z) (device : string)
    (reverse_map : option (gmap etype etype)) (exclude : bool)
    (mask : option string) (cf_ntype : option (list ntype)) (cf_fanout : Z)
    (sampler : option _ReconstructedNeighborSampler.t) :
  prepare_of c = Balanced →
  NoDup (dict_keys target_idx) →
  0 < batch_size → float_exact batch_size target_idx →
  (∀ e, e ∈ dict_keys target_idx → e ∈ canonical_etypes (g dataset)) →
  make_construct_feat_sampler dataset cf_ntype cf_fanout = inr sampler →
  let built :=
    __init__ num_workers c dataset target_idx fanout batch_size k device false
      reverse_map exclude mask cf_ntype cf_fanout in
  (Exists (λ kv, kv.2 = []) target_idx → built = inl ZeroDivisionError) ∧
  (∀ self, built = inr self →
     Forall (λ kv, kv.2 ≠ []) target_idx ∧
     ∃ args l,
       dataloader self = AllEtype args l ∧
       _target_idx self = target_idx ∧ de_eids args = target_idx ∧
       AllEtypeDistEdgeDataLoader.dataset l = target_idx ∧
       AllEtypeDistEdgeDataLoader.batch_size l = batch_size ∧
       AllEtypeDistEdgeDataLoader.shuffle l = false ∧
       AllEtypeDistEdgeDataLoader.drop_last l = false).
Proof.
  intros Hbal Hnd _ _ Hall Hsampler built. subst built.
  unfold __init__, _prepare_dataloader.
  rewrite (proj2 (check_etypes_ok dataset target_idx) Hall), Hsampler, Hbal.
  result_simpl. split.
  - intros Hex.
    by rewrite (init_not_divisible target_idx None batch_size false false Hnd
                  ltac:(by left) (not_divisible_empty _ _ Hex)).
  - intros self ([args l] & (l' & Hl & [= <- <-])%bind_inr & [= <-])%bind_inr.
    pose proof (init_spec _ _ _ _ _ _ Hnd Hl) as [Hdiv Hspec].
    split; [by eapply divisible_all_nonempty|].
    eexists _, l'.
    split_and!; [reflexivity..|by rewrite Hspec|by rewrite Hspec
                |by rewrite Hspec|by rewrite Hspec].
Qed.
End all_etype_lp.

(** ** The further properties on the examples *)

Lemma node_loader_checks_target_ntypes_witness :
  GSgnnNodeDataLoader.__init__ 2 example_dataset [("movie"%string, [0; 1])]
    [FanoutInt 10] 2 "cpu" true None 5 =
  inl (AssertionError "node type {} does not exist in the graph").
Proof.
  refine (proj1 (proj2
    (node_loader_checks_target_ntypes 2 example_dataset
       [("movie"%string, [0; 1])] "movie"%string _ _))
    [FanoutInt 10] 2 "cpu"%string true None 5 (or_introl eq_refl)).
  - apply (bool_decide_unpack _). vm_cast_no_check I.
  - apply (bool_decide_unpack _). vm_cast_no_check I.
Defined.

Lemma next_without_reconstruction_witness :
  let input_nodes : node_ids := {[ "item"%string := [7; 8] ]} in
  let block : DGLBlock (DGL := recording_dgl) := (input_nodes, ∅) in
  GSgnnNodeDataLoader.__next__ (H := recording_dgl) plain_node_loader
    (inr (input_nodes, input_nodes, [block])) =
  inr (input_nodes, input_nodes, [block]).
Proof.
  intros input_nodes block.
  refine (proj1 (proj2 (proj2
    (next_without_reconstruction (H := recording_dgl) 2 example_dataset None 5
       (or_introl eq_refl))))
    [("item"%string, [0; 1; 2])] [FanoutInt 10] 2 "cpu"%string false
    plain_node_loader _ _).
  by_evaluation.
Defined.

Lemma extend_target_etypes_shape_witness :
  let target_etypes := GSgnnEdgeDataLoader.extend_target_etypes chain_map [buys] in
  [buys] `prefix_of` target_etypes ∧ NoDup target_etypes ∧
  (length target_etypes ≤ length [buys] + size chain_map)%nat.
Proof.
  intros target_etypes.
  destruct (extend_target_etypes_shape chain_map [buys] (NoDup_singleton buys))
    as (Hpre & Hnd & Hlen & _).
  split_and!; assumption.
Defined.

Lemma all_etype_init_needs_edges_witness :
  AllEtypeDistEdgeDataLoader.__init__ sparse_eids None 2 false false =
  inl ZeroDivisionError.
Proof.
  refine (proj1 (proj2
    (all_etype_init_needs_edges sparse_eids None 2 false false _ _ _))
    (or_introl eq_refl) _).
  - apply (bool_decide_unpack _). vm_cast_no_check I.
  - lia.
  - split; [lia|]. apply (bool_decide_unpack _). vm_cast_no_check I.
  - apply Exists_cons_tl, Exists_cons_hd. reflexivity.
Defined.

Lemma minibatch_size_bounds_witness :
  let total := sum_over (λ kv, bs_of (run_start false) kv.1) example_eids in
  2 ≤ total < 2 + len example_eids.
Proof.
  refine (proj1 (minibatch_size_bounds (H0 := counter_random_laws)
    example_eids None 2 false false (run_start false) _ _ _ _ _)).
  - apply (bool_decide_unpack _). vm_cast_no_check I.
  - lia.
  - split; [lia|]. apply (bool_decide_unpack _). vm_cast_no_check I.
  - discriminate.
  - by_evaluation.
Defined.

Lemma epoch_first_call :
  after_calls (H := counter_random)
    (AllEtypeDistEdgeDataLoader.__iter__ (H := counter_random)
       (run_start false) 0%nat).1 1 (run_first false).
Proof.
  eapply (after_calls_S _ 0 _ 0%nat
            (Some [(buys, 10); (buys, 11); (bought_by, 20)])
            (run_first false) 0%nat); [apply after_calls_O|].
  by_evaluation.
Qed.

Lemma epoch_second_call :
  after_calls (H := counter_random)
    (AllEtypeDistEdgeDataLoader.__iter__ (H := counter_random)
       (run_start false) 0%nat).1 2 (run_second false).
Proof.
  eapply (after_calls_S _ 1 (run_first false) 0%nat
            (Some [(buys, 12); (buys, 13); (bought_by, 20)])
            (run_second false) 1%nat); [apply epoch_first_call|].
  by_evaluation.
Qed.

Lemma epoch_has_expected_idxs_minibatches_witness :
  ∃ out self' rng',
    AllEtypeDistEdgeDataLoader._next_data (H := counter_random)
      (run_second false) 0%nat = inr (out, self', rng') ∧
    (is_Some out ↔
     Z.of_nat 2 < AllEtypeDistEdgeDataLoader.expected_idxs (run_second false)) ∧
    AllEtypeDistEdgeDataLoader.expected_idxs (run_second false) =
      AllEtypeDistEdgeDataLoader.expected_idxs (run_start false).
Proof.
  apply (epoch_has_expected_idxs_minibatches (H0 := counter_random_laws)
           example_eids None 2 false false (run_start false) (run_start false)
           (run_second false) 0%nat 0%nat 2).
  - apply (bool_decide_unpack _). vm_cast_no_check I.
  - lia.
  - by_evaluation.
  - apply reachable_init.
  - apply epoch_second_call.
Defined.


Lemma test_loader_epoch_witness :
  let self := example_test_loader 3 in
  ∃ (fuel : nat) (parts : list (list ids)),
    GSgnnLinkPredictionTestDataLoader.batches_of (H := recording_pairs) fuel
      (GSgnnLinkPredictionTestDataLoader.__iter__ self) =
      Some (inr (mjoin
        (zip_with (λ kv part, test_batch (H := recording_pairs) self kv.1 <$> part)
           example_eids parts))) ∧
    Forall2
      (λ kv part,
         mjoin part = kv.2 ∧ part ≠ [] ∧
         (∀ i b, part !! i = Some b → (S i < length part)%nat → len b = 3) ∧
         (∀ b, last part = Some b → len b ≤ 3 ∧ (kv.2 ≠ [] → 0 < len b)))
      example_eids parts.
Proof.
  intros self.
  apply (test_loader_epoch (H := recording_pairs) self).
  - apply (bool_decide_unpack _). vm_cast_no_check I.
  - reflexivity.
Defined.

(** The epoch of the example, evaluated: two batches of the first edge type
    and one of the second. *)
Example test_loader_epoch_example :
  GSgnnLinkPredictionTestDataLoader.batches_of (H := recording_pairs) 4
    (GSgnnLinkPredictionTestDataLoader.__iter__ (example_test_loader 3)) =
  Some (inr [((GlobalUniform 1, [(buys, ([10; 11; 12], [10; 11; 12]))]), "uniform"%string);
             ((GlobalUniform 1, [(buys, ([13], [13]))]), "uniform"%string);
             ((GlobalUniform 1, [(bought_by, ([20], [20]))]), "uniform"%string)]).
Proof. by_evaluation. Qed.

Lemma test_loader_zero_batch_size_never_ends_witness :
  GSgnnLinkPredictionTestDataLoader.batches_of (H := recording_pairs) 100
    (GSgnnLinkPredictionTestDataLoader.__iter__ (example_test_loader 0)) = None.
Proof.
  refine (proj1 (test_loader_zero_batch_size_never_ends (H := recording_pairs)
    (example_test_loader 0) buys [10; 11; 12; 13] [(bought_by, [20])] _ _ _) 100%nat).
  - reflexivity.
  - reflexivity.
  - discriminate.
Defined.

Lemma test_loader_iter_restarts_witness :
  let self' :=
    GSgnnLinkPredictionTestDataLoader.set_progress (example_test_loader 3)
      {[ buys := 3; bought_by := 0 ]} [buys; bought_by] in
  GSgnnLinkPredictionTestDataLoader.__iter__ self' =
  GSgnnLinkPredictionTestDataLoader.__iter__ (example_test_loader 3).
Proof.
  intros self'.
  refine (proj1 (test_loader_iter_restarts (H := recording_pairs)
    (example_test_loader 3) self'
    ((GlobalUniform 1, [(buys, ([10; 11; 12], [10; 11; 12]))]), "uniform"%string)
    _)).
  by_evaluation.
Defined.

Lemma semi_sup_loader_halves_batch_size_witness :
  ∃ self,
    GSgnnNodeSemiSupDataLoader.__init__ 2 example_dataset
      [("item"%string, [0; 1; 2])] [("user"%string, [5; 6])] [FanoutInt 10] 5
      "cpu" false = inr self ∧
    dn_batch_size
      (GSgnnNodeDataLoader.dataloader (GSgnnNodeSemiSupDataLoader.base self)) = 2 ∧
    dn_batch_size (GSgnnNodeSemiSupDataLoader.unlabeled_dataloader self) = 2.
Proof.
  eexists. split; [reflexivity|].
  destruct (semi_sup_loader_halves_batch_size 2 example_dataset
              [("item"%string, [0; 1; 2])] [("user"%string, [5; 6])]
              [FanoutInt 10] 5 "cpu" false _
              (NoDup_singleton _) (NoDup_singleton _) eq_refl)
    as (H1 & H2 & _).
  split; [exact H1 | exact H2].
Defined.

Lemma all_etype_lp_loader_construction_witness :
  GSgnnLinkPredictionDataLoader.__init__ 2
    GSgnnLinkPredictionDataLoader.GSgnnAllEtypeLinkPredictionDataLoader
    example_dataset sparse_eids [FanoutInt 10] 2 1 "cpu" false None false None
    None 5 = inl ZeroDivisionError.
Proof.
  refine (proj1 (all_etype_lp_loader_construction 2 example_dataset
    GSgnnLinkPredictionDataLoader.GSgnnAllEtypeLinkPredictionDataLoader
    sparse_eids [FanoutInt 10] 2 1 "cpu" None false None None 5 None
    eq_refl _ _ _ _ eq_refl) _).
  - apply (bool_decide_unpack _). vm_cast_no_check I.
  - lia.
  - split; [lia|]. apply (bool_decide_unpack _). vm_cast_no_check I.
  - apply Forall_forall. apply (bool_decide_unpack _). vm_cast_no_check I.
  - apply Exists_cons_tl, Exists_cons_hd. reflexivity.
Defined.
